(** * GTask: the local-cache / remote-sync engine of [tasks_tui/task_service.py]

    A shallow embedding of [TaskService] (the cache engine), of
    [local_storage.py] (the durable store adapter) and of the early mock
    [gtask_tui/task_service.py], followed by the properties of the
    specification that concern them.

    Python values are modelled as they occur in the JSON documents the
    program handles: a task or task-list record is a [dict] from field
    names to scalars, the [tasks] mapping is an insertion-ordered [dict]
    (its iteration order fixes the order of the remote calls), exceptions
    are explicit results, and [self], the remote service, the storage file
    and the trace of observable effects form the state that every method
    threads. *)

From Stdlib Require Import ZArith String.
From stdpp Require Import gmap strings list pretty.

Local Open Scope string_scope.
Local Open Scope list_scope.

(* ===================================================================== *)
(** ** Python values, records and exceptions *)
(* ===================================================================== *)

(** The scalars found in the records: [None], booleans and strings (the
    fields the program reads hold no numbers). *)
Inductive pyval :=
| PNone
| PBool (b : bool)
| PStr (s : string).

#[global] Instance pyval_eq_dec : EqDecision pyval.
Proof. solve_decision. Defined.

(** A task or task-list record: a JSON object. *)
Abbreviation record := (gmap string pyval).

(** Exceptions the code can meet. [HttpError] stands for any failure of a
    remote call. *)
Inductive exn :=
| KeyError
| AttributeError
| ValueError
| ParserError
| TypeError
| HttpError.

#[global] Instance exn_eq_dec : EqDecision exn.
Proof. solve_decision. Defined.

Inductive result (A : Type) :=
| Ok (a : A)
| Raise (e : exn).
Arguments Ok {A} a.
Arguments Raise {A} e.

(** Truth value of a Python object, [bool(v)]. *)
Definition truthy (v : pyval) : bool :=
  match v with
  | PNone => false
  | PBool b => b
  | PStr s => negb (String.eqb s "")
  end.

(** [d.get(key)]: a missing key yields [None]. *)
Definition pyget (key : string) (d : record) : pyval :=
  match d !! key with
  | Some v => v
  | None => PNone
  end.

(** Truth value of [d.get(key)]. *)
Definition get_truthy (key : string) (d : record) : bool := truthy (pyget key d).

(** [d[key]] *)
Definition getitem (d : record) (key : string) : result pyval :=
  match d !! key with
  | Some v => Ok v
  | None => Raise KeyError
  end.

(** [v.startswith(p)]: only strings have the method. *)
Definition startswith (v : pyval) (p : string) : result bool :=
  match v with
  | PStr s => Ok (String.prefix p s)
  | _ => Raise AttributeError
  end.

(** A provisional identifier: a string that starts with the prefix
    (["temp_list_"] for lists, ["temp_"] for tasks). *)
Definition provisional (p : string) (r : record) : bool :=
  match r !! "id" with
  | Some (PStr s) => String.prefix p s
  | _ => false
  end.

(** A record waiting to be created remotely: provisional, not tombstoned. *)
Definition pending (p : string) (r : record) : bool :=
  negb (get_truthy "deleted" r) && provisional p r.

(** An identifier handed out by the server: a string that does not start
    with ["temp_"] (hence not with ["temp_list_"] either). *)
Definition has_remote_id (r : record) : bool :=
  match r !! "id" with
  | Some (PStr s) => negb (String.prefix "temp_" s)
  | _ => false
  end.

(* ===================================================================== *)
(** ** Insertion-ordered dictionaries *)
(* ===================================================================== *)

Abbreviation odict V := (list (pyval * V)).

Section odict.
Context {V : Type}.

(** [d.get(k)] *)
Fixpoint od_get (k : pyval) (d : odict V) : option V :=
  match d with
  | [] => None
  | (k', v) :: d' => if decide (k' = k) then Some v else od_get k d'
  end.

(** [d[k] = v]: an existing key keeps its position, a new one goes last. *)
Fixpoint od_set (k : pyval) (v : V) (d : odict V) : odict V :=
  match d with
  | [] => [(k, v)]
  | (k', v') :: d' =>
      if decide (k' = k) then (k, v) :: d' else (k', v') :: od_set k v d'
  end.

(** the dictionary left by [d.pop(k)] *)
Fixpoint od_pop (k : pyval) (d : odict V) : odict V :=
  match d with
  | [] => []
  | (k', v') :: d' =>
      if decide (k' = k) then od_pop k d' else (k', v') :: od_pop k d'
  end.

Definition od_keys (d : odict V) : list pyval := d.*1.
End odict.
Arguments od_keys : simpl never.

(* ===================================================================== *)
(** ** The snapshot, the store and the remote service *)
(* ===================================================================== *)

Record Snapshot := {
  task_lists : list record;
  tasks : odict (list record);
}.

Definition empty_snapshot : Snapshot := {| task_lists := []; tasks := [] |}.

(** The storage file [local_tasks.json]: [file = None] when it is missing
    or unparsable; [writable = false] when opening it for writing raises
    [IOError]. *)
Record Store := {
  file : option Snapshot;
  writable : bool;
}.

(** The calls of the Google Tasks client the program issues. *)
Inductive request :=
| TasklistsList
| TasksList (tasklist : pyval)
| TasklistsDelete (tasklist : pyval)
| TasklistsInsert (body : record)
| TasksDelete (tasklist task : pyval)
| TasksInsert (tasklist : pyval) (body : record)
| TasksGet (tasklist task : pyval)
| TasksUpdate (tasklist task : pyval) (body : record).

(** Observable effects, in the order they happen. *)
Inductive event :=
| EvRemote (r : request)
| EvSave (s : Snapshot).

(** The remote service: each call may fail and may change the server. *)
Class RemoteService (Srv : Type) := {
  tasklists_list : Srv -> result (list record) * Srv;
  tasks_list : pyval -> Srv -> result (list record) * Srv;
  tasklists_delete : pyval -> Srv -> result unit * Srv;
  tasklists_insert : record -> Srv -> result record * Srv;
  tasks_delete : pyval -> pyval -> Srv -> result unit * Srv;
  tasks_insert : pyval -> record -> Srv -> result record * Srv;
  tasks_get : pyval -> pyval -> Srv -> result record * Srv;
  tasks_update : pyval -> pyval -> record -> Srv -> result record * Srv;
}.

(** What the program uses of [dateutil.parser.isoparse]: the parser, the
    [isoformat] method of its results, and the attribute [ParserError] the
    exception handler of [change_date_task] looks up on the function object
    ([None] when the function has no such attribute, otherwise the test of
    membership in that exception class). *)
Class Dateutil := {
  datetime : Type;
  isoparse : string -> result datetime;
  isoformat : datetime -> string;
  isoparse_ParserError : option (exn -> bool);
}.

(** [self] together with the world it acts on. *)
Record State (Srv : Type) := {
  data : Snapshot;
  dirty : bool;
  active_list_id : pyval;
  service : Srv;
  storage : Store;
  trace : list event;
}.
Arguments data {Srv} _.
Arguments dirty {Srv} _.
Arguments active_list_id {Srv} _.
Arguments service {Srv} _.
Arguments storage {Srv} _.
Arguments trace {Srv} _.

(** What a public method hands back. *)
Inductive retval :=
| RNone
| RBool (b : bool)
| RRecord (r : record)
| RRecords (l : list record).

(* ===================================================================== *)
(** ** The durable store adapter ([local_storage.py]) *)
(* ===================================================================== *)

(** [load_data]: a missing or corrupt file reads as the empty snapshot. *)
Definition load_data (sto : Store) : Snapshot :=
  match file sto with
  | Some d => d
  | None => empty_snapshot
  end.

(** [save_data]: an [IOError] is swallowed and leaves the file as it was. *)
Definition save_data (d : Snapshot) (sto : Store) : Store :=
  if writable sto then {| file := Some d; writable := true |} else sto.

(* ===================================================================== *)
(** ** The cache engine ([tasks_tui/task_service.py]) *)
(* ===================================================================== *)

Declare Scope py_scope.
Delimit Scope py_scope with py.

Section Engine.
Context {Srv : Type} `{RemoteService Srv} `{Dateutil}.

(** A method body: it reads and updates the state and either returns or
    raises; what it did before raising stays done. *)
Definition M (A : Type) : Type := State Srv -> result A * State Srv.

Definition ret {A} (a : A) : M A := fun st => (Ok a, st).
Definition raise {A} (e : exn) : M A := fun st => (Raise e, st).
Definition lift {A} (r : result A) : M A := fun st => (r, st).

Definition bind {A B} (c : M A) (k : A -> M B) : M B :=
  fun st =>
    match c st with
    | (Ok a, st') => k a st'
    | (Raise e, st') => (Raise e, st')
    end.

(** [try: c except <h>] where [h] decides, per exception, what the
    handler does (evaluating the handler's class expression included). *)
Definition try_except {A} (c : M A) (h : exn -> M A) : M A :=
  fun st =>
    match c st with
    | (Ok a, st') => (Ok a, st')
    | (Raise e, st') => h e st'
    end.

(** [try: c except Exception: pass] *)
Definition try_pass (c : M unit) : M unit := try_except c (fun _ => ret tt).

Notation "x <- c ;; k" := (bind c (fun x => k))
  (at level 100, c at next level, right associativity) : py_scope.
Notation "c ;;; k" := (bind c (fun _ => k))
  (at level 100, right associativity) : py_scope.
Local Open Scope py_scope.

Definition gets {A} (f : State Srv -> A) : M A := fun st => (Ok (f st), st).

Definition with_data (f : Snapshot -> Snapshot) : M unit :=
  fun st =>
    (Ok tt, {| data := f (data st); dirty := dirty st;
               active_list_id := active_list_id st; service := service st;
               storage := storage st; trace := trace st |}).

Definition set_dirty (b : bool) : M unit :=
  fun st =>
    (Ok tt, {| data := data st; dirty := b;
               active_list_id := active_list_id st; service := service st;
               storage := storage st; trace := trace st |}).

Definition set_active (v : pyval) : M unit :=
  fun st =>
    (Ok tt, {| data := data st; dirty := dirty st;
               active_list_id := v; service := service st;
               storage := storage st; trace := trace st |}).

(** A remote call [....execute()]: it is logged and acts on the server. *)
Definition remote {A} (req : request) (f : Srv -> result A * Srv) : M A :=
  fun st =>
    let (r, srv') := f (service st) in
    (r, {| data := data st; dirty := dirty st;
           active_list_id := active_list_id st; service := srv';
           storage := storage st; trace := trace st ++ [EvRemote req] |}).

Definition set_task_lists (l : list record) (d : Snapshot) : Snapshot :=
  {| task_lists := l; tasks := tasks d |}.
Definition set_tasks (t : odict (list record)) (d : Snapshot) : Snapshot :=
  {| task_lists := task_lists d; tasks := t |}.

(** [save_local_data] *)
Definition save_local_data : M unit :=
  fun st =>
    (Ok tt, {| data := data st; dirty := false;
               active_list_id := active_list_id st; service := service st;
               storage := save_data (data st) (storage st);
               trace := trace st ++ [EvSave (data st)] |}).

(** [_get_default_task_list_id] *)
Definition _get_default_task_list_id : M pyval :=
  l <- gets (fun st => task_lists (data st));;
  match l with
  | first :: _ => lift (getitem first "id")
  | [] => ret PNone
  end.

(** The loop of [sync_from_google] over the fetched lists. *)
Fixpoint pull_tasks (ls : list record) : M unit :=
  match ls with
  | [] => ret tt
  | task_list :: rest =>
      list_id <- lift (getitem task_list "id");;
      ts <- remote (TasksList list_id) (tasks_list list_id);;
      with_data (fun d => set_tasks (od_set list_id ts (tasks d)) d);;;
      pull_tasks rest
  end.

(** [sync_from_google] *)
Definition sync_from_google : M unit :=
  ls <- remote TasklistsList tasklists_list;;
  with_data (set_task_lists ls);;;
  with_data (set_tasks []);;;
  pull_tasks ls;;;
  save_local_data.

(** [__init__], from the server and the storage file it finds (obtaining
    the credentials and building the client are taken to succeed). *)
Definition init (srv : Srv) (sto : Store) : result unit * State Srv :=
  (match task_lists (load_data sto) with
   | [] => sync_from_google
   | _ :: _ => ret tt
   end;;;
   v <- _get_default_task_list_id;;
   set_active v)
    {| data := load_data sto; dirty := false; active_list_id := PNone;
       service := srv; storage := sto; trace := [] |}.

(** [get_task_lists] *)
Definition get_task_lists : M retval :=
  l <- gets (fun st => task_lists (data st));;
  ret (RRecords (filter (fun lst => get_truthy "deleted" lst = false) l)).

(** [d['tasks'].get(list_id, [])] *)
Definition bucket_of (list_id : pyval) (d : Snapshot) : list record :=
  match od_get list_id (tasks d) with
  | Some b => b
  | None => []
  end.

(** [self.data['tasks'].get(list_id, [])] *)
Definition bucket (list_id : pyval) (st : State Srv) : list record :=
  bucket_of list_id (data st).

(** [get_tasks_for_list]; [list_id = PNone] is the default argument. *)
Definition get_tasks_for_list (list_id : pyval) : M retval :=
  active <- gets active_list_id;;
  let list_id := if truthy list_id then list_id else active in
  if negb (truthy list_id) then ret (RRecords [])
  else
    b <- gets (bucket list_id);;
    ret (RRecords (filter (fun task => get_truthy "deleted" task = false) b)).

(** The scan [for i, x in enumerate(l): if x['id'] == id: ...]: the first
    position whose record carries the identifier, [KeyError] when a
    record met before it has no ['id']. *)
Fixpoint find_by_id (id : pyval) (l : list record) (i : nat)
  : result (option (nat * record)) :=
  match l with
  | [] => Ok None
  | x :: rest =>
      match x !! "id" with
      | None => Raise KeyError
      | Some v =>
          if decide (v = id) then Ok (Some (i, x))
          else find_by_id id rest (S i)
      end
  end.

(** Assignment to a field of the [i]-th task of the bucket of [list_id]
    (the record is shared with the snapshot, so the snapshot changes). *)
Definition store_task (list_id : pyval) (i : nat) (task : record) : M unit :=
  b <- gets (bucket list_id);;
  with_data (fun d => set_tasks (od_set list_id (<[i := task]> b) (tasks d)) d).

Definition store_list (i : nat) (task_list : record) : M unit :=
  with_data (fun d => set_task_lists (<[i := task_list]> (task_lists d)) d).

(** The common shape of the task mutators: find the task, assign the
    field, mark dirty, return [result_of task]. *)
Definition update_task (list_id task_id : pyval)
    (change : record -> record) (result_of : record -> retval)
    (not_found : retval) : M retval :=
  b <- gets (bucket list_id);;
  found <- lift (find_by_id task_id b 0);;
  match found with
  | Some (i, task) =>
      store_task list_id i (change task);;;
      set_dirty true;;;
      ret (result_of (change task))
  | None => ret not_found
  end.

(** [{'title': title, 'id': temp_id, 'status': 'needsAction'}] with
    [temp_id = f'temp_{now}']. *)
Definition new_task (title : pyval) (now : Z) : record :=
  let temp_id := "temp_" +:+ pretty now in
  <["status" := PStr "needsAction"]>
    (<["id" := PStr temp_id]> (<["title" := title]> ∅)).

(** [add_task]; [now] is the value of [int(time.time())]. *)
Definition add_task (list_id title : pyval) (now : Z) : M retval :=
  if negb (truthy list_id) then ret RNone
  else
    let task : record := new_task title now in
    t <- gets (fun st => tasks (data st));;
    match od_get list_id t with
    | None => with_data (set_tasks (od_set list_id [] t))
    | Some _ => ret tt
    end;;;
    b <- gets (bucket list_id);;
    with_data (fun d => set_tasks (od_set list_id (b ++ [task]) (tasks d)) d);;;
    set_dirty true;;;
    ret (RRecord task).

Definition toggled (task : record) : record :=
  <["status" :=
      PStr (if decide (pyget "status" task = PStr "needsAction")
            then "completed" else "needsAction")]> task.

(** [toggle_task_status] *)
Definition toggle_task_status (list_id task_id : pyval) : M retval :=
  if negb (truthy list_id) then ret RNone
  else update_task list_id task_id toggled RRecord RNone.

(** [delete_task] *)
Definition delete_task (list_id task_id : pyval) : M retval :=
  if negb (truthy list_id) then ret RNone
  else
    update_task list_id task_id (<["deleted" := PBool true]>)
      (fun _ => RBool true) (RBool false).

(** [rename_task] *)
Definition rename_task (list_id task_id new_name : pyval) : M retval :=
  if negb (truthy list_id) then ret RNone
  else update_task list_id task_id (<["title" := new_name]>) RRecord RNone.

(** The handler [except (isoparse.ParserError, ValueError): return None]
    of [change_date_task]: the class tuple is evaluated when an exception
    reaches the handler, and the attribute lookup comes first. *)
Definition date_handler (e : exn) : M retval :=
  match isoparse_ParserError with
  | None => raise AttributeError
  | Some cls =>
      if cls e || bool_decide (e = ValueError) then ret RNone else raise e
  end.

(** [change_date_task] *)
Definition change_date_task (list_id task_id : pyval) (date_str : string)
  : M retval :=
  if negb (truthy list_id) then ret RNone
  else
    try_except
      (date_obj <- lift (isoparse date_str);;
       let due_date_rfc3339 := isoformat date_obj +:+ "Z" in
       update_task list_id task_id (<["due" := PStr due_date_rfc3339]>)
         RRecord RNone)
      date_handler.

(** [change_detail_task] *)
Definition change_detail_task (list_id task_id detail : pyval) : M retval :=
  if negb (truthy list_id) then ret RNone
  else update_task list_id task_id (<["notes" := detail]>) RRecord RNone.

(** [get_task] *)
Definition get_task (list_id task_id : pyval) : M retval :=
  if negb (truthy list_id) then ret RNone
  else
    b <- gets (bucket list_id);;
    found <- lift (find_by_id task_id b 0);;
    match found with
    | Some (_, task) => ret (RRecord task)
    | None => ret RNone
    end.

(** [set_active_list] *)
Definition set_active_list (list_id : pyval) : M retval :=
  set_active list_id;;; ret (RBool true).

(** [f'temp_list_{now}'] *)
Definition temp_list_id (now : Z) : pyval := PStr ("temp_list_" +:+ pretty now).

(** [{'title': list_name, 'id': temp_id}] *)
Definition new_list (list_name : pyval) (now : Z) : record :=
  <["id" := temp_list_id now]> (<["title" := list_name]> ∅).

(** [add_list]; [now] is the value of [int(time.time())]. *)
Definition add_list (list_name : pyval) (now : Z) : M retval :=
  let temp_id := temp_list_id now in
  let list_body : record := new_list list_name now in
  with_data (fun d => set_task_lists (task_lists d ++ [list_body]) d);;;
  with_data (fun d => set_tasks (od_set temp_id [] (tasks d)) d);;;
  set_dirty true;;;
  ret (RRecord list_body).

(** [delete_list] *)
Definition delete_list (list_id : pyval) : M retval :=
  l <- gets (fun st => task_lists (data st));;
  found <- lift (find_by_id list_id l 0);;
  match found with
  | Some (i, task_list) =>
      store_list i (<["deleted" := PBool true]> task_list);;;
      set_dirty true;;;
      ret (RBool true)
  | None => ret (RBool false)
  end.

(** [rename_list] *)
Definition rename_list (list_id new_title : pyval) : M retval :=
  if negb (truthy list_id) then ret RNone
  else
    l <- gets (fun st => task_lists (data st));;
    found <- lift (find_by_id list_id l 0);;
    match found with
    | None => ret RNone
    | Some (list_index, task_list) =>
        store_list list_index (<["title" := new_title]> task_list);;;
        set_dirty true;;;
        ret (RBool true)
    end.

(** *** [sync_to_google] *)

(** One round of the loop over [self.data['task_lists']]; the result is
    [new_list_id_map]. *)
Definition sync_list (i : nat) (task_list : record)
    (new_list_id_map : odict pyval) : M (odict pyval) :=
  if get_truthy "deleted" task_list then
    id <- lift (getitem task_list "id");;
    temp <- lift (startswith id "temp_list_");;
    (if negb temp
     then try_pass (remote (TasklistsDelete id) (tasklists_delete id))
     else ret tt);;;
    ret new_list_id_map
  else
    id <- lift (getitem task_list "id");;
    temp <- lift (startswith id "temp_list_");;
    if temp then
      let old_id := id in
      title <- lift (getitem task_list "title");;
      let new_list_body : record := <["title" := title]> ∅ in
      new_list <- remote (TasklistsInsert new_list_body)
                    (tasklists_insert new_list_body);;
      store_list i new_list;;;
      new_id <- lift (getitem new_list "id");;
      ret (od_set old_id new_id new_list_id_map)
    else ret new_list_id_map.

Fixpoint sync_lists (i : nat) (l : list record)
    (new_list_id_map : odict pyval) : M (odict pyval) :=
  match l with
  | [] => ret new_list_id_map
  | task_list :: rest =>
      m <- sync_list i task_list new_list_id_map;;
      sync_lists (S i) rest m
  end.

(** [if old_id in tasks: tasks[new_id] = tasks.pop(old_id)] *)
Definition rekey (t : odict (list record)) (entry : pyval * pyval)
  : odict (list record) :=
  match od_get entry.1 t with
  | Some b => od_set entry.2 b (od_pop entry.1 t)
  | None => t
  end.

Definition migrate_buckets (new_list_id_map : odict pyval) : M unit :=
  with_data (fun d => set_tasks (fold_left rekey new_list_id_map (tasks d)) d).

(** [tasks[i] = task] where [tasks] is the bucket at position [j] of the
    mapping being iterated. *)
Definition store_bucket_item (j i : nat) (task : record) : M unit :=
  with_data (fun d =>
    set_tasks (alter (fun kv => (kv.1, <[i := task]> kv.2)) j (tasks d)) d).

(** [if key in task: body[key] = task[key]] *)
Definition copy_field (key : string) (task body : record) : record :=
  match task !! key with
  | Some v => <[key := v]> body
  | None => body
  end.

(** The comparison that decides on a remote update. *)
Definition differs (google_task task : record) : bool :=
  bool_decide (pyget "title" google_task ≠ pyget "title" task)
  || bool_decide (pyget "status" google_task ≠ pyget "status" task)
  || bool_decide (pyget "due" google_task ≠ pyget "due" task)
  || bool_decide (pyget "notes" google_task ≠ pyget "notes" task).

(** One round of the loop over a bucket. *)
Definition sync_task (j : nat) (list_id : pyval) (i : nat) (task : record)
  : M unit :=
  if get_truthy "deleted" task then
    id <- lift (getitem task "id");;
    temp <- lift (startswith id "temp_");;
    if negb temp
    then try_pass (remote (TasksDelete list_id id) (tasks_delete list_id id))
    else ret tt
  else
    id <- lift (getitem task "id");;
    temp <- lift (startswith id "temp_");;
    if temp then
      title <- lift (getitem task "title");;
      let new_task_body : record :=
        copy_field "notes" task (copy_field "due" task (<["title" := title]> ∅)) in
      new_task <- remote (TasksInsert list_id new_task_body)
                    (tasks_insert list_id new_task_body);;
      store_bucket_item j i new_task
    else
      try_pass
        (google_task <- remote (TasksGet list_id id) (tasks_get list_id id);;
         if differs google_task task then
           updated_task <- remote (TasksUpdate list_id id task)
                             (tasks_update list_id id task);;
           store_bucket_item j i updated_task
         else ret tt).

Fixpoint sync_bucket (j : nat) (list_id : pyval) (i : nat)
    (ts : list record) : M unit :=
  match ts with
  | [] => ret tt
  | task :: rest =>
      sync_task j list_id i task;;;
      sync_bucket j list_id (S i) rest
  end.

(** The loop over [self.data['tasks'].items()]. *)
Fixpoint sync_buckets (j : nat) (items : odict (list record)) : M unit :=
  match items with
  | [] => ret tt
  | (list_id, ts) :: rest =>
      temp <- lift (startswith list_id "temp_list_");;
      (if temp then ret tt else sync_bucket j list_id 0 ts);;;
      sync_buckets (S j) rest
  end.

Definition sync_to_google : M unit :=
  d <- gets dirty;;
  if negb d then ret tt
  else
    l <- gets (fun st => task_lists (data st));;
    new_list_id_map <- sync_lists 0 l [];;
    migrate_buckets new_list_id_map;;;
    t <- gets (fun st => tasks (data st));;
    sync_buckets 0 t;;;
    save_local_data.

(** *** The mutating operations on the snapshot, as one family *)

Inductive cache_op :=
| AddTask (list_id title : pyval) (now : Z)
| ToggleTaskStatus (list_id task_id : pyval)
| RenameTask (list_id task_id new_name : pyval)
| DeleteTask (list_id task_id : pyval)
| ChangeDateTask (list_id task_id : pyval) (date_str : string)
| ChangeDetailTask (list_id task_id detail : pyval)
| AddList (list_name : pyval) (now : Z)
| RenameList (list_id new_title : pyval)
| DeleteList (list_id : pyval).

Definition run_op (op : cache_op) : M retval :=
  match op with
  | AddTask list_id title now => add_task list_id title now
  | ToggleTaskStatus list_id task_id => toggle_task_status list_id task_id
  | RenameTask list_id task_id new_name => rename_task list_id task_id new_name
  | DeleteTask list_id task_id => delete_task list_id task_id
  | ChangeDateTask list_id task_id date_str =>
      change_date_task list_id task_id date_str
  | ChangeDetailTask list_id task_id detail =>
      change_detail_task list_id task_id detail
  | AddList list_name now => add_list list_name now
  | RenameList list_id new_title => rename_list list_id new_title
  | DeleteList list_id => delete_list list_id
  end.
End Engine.

(* ===================================================================== *)
(** ** The mock service ([gtask_tui/task_service.py]) *)
(* ===================================================================== *)

Module Mock.
(** [s.replace(old, new)] for a non-empty [old]: the occurrences are
    found from the left and do not overlap; [skip] counts the characters
    of a matched occurrence still to be dropped. *)
Fixpoint replace_from (old new : string) (skip : nat) (s : string) : string :=
  match s with
  | EmptyString => EmptyString
  | String c s' =>
      match skip with
      | S n => replace_from old new n s'
      | O =>
          if String.prefix old s
          then new +:+ replace_from old new (String.length old - 1) s'
          else String c (replace_from old new 0 s')
      end
  end.

Definition replace (old new s : string) : string := replace_from old new 0 s.

(** The body of the loop of [toggle_task_status] once the task is found:
    the task as assigned so far, and whether an exception ended it. *)
Definition toggle (task : record) : result unit * record :=
  match task !! "status" with
  | None => (Raise KeyError, task)
  | Some status =>
      if decide (status = PStr "needsAction") then
        let task1 := <["status" := PStr "completed"]> task in
        match task1 !! "title" with
        | None => (Raise KeyError, task1)
        | Some (PStr title) =>
            (Ok tt, <["title" := PStr (title +:+ " (Completed)")]> task1)
        | Some _ => (Raise TypeError, task1)
        end
      else
        let task1 := <["status" := PStr "needsAction"]> task in
        match task1 !! "title" with
        | None => (Raise KeyError, task1)
        | Some (PStr title) =>
            (Ok tt, <["title" := PStr (replace " (Completed)" "" title)]> task1)
        | Some _ => (Raise AttributeError, task1)
        end
  end.

(** [for task in MOCK_TASKS[list_id]: if task["id"] == task_id: ...] *)
Fixpoint toggle_in (task_id : pyval) (ts : list record)
  : result retval * list record :=
  match ts with
  | [] => (Ok RNone, [])
  | task :: rest =>
      match task !! "id" with
      | None => (Raise KeyError, ts)
      | Some v =>
          if decide (v = task_id) then
            match toggle task with
            | (Ok _, task') => (Ok (RRecord task'), task' :: rest)
            | (Raise e, task') => (Raise e, task' :: rest)
            end
          else
            let (r, rest') := toggle_in task_id rest in (r, task :: rest')
      end
  end.

(** [toggle_task_status], on the module-level [MOCK_TASKS]. *)
Definition toggle_task_status (list_id task_id : pyval)
    (MOCK_TASKS : odict (list record))
  : result retval * odict (list record) :=
  match od_get list_id MOCK_TASKS with
  | None => (Raise KeyError, MOCK_TASKS)
  | Some ts =>
      let (r, ts') := toggle_in task_id ts in
      (r, od_set list_id ts' MOCK_TASKS)
  end.

(** [{"id": str(uuid.uuid4()), "title": title, "status": "needsAction"}];
    [uuid] is the string drawn. *)
Definition new_task (uuid : string) (title : pyval) : record :=
  <["status" := PStr "needsAction"]>
    (<["title" := title]> (<["id" := PStr uuid]> ∅)).

(** [add_task]: [MOCK_TASKS[list_id].append(new_task)]. *)
Definition add_task (list_id title : pyval) (uuid : string)
    (MOCK_TASKS : odict (list record))
  : result retval * odict (list record) :=
  match od_get list_id MOCK_TASKS with
  | None => (Raise KeyError, MOCK_TASKS)
  | Some ts =>
      (Ok (RRecord (new_task uuid title)),
       od_set list_id (ts ++ [new_task uuid title]) MOCK_TASKS)
  end.

(** [get_tasks_for_list], with [self.active_list_id]. *)
Definition get_tasks_for_list (list_id active_list_id : pyval)
    (MOCK_TASKS : odict (list record)) : list record :=
  let list_id := if truthy list_id then list_id else active_list_id in
  match od_get list_id MOCK_TASKS with
  | Some ts => ts
  | None => []
  end.

(** [set_active_list]: the answer and the new [self.active_list_id]. *)
Definition set_active_list (list_id active_list_id : pyval)
    (MOCK_TASKS : odict (list record)) : bool * pyval :=
  match od_get list_id MOCK_TASKS with
  | Some _ => (true, list_id)
  | None => (false, active_list_id)
  end.
End Mock.

(* ===================================================================== *)
(** ** A reference server, parser and snapshots for concrete runs *)
(* ===================================================================== *)

(** A server that numbers what it creates and is either reachable or not:
    unreachable, every call raises. *)
Record Server := {
  next_id : N;
  online : bool;
}.

Definition served {A} (a : A) (srv : Server) : result A * Server :=
  if online srv then (Ok a, srv) else (Raise HttpError, srv).

Definition created (body : record) (srv : Server) : result record * Server :=
  if online srv
  then (Ok (<["id" := PStr ("srv_" +:+ pretty (next_id srv))]> body),
        {| next_id := N.succ (next_id srv); online := true |})
  else (Raise HttpError, srv).

#[global] Instance server_service : RemoteService Server := {
  tasklists_list := served [];
  tasks_list _ := served [];
  tasklists_delete _ := served tt;
  tasklists_insert body := created body;
  tasks_delete _ _ := served tt;
  tasks_insert _ body := created (<["status" := PStr "needsAction"]> body);
  tasks_get _ task := served (<["id" := task]> ∅);
  tasks_update _ _ body := served body;
}.

(** A server that is always reachable: it numbers what it creates, and
    knows no task under a provisional identifier. *)
Record Cloud := { issued : N }.

Definition cloud_created (body : record) (c : Cloud) : result record * Cloud :=
  (Ok (<["id" := PStr ("srv_" +:+ pretty (issued c))]> body),
   {| issued := N.succ (issued c) |}).

#[global] Instance cloud_service : RemoteService Cloud := {
  tasklists_list c := (Ok [], c);
  tasks_list _ c := (Ok [], c);
  tasklists_delete _ c := (Ok tt, c);
  tasklists_insert body := cloud_created body;
  tasks_delete _ _ c := (Ok tt, c);
  tasks_insert _ body := cloud_created (<["status" := PStr "needsAction"]> body);
  tasks_get _ task c := (Ok (<["id" := task]> ∅), c);
  tasks_update _ _ body c :=
    if has_remote_id body then (Ok body, c) else (Raise HttpError, c);
}.

(** A parser that accepts the dates of this century written in full and
    whose function object has no attribute [ParserError], as is the case
    of [dateutil.parser.isoparse] (a bound method of the default
    [isoparser]; the class lives in the module [dateutil.parser]). *)
#[global] Instance dateutil_isoparse : Dateutil := {
  datetime := string;
  isoparse s :=
    if String.prefix "20" s && (String.length s =? 10)%nat
    then Ok (s +:+ "T00:00:00") else Raise ValueError;
  isoformat d := d;
  isoparse_ParserError := None;
}.

(** The same parser in an environment where the lookup
    [isoparse.ParserError] would succeed. *)
Definition dateutil_with_attribute : Dateutil := {|
  datetime := string;
  isoparse s :=
    if String.prefix "20" s && (String.length s =? 10)%nat
    then Ok (s +:+ "T00:00:00") else Raise ValueError;
  isoformat d := d;
  isoparse_ParserError := Some (fun e => bool_decide (e = ParserError));
|}.

Definition mk_record (fields : list (string * pyval)) : record :=
  list_to_map fields.

(** One synced list with two tasks, nothing pending. *)
Definition clean_on {Srv} (srv : Srv) : State Srv := {|
  data := {|
    task_lists := [mk_record [("id", PStr "L1"); ("title", PStr "My Tasks")]];
    tasks := [(PStr "L1",
               [mk_record [("id", PStr "t1"); ("title", PStr "Buy groceries");
                           ("status", PStr "needsAction")];
                mk_record [("id", PStr "t2"); ("title", PStr "Pay bills");
                           ("status", PStr "completed")]])] |};
  dirty := false;
  active_list_id := PStr "L1";
  service := srv;
  storage := {| file := None; writable := true |};
  trace := [];
|}.

Definition clean_state (up : bool) : State Server :=
  clean_on {| next_id := 7; online := up |}.

(** The state after [m], whatever [m] returned. *)
Definition after {Srv A} (m : State Srv -> result A * State Srv)
    (st : State Srv) : State Srv := (m st).2.

(** add list "Work", add task "Ship" to it. *)
Definition with_work_ship {Srv} (st : State Srv) : State Srv :=
  after (add_task (PStr "temp_list_1") (PStr "Ship") 1)
    (after (add_list (PStr "Work") 1) st).

(** ... then add a task "Drop" and delete it again before any sync. *)
Definition with_work_ship_drop {Srv} (st : State Srv) : State Srv :=
  after (delete_task (PStr "temp_list_1") (PStr "temp_2"))
    (after (add_task (PStr "temp_list_1") (PStr "Drop") 2) (with_work_ship st)).

Definition work_ship (up : bool) : State Server := with_work_ship (clean_state up).

Definition work_ship_drop (up : bool) : State Server :=
  with_work_ship_drop (clean_state up).

Definition cloud_work_ship_drop : State Cloud :=
  with_work_ship_drop (clean_on {| issued := 7 |}).

(** The module-level [MOCK_TASKS] of the mock service (with fixed ids). *)
Definition MOCK_TASKS : odict (list record) :=
  [(PStr "list1",
    [mk_record [("id", PStr "u1"); ("title", PStr "Buy groceries");
                ("status", PStr "needsAction")];
     mk_record [("id", PStr "u2"); ("title", PStr "Pay bills (Completed)");
                ("status", PStr "completed")]]);
   (PStr "list2",
    [mk_record [("id", PStr "u3"); ("title", PStr "Review Q3 report");
                ("status", PStr "needsAction")];
     mk_record [("id", PStr "u4"); ("title", PStr "Schedule team meeting");
                ("status", PStr "needsAction")]])].

(* ===================================================================== *)
(** ** Vocabulary of the properties *)
(* ===================================================================== *)

(** [x], at position [i], is the first record of [l] whose ['id'] is [id],
    and every record before it has an ['id']. *)
Definition first_with_id (id : pyval) (l : list record) (i : nat) (x : record)
  : Prop :=
  l !! i = Some x /\ x !! "id" = Some id /\
  Forall (fun y => is_Some (y !! "id") /\ y !! "id" ≠ Some id) (take i l).

(** [r'] is the record [r] with some fields assigned: the identifier is
    the same and no field is lost. *)
Definition kept (r r' : record) : Prop :=
  r' !! "id" = r !! "id" /\ forall key, is_Some (r !! key) -> is_Some (r' !! key).

(** Every record of [l] is still in [l'], at its position. *)
Definition all_kept (l l' : list record) : Prop :=
  forall i r, l !! i = Some r -> exists r', l' !! i = Some r' /\ kept r r'.

(** No record of the snapshot [d] has been removed in [d']. *)
Definition retains (d d' : Snapshot) : Prop :=
  all_kept (task_lists d) (task_lists d') /\
  forall k b, od_get k (tasks d) = Some b ->
    exists b', od_get k (tasks d') = Some b' /\ all_kept b b'.

Section transitions.
Context {Srv : Type}.
Implicit Types st : State Srv.

(** The states the mutating operations lead to: a task assigned in
    place, a task appended, a list assigned in place, a list appended
    with its empty bucket. All of them set [dirty] and touch neither the
    server, nor the storage file, nor the trace. *)
Definition with_snapshot (d : Snapshot) st : State Srv :=
  {| data := d; dirty := true; active_list_id := active_list_id st;
     service := service st; storage := storage st; trace := trace st |}.

Definition put_task (list_id : pyval) (i : nat) (task : record) st :=
  with_snapshot
    (set_tasks (od_set list_id (<[i := task]> (bucket list_id st))
                  (tasks (data st))) (data st)) st.

Definition push_task (list_id : pyval) (task : record) st :=
  with_snapshot
    (set_tasks (od_set list_id (bucket list_id st ++ [task])
                  (tasks (data st))) (data st)) st.

Definition put_list (i : nat) (task_list : record) st :=
  with_snapshot
    (set_task_lists (<[i := task_list]> (task_lists (data st))) (data st)) st.

Definition push_list (id : pyval) (task_list : record) st :=
  with_snapshot
    {| task_lists := task_lists (data st) ++ [task_list];
       tasks := od_set id [] (tasks (data st)) |} st.

(** What an operation other than [add_task] and [add_list] can do to the
    state. *)
Inductive mutation st : State Srv -> Prop :=
| mutation_none : mutation st st
| mutation_task list_id i task task' :
    bucket list_id st !! i = Some task -> kept task task' ->
    mutation st (put_task list_id i task' st)
| mutation_list i task_list task_list' :
    task_lists (data st) !! i = Some task_list -> kept task_list task_list' ->
    mutation st (put_list i task_list' st).

(** The snapshot has been saved, and that was the last thing done. *)
Definition persisted_last st st' : Prop :=
  exists evs, trace st' = trace st ++ evs ++ [EvSave (data st')].
End transitions.

Section sync_relations.
Context {Srv : Type} `{RemoteService Srv}.
Implicit Types (st : State Srv) (r : record).

Definition is_remote (e : event) : Prop :=
  match e with
  | EvRemote _ => True
  | EvSave _ => False
  end.

(** From [st] to [st'] nothing was saved and [dirty] was not assigned: the
    trace grew by remote calls only. *)
Definition quiet st st' : Prop :=
  dirty st' = dirty st /\ storage st' = storage st /\
  active_list_id st' = active_list_id st /\
  exists evs, trace st' = trace st ++ evs /\ Forall is_remote evs.

(** How one round of the first loop of [sync_to_google] relates a list
    record and [new_list_id_map] before and after. *)
Inductive list_synced r (m : odict pyval) : record -> odict pyval -> Prop :=
| list_untouched :
    pending "temp_list_" r = false -> list_synced r m r m
| list_created old_id new_id new_list body srv :
    pending "temp_list_" r = true ->
    r !! "id" = Some old_id ->
    (tasklists_insert body srv).1 = Ok new_list ->
    new_list !! "id" = Some new_id ->
    list_synced r m new_list (od_set old_id new_id m).

Inductive lists_synced : list record -> odict pyval ->
                         list record -> odict pyval -> Prop :=
| lists_synced_nil m : lists_synced [] m [] m
| lists_synced_cons r l m r' m1 l' m' :
    list_synced r m r' m1 -> lists_synced l m1 l' m' ->
    lists_synced (r :: l) m (r' :: l') m'.

(** How one round of the loop over a bucket relates a task before and
    after. *)
Inductive task_synced (list_id : pyval) r : record -> Prop :=
| task_untouched :
    pending "temp_" r = false -> task_synced list_id r r
| task_created new_task body srv :
    pending "temp_" r = true ->
    (tasks_insert list_id body srv).1 = Ok new_task ->
    task_synced list_id r new_task
| task_updated updated_task id srv :
    pending "temp_" r = false ->
    get_truthy "deleted" r = false ->
    (tasks_update list_id id r srv).1 = Ok updated_task ->
    task_synced list_id r updated_task.

(** How the last loop relates an item of the [tasks] mapping before and
    after: buckets under a provisional list identifier are skipped. *)
Definition bucket_synced (kb kb' : pyval * list record) : Prop :=
  kb'.1 = kb.1 /\
  ((startswith kb.1 "temp_list_" = Ok true /\ kb'.2 = kb.2) \/
   (startswith kb.1 "temp_list_" = Ok false /\
    Forall2 (task_synced kb.1) kb.2 kb'.2)).

(** The server creates what it is asked to create, and the records it
    returns for the lists and tasks it creates or updates carry
    identifiers of its own. Deleting, fetching and updating may fail. *)
Definition assigns_remote_ids : Prop :=
  (forall body srv,
      exists new_list srv',
        tasklists_insert body srv = (Ok new_list, srv') /\
        has_remote_id new_list = true) /\
  (forall list_id body srv,
      exists new_task srv',
        tasks_insert list_id body srv = (Ok new_task, srv') /\
        has_remote_id new_task = true) /\
  (forall list_id id body srv updated_task,
      (tasks_update list_id id body srv).1 = Ok updated_task ->
      has_remote_id updated_task = true).

(** A computation that never saves nor assigns [dirty]. *)
Definition Quiet {A} (c : M A) : Prop := forall st, quiet st (c st).2.

(** The three loops of [sync_to_google], before [save_local_data]. *)
Definition sync_passes : M unit :=
  bind (gets (fun st => task_lists (data st))) (fun l =>
  bind (sync_lists 0 l []) (fun new_list_id_map =>
  bind (migrate_buckets new_list_id_map) (fun _ =>
  bind (gets (fun st => tasks (data st))) (fun t =>
  sync_buckets 0 t)))).

(** [k] is the identifier of a list of [l]. *)
Definition has_list (l : list record) (k : pyval) : Prop :=
  Exists (fun r => r !! "id" = Some k) l.

(** A record the sync pass can process: its identifier is a string, and it
    has a title if it is waiting to be created. *)
Definition wf_record (p : string) r : bool :=
  match r !! "id" with
  | Some (PStr _) => negb (pending p r) || bool_decide (is_Some (r !! "title"))
  | _ => false
  end.

Definition wf_bucket (kb : pyval * list record) : bool :=
  match kb.1 with
  | PStr _ => forallb (wf_record "temp_") kb.2
  | _ => false
  end.

Definition wf_snapshot (d : Snapshot) : bool :=
  forallb (wf_record "temp_list_") (task_lists d) && forallb wf_bucket (tasks d).

(** What a sync pass makes of a task in a bucket it processes: a task
    waiting to be created now is a server record, a tombstone is left as
    it is, and no task is waiting any more. *)
Definition task_migrated (task task' : record) : Prop :=
  (pending "temp_" task = true -> has_remote_id task' = true) /\
  (get_truthy "deleted" task = true -> task' = task) /\
  pending "temp_" task' = false.
End sync_relations.

(** Every key of the [tasks] mapping is the identifier of a list. *)
Definition referential_integrity (d : Snapshot) : Prop :=
  Forall (fun k => Exists (fun r : record => r !! "id" = Some k) (task_lists d))
    (od_keys (tasks d)).

(** [list_id] is the key of a bucket or the identifier of a list. *)
Definition known_list (list_id : pyval) (d : Snapshot) : Prop :=
  list_id ∈ od_keys (tasks d) \/
  Exists (fun r : record => r !! "id" = Some list_id) (task_lists d).

#[global] Instance referential_integrity_dec d :
  Decision (referential_integrity d).
Proof. unfold referential_integrity. apply _. Defined.

#[global] Instance known_list_dec list_id d : Decision (known_list list_id d).
Proof. unfold known_list. apply _. Defined.

(** No record of [l] carries the identifier [id], and all carry one. *)
Definition absent (id : pyval) (l : list record) : Prop :=
  Forall (fun y => is_Some (y !! "id") /\ y !! "id" ≠ Some id) l.

(** The scan of [l] for [id] meets a record without ['id'] before any
    record that carries [id]. *)
Definition blocked (id : pyval) (l : list record) : Prop :=
  exists pre bad rest,
    l = pre ++ bad :: rest /\ absent id pre /\ bad !! "id" = None.

(** The records a bulk read returns: those without a set [deleted]. *)
Definition visible (l : list record) : list record :=
  filter (fun r => get_truthy "deleted" r = false) l.

(** [needle] occurs nowhere in [s +:+ needle] from a position inside [s]. *)
Fixpoint free_of (needle s : string) : bool :=
  match s with
  | EmptyString => true
  | String c s' =>
      negb (String.prefix needle (s +:+ needle)) && free_of needle s'
  end.

(** The body [sync_to_google] sends to create a task. *)
Definition new_task_body (title : pyval) (task : record) : record :=
  copy_field "notes" task (copy_field "due" task (<["title" := title]> ∅)).

(** An account that can only be read: it lists what it holds and refuses
    every change. *)
Record Account := { held : Snapshot }.

#[global] Instance account_service : RemoteService Account := {
  tasklists_list a := (Ok (task_lists (held a)), a);
  tasks_list list_id a := (Ok (bucket_of list_id (held a)), a);
  tasklists_delete _ a := (Raise HttpError, a);
  tasklists_insert _ a := (Raise HttpError, a);
  tasks_delete _ _ a := (Raise HttpError, a);
  tasks_insert _ _ a := (Raise HttpError, a);
  tasks_get _ _ a := (Raise HttpError, a);
  tasks_update _ _ _ a := (Raise HttpError, a);
}.

Definition account : Account := {| held := data (clean_on tt) |}.

(** The state [sync_from_google] starts its loop in: the lists fetched,
    no bucket. *)
Definition fetched {Srv} (ls : list record) (srv' : Srv) (st : State Srv)
  : State Srv := {|
  data := {| task_lists := ls; tasks := [] |};
  dirty := dirty st;
  active_list_id := active_list_id st;
  service := srv';
  storage := storage st;
  trace := trace st ++ [EvRemote TasklistsList];
|}.

(** [self] as [__init__] has it before it looks at the lists loaded. *)
Definition fresh {Srv} (srv : Srv) (sto : Store) : State Srv := {|
  data := load_data sto;
  dirty := false;
  active_list_id := PNone;
  service := srv;
  storage := sto;
  trace := [];
|}.

Definition activated {Srv} (v : pyval) (st : State Srv) : State Srv := {|
  data := data st;
  dirty := dirty st;
  active_list_id := v;
  service := service st;
  storage := storage st;
  trace := trace st;
|}.

(** The same state over a storage file that cannot be written. *)
Definition read_only {Srv} (st : State Srv) : State Srv := {|
  data := data st;
  dirty := dirty st;
  active_list_id := active_list_id st;
  service := service st;
  storage := {| file := file (storage st); writable := false |};
  trace := trace st;
|}.

Definition no_file : Store := {| file := None; writable := true |}.

(** A record the sync pass has nothing to create for: its identifier is a
    string and it is not waiting to be created. *)
Definition settled_record (p : string) (r : record) : bool :=
  match r !! "id" with
  | Some (PStr _) => negb (pending p r)
  | _ => false
  end.

Definition settled_bucket (kb : pyval * list record) : bool :=
  match kb.1 with
  | PStr _ => forallb (settled_record "temp_") kb.2
  | _ => false
  end.

Definition settled (d : Snapshot) : bool :=
  forallb (settled_record "temp_list_") (task_lists d) &&
  forallb settled_bucket (tasks d).

(** The calls on the lists and the calls on the tasks that a sync pass
    can issue. *)
Definition list_call (e : event) : Prop :=
  match e with
  | EvRemote (TasklistsDelete _) | EvRemote (TasklistsInsert _) => True
  | _ => False
  end.

Definition task_call (e : event) : Prop :=
  match e with
  | EvRemote (TasksDelete _ _) | EvRemote (TasksInsert _ _)
  | EvRemote (TasksGet _ _) | EvRemote (TasksUpdate _ _ _) => True
  | _ => False
  end.

(** A computation whose observable effects all satisfy [P]. *)
Definition Emits {Srv A} (P : event -> Prop)
    (c : State Srv -> result A * State Srv) : Prop :=
  forall st, exists evs, trace (c st).2 = trace st ++ evs /\ Forall P evs.

(** What [json.dump] writes for a key of the [tasks] mapping: a string
    is written as it is, [True], [False] and [None] as the strings
    "true", "false" and "null". *)
Definition json_key (k : pyval) : pyval :=
  match k with
  | PStr s => PStr s
  | PBool true => PStr "true"
  | PBool false => PStr "false"
  | PNone => PStr "null"
  end.

(** The snapshot [json.load] reads back from what [json.dump] wrote of
    [d]: the records and their order are kept, the buckets come under the
    keys as written, and of two buckets written under one key the later
    one is kept, at the place of the earlier. *)
Definition json_reload (d : Snapshot) : Snapshot := {|
  task_lists := task_lists d;
  tasks := fold_left (fun t kb => od_set (json_key kb.1) kb.2 t) (tasks d) [];
|}.

(** The keys of the [tasks] mapping are strings, each once. *)
Definition string_keys (d : Snapshot) : bool :=
  forallb (fun kb : pyval * list record =>
             match kb.1 with PStr _ => true | _ => false end) (tasks d)
  && bool_decide (NoDup (od_keys (tasks d))).

#[global] Instance absent_dec id l : Decision (absent id l).
Proof. unfold absent. apply _. Defined.

(** [clean_on], with a record that has no ['id'] between its two tasks. *)
Definition stray : record := mk_record [("title", PStr "No identifier")].

Definition with_stray {Srv} (st : State Srv) : State Srv := {|
  data := {|
    task_lists := task_lists (data st);
    tasks := [(PStr "L1",
               [mk_record [("id", PStr "t1"); ("title", PStr "Buy groceries");
                           ("status", PStr "needsAction")];
                stray;
                mk_record [("id", PStr "t2"); ("title", PStr "Pay bills");
                           ("status", PStr "completed")]])] |};
  dirty := dirty st;
  active_list_id := active_list_id st;
  service := service st;
  storage := storage st;
  trace := trace st;
|}.

(* ===================================================================== *)
(** * Properties *)
(* ===================================================================== *)

(** ** Ordered dictionaries *)

Section odict_facts.
Context {V : Type}.
Implicit Types (d : odict V) (k : pyval) (v : V).

Lemma od_get_set_eq k v d : od_get k (od_set k v d) = Some v.
Proof.
  induction d as [|[k' v'] d IH]; simpl.
  - by rewrite decide_True.
  - destruct (decide (k' = k)); simpl.
    + by rewrite decide_True.
    + by rewrite decide_False.
Qed.

Lemma od_get_set_ne k k' v d : k ≠ k' -> od_get k' (od_set k v d) = od_get k' d.
Proof.
  intros Hne. induction d as [|[k0 v0] d IH]; simpl.
  - by rewrite decide_False.
  - destruct (decide (k0 = k)) as [->|]; simpl.
    + by rewrite !decide_False.
    + destruct (decide (k0 = k')); auto.
Qed.

Lemma od_get_pop_eq k d : od_get k (od_pop k d) = None.
Proof.
  induction d as [|[k' v'] d IH]; simpl; [done|].
  destruct (decide (k' = k)); simpl; [done|]. by rewrite decide_False.
Qed.

Lemma od_get_pop_ne k k' d : k ≠ k' -> od_get k' (od_pop k d) = od_get k' d.
Proof.
  intros Hne. induction d as [|[k0 v0] d IH]; simpl; [done|].
  destruct (decide (k0 = k)) as [->|]; simpl.
  - by rewrite decide_False.
  - destruct (decide (k0 = k')); auto.
Qed.

Lemma od_get_Some_keys k v d : od_get k d = Some v -> k ∈ od_keys d.
Proof.
  unfold od_keys. induction d as [|[k' v'] d IH]; simpl; [done|].
  destruct (decide (k' = k)) as [->|]; intros Hg.
  - apply list_elem_of_here.
  - apply list_elem_of_further. auto.
Qed.

Lemma od_keys_get k d : k ∈ od_keys d -> is_Some (od_get k d).
Proof.
  unfold od_keys. induction d as [|[k' v'] d IH]; simpl.
  - intros Hin. by apply elem_of_nil in Hin.
  - intros Hin. destruct (decide (k' = k)); [by eexists|].
    apply elem_of_cons in Hin as [->|Hin]; [done|auto].
Qed.

Lemma od_keys_set k' k v d : k' ∈ od_keys (od_set k v d) <-> k' = k \/ k' ∈ od_keys d.
Proof.
  unfold od_keys. induction d as [|[k0 v0] d IH]; simpl.
  - rewrite elem_of_cons, elem_of_nil. tauto.
  - destruct (decide (k0 = k)) as [->|]; simpl.
    + rewrite !elem_of_cons. tauto.
    + rewrite !elem_of_cons, IH. tauto.
Qed.

Lemma od_keys_pop k' k d : k' ∈ od_keys (od_pop k d) <-> k' ≠ k /\ k' ∈ od_keys d.
Proof.
  unfold od_keys. induction d as [|[k0 v0] d IH]; simpl.
  - rewrite elem_of_nil. tauto.
  - destruct (decide (k0 = k)) as [->|]; simpl.
    + rewrite IH, elem_of_cons. intuition congruence.
    + rewrite !elem_of_cons, IH. intuition congruence.
Qed.
End odict_facts.

(** ** The scan for an identifier *)

Section Properties.
Context {Srv : Type} `{RemoteService Srv} `{Dateutil}.
Implicit Types (st : State Srv) (list_id task_id : pyval) (l : list record).

Lemma find_by_id_first id l i x n :
  first_with_id id l i x -> find_by_id id l n = Ok (Some (n + i, x)).
Proof.
  revert i n. induction l as [|y l IH]; intros i n (Hl & Hid & Hbefore).
  - done.
  - destruct i as [|i]; simpl in *.
    + injection Hl as ->. rewrite Hid, decide_True by done.
      by rewrite Nat.add_0_r.
    + apply Forall_cons in Hbefore as [[[v Hv] Hne] Hbefore].
      rewrite Hv. rewrite decide_False by congruence.
      rewrite (IH i (S n)) by done. do 3 f_equal. lia.
Qed.

Lemma find_by_id_found id l n k x :
  find_by_id id l n = Ok (Some (k, x)) ->
  exists i, k = n + i /\ first_with_id id l i x.
Proof.
  revert n. induction l as [|y l IH]; intros n; simpl; [done|].
  destruct (y !! "id") as [v|] eqn:Hv; [|done].
  destruct (decide (v = id)) as [->|Hne].
  - intros [= <- <-]. exists 0. split; [lia|].
    split; [done|]. split; [done|]. constructor.
  - intros Hf. apply IH in Hf as (i & -> & Hl & Hid & Hbefore).
    exists (S i). split; [lia|].
    split; [done|]. split; [done|]. simpl.
    constructor; [|done]. split; [by eexists|congruence].
Qed.

Lemma find_by_id_none id l n :
  find_by_id id l n = Ok None -> Forall (fun y => y !! "id" ≠ Some id) l.
Proof.
  revert n. induction l as [|y l IH]; intros n; simpl; [constructor|].
  destruct (y !! "id") as [v|] eqn:Hv; [|done].
  destruct (decide (v = id)); [done|].
  intros Hf. constructor; [congruence|eauto].
Qed.

Lemma find_by_id_absent id l n : absent id l -> find_by_id id l n = Ok None.
Proof.
  revert n. induction l as [|y l IH]; intros n Habs; simpl; [done|].
  apply Forall_cons in Habs as [[[v Hv] Hne] Habs].
  rewrite Hv, decide_False by congruence. by apply IH.
Qed.

(** The scan only reads the identifiers. *)
Lemma find_by_id_insert id l i x x' n :
  first_with_id id l i x -> x' !! "id" = Some id ->
  find_by_id id (<[i := x']> l) n = Ok (Some (n + i, x')).
Proof.
  intros (Hl & Hid & Hbefore) Hid'. apply find_by_id_first.
  assert (i < length l) by (by eapply lookup_lt_Some).
  repeat split; auto.
  - by apply list_lookup_insert_eq.
  - by rewrite take_insert_ge.
Qed.

(** ** The monad *)

Lemma bind_ok {A B} (c : M A) (k : A -> M B) st b st' :
  bind c k st = (Ok b, st') ->
  exists a st0, c st = (Ok a, st0) /\ k a st0 = (Ok b, st').
Proof.
  unfold bind. destruct (c st) as [[a|e] st0]; [eauto|done].
Qed.

(** ** Idempotent sync *)

Lemma sync_ok_clean st st' :
  sync_to_google st = (Ok tt, st') -> dirty st' = false.
Proof.
  unfold sync_to_google, bind, gets. destruct (dirty st) eqn:Hd; simpl.
  - destruct (sync_lists 0 _ [] st) as [[m|e] s1]; [|done].
    unfold migrate_buckets, with_data.
    destruct (sync_buckets 0 _ _) as [[[]|e] s2]; [|done].
    unfold save_local_data. by intros [= <-].
  - by intros [= <-].
Qed.

(** C5. A sync that follows a completed sync with nothing in between is a
    no-op: [dirty] is false after the first, so the second returns at once
    and leaves the whole state as it is: the snapshot, and also the
    server, the storage file and the trace of remote calls and saves (no
    remote create is issued again). *)
Theorem sync_twice_is_noop st st1 :
  sync_to_google st = (Ok tt, st1) ->
  dirty st1 = false /\ sync_to_google st1 = (Ok tt, st1).
Proof.
  intros Hsync. apply sync_ok_clean in Hsync as Hd. split; [done|].
  unfold sync_to_google, bind, gets. by rewrite Hd.
Qed.

(** ** The due-date parser and its handler *)

(** C4. With a parser whose function object has no attribute
    [ParserError] (the case of [dateutil]), an unparsable date does not
    make [change_date_task] return [None]: the handler's class tuple
    cannot be evaluated, and [AttributeError] leaves the method. The
    snapshot is not touched. *)
Theorem change_date_unparsable_raises list_id task_id date_str e st :
  truthy list_id = true ->
  isoparse date_str = Raise e ->
  isoparse_ParserError = None ->
  change_date_task list_id task_id date_str st = (Raise AttributeError, st).
Proof.
  intros Hl Hparse Hattr.
  unfold change_date_task, try_except, bind, lift, date_handler, raise.
  by rewrite Hl, Hparse, Hattr.
Qed.

(** Had the attribute been there, the handler would have returned [None]. *)
Lemma change_date_unparsable_handled list_id task_id date_str cls st :
  isoparse date_str = Raise ValueError ->
  isoparse_ParserError = Some cls ->
  change_date_task list_id task_id date_str st = (Ok RNone, st).
Proof.
  intros Hparse Hattr.
  unfold change_date_task, try_except, bind, lift, date_handler, ret.
  destruct (truthy list_id); simpl; [|done].
  rewrite Hparse, Hattr. by rewrite orb_true_r.
Qed.
End Properties.

Lemma sync_twice_is_noop_witness :
  let st1 := after sync_to_google (work_ship true) in
  dirty st1 = false /\ sync_to_google st1 = (Ok tt, st1).
Proof.
  apply (sync_twice_is_noop (work_ship true)). vm_compute. reflexivity.
Defined.

(** With the attribute in place the same call returns [None]. *)
Lemma change_date_with_attribute_returns_none :
  change_date_task (H0 := dateutil_with_attribute)
    (PStr "L1") (PStr "t1") "not-a-date" (clean_state true)
  = (Ok RNone, clean_state true).
Proof.
  by apply (change_date_unparsable_handled (H0 := dateutil_with_attribute)
              _ _ _ (fun e => bool_decide (e = ParserError))).
Qed.

Lemma change_date_unparsable_raises_witness :
  change_date_task (PStr "L1") (PStr "t1") "not-a-date" (clean_state true)
  = (Raise AttributeError, clean_state true).
Proof.
  by apply (change_date_unparsable_raises _ _ _ ValueError).
Defined.

(** ** The mutating operations on the snapshot *)

Section CacheOps.
Context {Srv : Type} `{RemoteService Srv} `{Dateutil}.
Implicit Types (st : State Srv) (list_id task_id : pyval) (r : record).

Lemma od_set_set {V} (k : pyval) (v1 v2 : V) (d : odict V) :
  od_set k v2 (od_set k v1 d) = od_set k v2 d.
Proof.
  induction d as [|[k' v'] d IH]; simpl.
  - by rewrite decide_True.
  - destruct (decide (k' = k)); simpl.
    + by rewrite decide_True.
    + rewrite decide_False by done. by rewrite IH.
Qed.

Lemma kept_refl r : kept r r.
Proof. by split. Qed.

Lemma kept_insert r key v : key ≠ "id" -> kept r (<[key := v]> r).
Proof.
  intros Hne. split.
  - by rewrite lookup_insert_ne.
  - intros key' Hsome. destruct (decide (key = key')) as [->|].
    + rewrite lookup_insert_eq. by eexists.
    + by rewrite lookup_insert_ne.
Qed.

Lemma kept_toggled r : kept r (toggled r).
Proof. by apply kept_insert. Qed.

Lemma all_kept_refl (l : list record) : all_kept l l.
Proof. intros i r Hr. exists r. split; [done|apply kept_refl]. Qed.

Lemma all_kept_insert (l : list record) i r r' :
  l !! i = Some r -> kept r r' -> all_kept l (<[i := r']> l).
Proof.
  intros Hi Hk j x Hx. destruct (decide (i = j)) as [<-|Hne].
  - exists r'. split.
    + apply list_lookup_insert_eq. by eapply lookup_lt_Some.
    + congruence.
  - exists x. split; [by rewrite list_lookup_insert_ne|apply kept_refl].
Qed.

Lemma all_kept_app (l : list record) r : all_kept l (l ++ [r]).
Proof.
  intros i x Hx. exists x. split; [|apply kept_refl].
  by apply lookup_app_l_Some.
Qed.

Lemma bucket_lookup_get list_id st i r :
  bucket list_id st !! i = Some r ->
  od_get list_id (tasks (data st)) = Some (bucket list_id st).
Proof.
  unfold bucket, bucket_of. by destruct (od_get list_id (tasks (data st))).
Qed.

(** What [update_task] does, read off the scan. *)
Lemma update_task_spec list_id task_id change result_of not_found st :
  update_task list_id task_id change result_of not_found st =
  match find_by_id task_id (bucket list_id st) 0 with
  | Ok (Some (i, task)) =>
      (Ok (result_of (change task)), put_task list_id i (change task) st)
  | Ok None => (Ok not_found, st)
  | Raise e => (Raise e, st)
  end.
Proof.
  unfold update_task, bind, gets, lift.
  by destruct (find_by_id _ _ _) as [[[i task]|]|e].
Qed.

Lemma update_task_mutation list_id task_id change result_of not_found st :
  (forall r, kept r (change r)) ->
  mutation st (update_task list_id task_id change result_of not_found st).2.
Proof.
  intros Hkept. rewrite update_task_spec.
  destruct (find_by_id _ _ _) as [[[i task]|]|e] eqn:Hfind; simpl;
    try apply mutation_none.
  apply find_by_id_found in Hfind as (j & -> & Hj & _).
  by eapply mutation_task.
Qed.

Lemma add_task_spec list_id title now st :
  truthy list_id = true ->
  add_task list_id title now st
  = (Ok (RRecord (new_task title now)), push_task list_id (new_task title now) st).
Proof.
  intros Hl. unfold add_task, bind, gets, with_data, set_dirty, ret.
  rewrite Hl. simpl. unfold push_task, with_snapshot, bucket, bucket_of.
  destruct (od_get list_id (tasks (data st))) as [b|] eqn:Hget; simpl.
  - by rewrite Hget.
  - rewrite od_get_set_eq. simpl. by rewrite od_set_set.
Qed.

Lemma add_task_falsy list_id title now st :
  truthy list_id = false -> add_task list_id title now st = (Ok RNone, st).
Proof. intros Hl. unfold add_task. by rewrite Hl. Qed.

Lemma find_list_mutation list_id st (k : option (nat * record) -> M retval)
    (change : record -> record) (r1 r2 : retval) :
  (forall r, kept r (change r)) ->
  (forall i task_list st0,
      k (Some (i, task_list)) st0 = (Ok r1, put_list i (change task_list) st0)) ->
  (forall st0, k None st0 = (Ok r2, st0)) ->
  mutation st
    (bind (gets (fun st => task_lists (data st)))
       (fun l => bind (lift (find_by_id list_id l 0)) k) st).2.
Proof.
  intros Hkept Hsome Hnone. unfold bind, gets, lift.
  destruct (find_by_id _ _ _) as [[[i task_list]|]|e] eqn:Hfind; simpl;
    try apply mutation_none.
  - rewrite Hsome. simpl.
    apply find_by_id_found in Hfind as (j & -> & Hj & _).
    by eapply mutation_list.
  - rewrite Hnone. apply mutation_none.
Qed.

(** The state each operation leads to: [add_task] appends its new task to
    the bucket of the list it is given, [add_list] appends its new list and
    assigns it an empty bucket, the others perform a [mutation]. *)
Lemma run_op_mutation op st :
  match op with
  | AddTask list_id title now =>
      (run_op op st).2 = st \/
      (run_op op st).2 = push_task list_id (new_task title now) st
  | AddList list_name now =>
      (run_op op st).2
      = push_list (temp_list_id now) (new_list list_name now) st
  | _ => mutation st (run_op op st).2
  end.
Proof.
  destruct op; simpl.
  - destruct (truthy list_id) eqn:Hl.
    + right. by rewrite add_task_spec.
    + left. by rewrite add_task_falsy.
  - unfold toggle_task_status. destruct (truthy list_id); simpl;
      [|apply mutation_none].
    apply update_task_mutation, kept_toggled.
  - unfold rename_task. destruct (truthy list_id); simpl;
      [|apply mutation_none].
    apply update_task_mutation. intros r. by apply kept_insert.
  - unfold delete_task. destruct (truthy list_id); simpl;
      [|apply mutation_none].
    apply update_task_mutation. intros r. by apply kept_insert.
  - unfold change_date_task. destruct (truthy list_id); simpl;
      [|apply mutation_none].
    unfold try_except, bind, lift.
    destruct (isoparse date_str) as [date_obj|e].
    + pose proof (update_task_mutation list_id task_id
        (<["due" := PStr (isoformat date_obj +:+ "Z")]>) RRecord RNone st) as Hm.
      destruct (update_task _ _ _ _ _ st) as [[a|e] st0] eqn:Hup; simpl in *.
      * apply Hm. intros r. by apply kept_insert.
      * rewrite update_task_spec in Hup.
        destruct (find_by_id _ _ _) as [[[i task]|]|e']; simplify_eq.
        unfold date_handler.
        destruct isoparse_ParserError as [cls|]; simpl; [|apply mutation_none].
        destruct (cls e || bool_decide (e = ValueError)); apply mutation_none.
    + unfold date_handler.
      destruct isoparse_ParserError as [cls|]; simpl; [|apply mutation_none].
      destruct (cls e || bool_decide (e = ValueError)); apply mutation_none.
  - unfold change_detail_task. destruct (truthy list_id); simpl;
      [|apply mutation_none].
    apply update_task_mutation. intros r. by apply kept_insert.
  - done.
  - unfold rename_list. destruct (truthy list_id); simpl;
      [|apply mutation_none].
    apply (find_list_mutation _ _ _ (<["title" := new_title]>) (RBool true) RNone);
      [intros r; by apply kept_insert|done|done].
  - unfold delete_list.
    apply (find_list_mutation _ _ _ (<["deleted" := PBool true]>)
             (RBool true) (RBool false));
      [intros r; by apply kept_insert|done|done].
Qed.
End CacheOps.

(** ** Tombstones *)

Section Tombstones.
Context {Srv : Type} `{RemoteService Srv} `{Dateutil}.
Implicit Types (st : State Srv) (list_id task_id : pyval) (r : record).

Lemma mutation_retains st st' : mutation st st' -> retains (data st) (data st').
Proof.
  destruct 1 as [|list_id i task task' Hi Hk|i tl tl' Hi Hk]; simpl.
  - split; [apply all_kept_refl|]. intros k b Hb. exists b.
    split; [done|apply all_kept_refl].
  - split; [apply all_kept_refl|]. intros k b Hb.
    destruct (decide (list_id = k)) as [<-|Hne].
    + eexists. split; [simpl; apply od_get_set_eq|].
      rewrite (bucket_lookup_get _ _ _ _ Hi) in Hb. injection Hb as <-.
      by eapply all_kept_insert.
    + exists b. split; [simpl; by rewrite od_get_set_ne|apply all_kept_refl].
  - split; [by eapply all_kept_insert|]. intros k b Hb. exists b.
    split; [done|apply all_kept_refl].
Qed.

Lemma push_list_retains id r st :
  bucket id st = [] -> retains (data st) (data (push_list id r st)).
Proof.
  intros Hfresh. split; [apply all_kept_app|]. intros k b Hb. simpl.
  destruct (decide (id = k)) as [<-|Hne].
  - eexists. split; [simpl; apply od_get_set_eq|].
    unfold bucket, bucket_of in Hfresh. rewrite Hb in Hfresh. subst b. apply all_kept_refl.
  - exists b. split; [simpl; by rewrite od_get_set_ne|apply all_kept_refl].
Qed.

Lemma push_task_retains list_id r st :
  retains (data st) (data (push_task list_id r st)).
Proof.
  split; [apply all_kept_refl|]. intros k b Hb. simpl.
  destruct (decide (list_id = k)) as [<-|Hne].
  - eexists. split; [simpl; apply od_get_set_eq|].
    unfold bucket, bucket_of. rewrite Hb. apply all_kept_app.
  - exists b. split; [simpl; by rewrite od_get_set_ne|apply all_kept_refl].
Qed.

(** No operation removes a record, as long as the provisional identifier
    [add_list] makes up does not already key a bucket with tasks in it. *)
Lemma run_op_retains op st :
  (forall list_name now,
      op = AddList list_name now -> bucket (temp_list_id now) st = []) ->
  retains (data st) (data (run_op op st).2).
Proof.
  intros Hfresh. pose proof (run_op_mutation op st) as Hm.
  destruct op; try (by apply mutation_retains).
  - destruct Hm as [-> | ->]; [|apply push_task_retains].
    by apply mutation_retains, mutation_none.
  - rewrite Hm. apply push_list_retains. by eapply Hfresh.
Qed.

Lemma bucket_put_task list_id i r st :
  bucket list_id (put_task list_id i r st) = <[i := r]> (bucket list_id st).
Proof. unfold bucket at 1, bucket_of. simpl. by rewrite od_get_set_eq. Qed.

Lemma find_by_id_total id (l : list record) n :
  Forall (fun y => is_Some (y !! "id")) l ->
  exists found, find_by_id id l n = Ok found.
Proof.
  revert n. induction l as [|y l IH]; intros n Hall; simpl; [by eexists|].
  apply Forall_cons in Hall as [[v Hv] Hall]. rewrite Hv.
  destruct (decide (v = id)); [by eexists|auto].
Qed.

(** The scan finds a record exactly when some record carries the
    identifier (and none before it lacks one). *)
Lemma find_by_id_hit id (l : list record) n found :
  find_by_id id l n = Ok found ->
  (is_Some found <-> Exists (fun y : record => y !! "id" = Some id) l).
Proof.
  intros Hfind. destruct found as [[k x]|].
  - split; [intros _|by eexists].
    apply find_by_id_found in Hfind as (i & _ & Hi & Hid & _).
    apply Exists_exists. exists x. split; [|done].
    by eapply list_elem_of_lookup_2.
  - apply find_by_id_none in Hfind. split; [by intros [? [=]]|].
    intros (y & Hy & Hid)%Exists_exists.
    rewrite Forall_forall in Hfind. by apply Hfind in Hy.
Qed.

(** C8. The cache-only deletes leave tombstones: for a list identifier
    that is not empty, [delete_task] assigns [deleted = True] to the first
    task of the bucket carrying the task identifier, where it stands, and
    returns [True]; [delete_list] does the same in [task_lists]; when no
    record carries the identifier both return [False] and leave the state
    as it is; with records that all carry an ['id'] the answer is always
    a boolean, [True] exactly when some record carries the identifier;
    and for an empty list identifier (or [None]) [delete_task] returns
    [None] and does nothing. No mutating operation removes a record:
    every list record and every task of every bucket is still at its
    position afterwards, with its identifier and all its fields; for
    [add_list] this is stated when the provisional identifier it makes up
    does not already key a bucket with tasks in it. *)
Theorem deletes_leave_tombstones :
  (forall list_id task_id st i task,
      truthy list_id = true ->
      first_with_id task_id (bucket list_id st) i task ->
      exists st',
        delete_task list_id task_id st = (Ok (RBool true), st') /\
        bucket list_id st'
        = <[i := <["deleted" := PBool true]> task]> (bucket list_id st) /\
        task_lists (data st') = task_lists (data st)) /\
  (forall list_id st i task_list,
      first_with_id list_id (task_lists (data st)) i task_list ->
      exists st',
        delete_list list_id st = (Ok (RBool true), st') /\
        task_lists (data st')
        = <[i := <["deleted" := PBool true]> task_list]> (task_lists (data st)) /\
        tasks (data st') = tasks (data st)) /\
  (forall list_id task_id st,
      truthy list_id = true ->
      absent task_id (bucket list_id st) ->
      delete_task list_id task_id st = (Ok (RBool false), st)) /\
  (forall list_id st,
      absent list_id (task_lists (data st)) ->
      delete_list list_id st = (Ok (RBool false), st)) /\
  (forall list_id task_id st,
      truthy list_id = true ->
      Forall (fun y : record => is_Some (y !! "id")) (bucket list_id st) ->
      exists b st',
        delete_task list_id task_id st = (Ok (RBool b), st') /\
        (b = true <->
         Exists (fun y : record => y !! "id" = Some task_id) (bucket list_id st))) /\
  (forall list_id st,
      Forall (fun y : record => is_Some (y !! "id")) (task_lists (data st)) ->
      exists b st',
        delete_list list_id st = (Ok (RBool b), st') /\
        (b = true <->
         Exists (fun y : record => y !! "id" = Some list_id)
           (task_lists (data st)))) /\
  (forall list_id task_id st,
      truthy list_id = false ->
      delete_task list_id task_id st = (Ok RNone, st)) /\
  (forall op st,
      (forall list_name now,
          op = AddList list_name now -> bucket (temp_list_id now) st = []) ->
      retains (data st) (data (run_op op st).2)).
Proof.
  split; [|split; [|split; [|split; [|split; [|split; [|split]]]]]].
  - intros list_id task_id st i task Hl Hfirst.
    unfold delete_task. rewrite Hl. simpl. rewrite update_task_spec.
    rewrite (find_by_id_first _ _ _ _ 0 Hfirst). simpl.
    eexists. split; [done|]. split; [apply bucket_put_task|done].
  - intros list_id st i task_list Hfirst.
    unfold delete_list, bind, gets, lift.
    rewrite (find_by_id_first _ _ _ _ 0 Hfirst). simpl.
    eexists. by split.
  - intros list_id task_id st Hl Habs.
    unfold delete_task. rewrite Hl. simpl. rewrite update_task_spec.
    by rewrite (find_by_id_absent _ _ 0 Habs).
  - intros list_id st Habs. unfold delete_list, bind, gets, lift.
    by rewrite (find_by_id_absent _ _ 0 Habs).
  - intros list_id task_id st Hl Hall.
    unfold delete_task. rewrite Hl. simpl. rewrite update_task_spec.
    destruct (find_by_id_total task_id _ 0 Hall) as [found Hfind].
    rewrite Hfind. apply find_by_id_hit in Hfind as Hhit.
    destruct found as [[i task]|]; do 2 eexists; (split; [done|]).
    + split; [intros _; apply Hhit; by eexists|done].
    + split; [done|]. intros HE. apply Hhit in HE. by destruct HE as [? [=]].
  - intros list_id st Hall. unfold delete_list, bind, gets, lift.
    destruct (find_by_id_total list_id _ 0 Hall) as [found Hfind].
    rewrite Hfind. apply find_by_id_hit in Hfind as Hhit.
    destruct found as [[i task_list]|]; do 2 eexists; (split; [done|]).
    + split; [intros _; apply Hhit; by eexists|done].
    + split; [done|]. intros HE. apply Hhit in HE. by destruct HE as [? [=]].
  - intros list_id task_id st Hl. unfold delete_task. by rewrite Hl.
  - apply run_op_retains.
Qed.

(** C10. After a successful [delete_task], [get_task] still finds the
    record, now carrying [deleted = True], whereas [get_tasks_for_list]
    does not list it; the bulk reads ([get_tasks_for_list],
    [get_task_lists]) return records without a set [deleted] flag only. *)
Theorem get_task_returns_tombstone list_id task_id st st' :
  delete_task list_id task_id st = (Ok (RBool true), st') ->
  exists task,
    get_task list_id task_id st' = (Ok (RRecord task), st') /\
    task !! "deleted" = Some (PBool true) /\
    (exists visible,
        get_tasks_for_list list_id st' = (Ok (RRecords visible), st') /\
        (task ∉ visible) /\
        Forall (fun t => get_truthy "deleted" t = false) visible) /\
    (exists lists,
        get_task_lists st' = (Ok (RRecords lists), st') /\
        Forall (fun t => get_truthy "deleted" t = false) lists).
Proof.
  unfold delete_task. destruct (truthy list_id) eqn:Hl; simpl; [|done].
  rewrite update_task_spec.
  destruct (find_by_id _ _ _) as [[[i task]|]|e] eqn:Hfind; [|done..].
  intros [= <-].
  apply find_by_id_found in Hfind as (j & -> & Hfirst). simpl.
  exists (<["deleted" := PBool true]> task). repeat split.
  - unfold get_task, bind, gets, lift. rewrite Hl. simpl.
    rewrite bucket_put_task.
    rewrite (find_by_id_insert _ _ _ task _ 0 Hfirst); [done|].
    rewrite lookup_insert_ne by done. apply Hfirst.
  - apply lookup_insert_eq.
  - unfold get_tasks_for_list, bind, gets, ret. simpl.
    eexists. rewrite !Hl. simpl. split; [done|]. split.
    + rewrite list_elem_of_filter. intros [Hdel _].
      unfold get_truthy, pyget in Hdel. by rewrite lookup_insert_eq in Hdel.
    + apply Forall_forall. intros t Ht. by apply list_elem_of_filter in Ht as [? _].
  - unfold get_task_lists, bind, gets, ret. simpl.
    eexists. split; [done|].
    apply Forall_forall. intros t Ht. by apply list_elem_of_filter in Ht as [? _].
Qed.
End Tombstones.

Lemma get_task_returns_tombstone_witness :
  exists task,
    get_task (PStr "L1") (PStr "t1")
      (after (delete_task (PStr "L1") (PStr "t1")) (clean_state true))
    = (Ok (RRecord task),
       after (delete_task (PStr "L1") (PStr "t1")) (clean_state true)) /\
    task !! "deleted" = Some (PBool true).
Proof.
  destruct (get_task_returns_tombstone (PStr "L1") (PStr "t1")
              (clean_state true)
              (after (delete_task (PStr "L1") (PStr "t1")) (clean_state true)))
    as (task & Hget & Hdel & _).
  - reflexivity.
  - exists task. by split.
Defined.

(** C8, as stated: asked to delete under the list identifier [None] (the
    active list of an engine without lists), [delete_task] returns [None],
    not a boolean; and not every cache-only operation keeps the records of
    the snapshot: [add_list] assigns an empty bucket to the provisional
    identifier it makes up from the clock, so with the list "Work" and its
    task "Ship" in place, adding the list "Home" within the same second
    empties the bucket of "Work". *)
Lemma delete_task_none_and_add_list_drop :
  (delete_task PNone (PStr "t1") (clean_state true)).1 = Ok RNone /\
  (let st := work_ship true in
   let st' := after (add_list (PStr "Home") 1) st in
   bucket (PStr "temp_list_1") st = [new_task (PStr "Ship") 1] /\
   bucket (PStr "temp_list_1") st' = [] /\
   ~ retains (data st) (data st')).
Proof.
  split; [reflexivity|].
  intros st st'.
  assert (bucket (PStr "temp_list_1") st = [new_task (PStr "Ship") 1]) as Hst
    by (vm_compute; reflexivity).
  assert (bucket (PStr "temp_list_1") st' = []) as Hst'
    by (vm_compute; reflexivity).
  split; [done|]. split; [done|].
  intros [_ Hbuckets]. unfold bucket, bucket_of in Hst, Hst'.
  destruct (od_get (PStr "temp_list_1") (tasks (data st))) as [b|] eqn:Hb;
    [|done].
  destruct (Hbuckets _ _ Hb) as (b' & Hb' & Hkept).
  rewrite Hb' in Hst'. subst b b'.
  by destruct (Hkept 0 (new_task (PStr "Ship") 1)) as (r' & Hr' & _).
Qed.

Lemma deletes_leave_tombstones_witness :
  exists st',
    delete_task (PStr "L1") (PStr "t2") (clean_state true)
    = (Ok (RBool true), st') /\
    bucket (PStr "L1") st' !! 1
    = Some (mk_record [("id", PStr "t2"); ("title", PStr "Pay bills");
                       ("status", PStr "completed"); ("deleted", PBool true)]).
Proof.
  destruct (proj1 (deletes_leave_tombstones (Srv := Server))
              (PStr "L1") (PStr "t2") (clean_state true) 1
              (mk_record [("id", PStr "t2"); ("title", PStr "Pay bills");
                          ("status", PStr "completed")]))
    as (st' & Hdel & Hbucket & _).
  - reflexivity.
  - split; [reflexivity|]. split; [reflexivity|].
    vm_compute. constructor; [|constructor].
    split; [by eexists|discriminate].
  - exists st'. split; [exact Hdel|].
    rewrite Hbucket. vm_compute. reflexivity.
Defined.

(** ** Toggling the status *)

Section Toggle.
Context {Srv : Type} `{RemoteService Srv} `{Dateutil}.
Implicit Types (st : State Srv) (list_id task_id : pyval) (r : record).

Lemma od_set_id {V} (k : pyval) (v : V) (d : odict V) :
  od_get k d = Some v -> od_set k v d = d.
Proof.
  induction d as [|[k' v'] d IH]; simpl; [done|].
  destruct (decide (k' = k)) as [->|]; [by intros [= ->]|].
  intros Hg. by rewrite IH.
Qed.

Lemma toggled_needs_action r :
  pyget "status" r = PStr "needsAction" ->
  toggled r = <["status" := PStr "completed"]> r /\
  toggled (toggled r) = r.
Proof.
  intros Hs. assert (toggled r = <["status" := PStr "completed"]> r) as Ht.
  { unfold toggled. by rewrite decide_True. }
  split; [done|]. rewrite Ht. unfold toggled at 1.
  rewrite decide_False; last first.
  { unfold pyget. by rewrite lookup_insert_eq. }
  rewrite insert_insert_eq. apply insert_id.
  unfold pyget in Hs. by destruct (r !! "status") as [v|]; simplify_eq.
Qed.

(** C9. In the cache engine, toggling a [needsAction] task twice gives
    back the task (hence the status [needsAction]) and the snapshot, and
    each toggle assigns the status only: the title and every other field
    are as before. The mock service of [gtask_tui] also returns the status
    to [needsAction] after two toggles, but there a toggle rewrites the
    title as well: it appends " (Completed)" on the way to [completed] and
    deletes every " (Completed)" on the way back. *)
Theorem toggle_twice_engine_and_mock :
  (forall list_id task_id st i task,
      truthy list_id = true ->
      first_with_id task_id (bucket list_id st) i task ->
      pyget "status" task = PStr "needsAction" ->
      exists st1 st2 task1,
        toggle_task_status list_id task_id st = (Ok (RRecord task1), st1) /\
        task1 = <["status" := PStr "completed"]> task /\
        (forall key, key ≠ "status" -> task1 !! key = task !! key) /\
        toggle_task_status list_id task_id st1 = (Ok (RRecord task), st2) /\
        data st2 = data st) /\
  (forall (task : record) title,
      task !! "status" = Some (PStr "needsAction") ->
      task !! "title" = Some (PStr title) ->
      exists task1 task2,
        Mock.toggle task = (Ok tt, task1) /\
        task1 !! "status" = Some (PStr "completed") /\
        task1 !! "title" = Some (PStr (title +:+ " (Completed)")) /\
        Mock.toggle task1 = (Ok tt, task2) /\
        task2 !! "status" = Some (PStr "needsAction") /\
        task2 !! "title"
        = Some (PStr (Mock.replace " (Completed)" "" (title +:+ " (Completed)")))).
Proof.
  split.
  - intros list_id task_id st i task Hl Hfirst Hstatus.
    destruct (toggled_needs_action task Hstatus) as [Ht1 Ht2].
    unfold toggle_task_status. rewrite Hl. simpl.
    rewrite !update_task_spec.
    rewrite (find_by_id_first _ _ _ _ 0 Hfirst). simpl.
    do 3 eexists. split; [done|]. split; [done|].
    split; [intros key Hkey; by rewrite Ht1, lookup_insert_ne|].
    rewrite update_task_spec, bucket_put_task.
    rewrite (find_by_id_insert _ _ _ task _ 0 Hfirst); last first.
    { rewrite Ht1, lookup_insert_ne by done. apply Hfirst. }
    simpl. rewrite Ht2. split; [done|].
    unfold put_task at 1. simpl. rewrite bucket_put_task. simpl.
    rewrite list_insert_insert_eq, od_set_set.
    destruct Hfirst as (Hi & _).
    rewrite list_insert_id by done.
    rewrite od_set_id by (by eapply bucket_lookup_get).
    by destruct (data st).
  - intros task title Hstatus Htitle. unfold Mock.toggle.
    rewrite Hstatus, decide_True by done.
    rewrite lookup_insert_ne, Htitle by done.
    do 2 eexists. split; [done|].
    split; [by rewrite lookup_insert_ne, lookup_insert_eq|].
    split; [by rewrite lookup_insert_eq|].
    rewrite lookup_insert_ne, lookup_insert_eq by done.
    rewrite decide_False by done.
    rewrite lookup_insert_ne, lookup_insert_eq by done.
    split; [done|].
    split; [by rewrite lookup_insert_ne, lookup_insert_eq|].
    by rewrite lookup_insert_eq.
Qed.
End Toggle.

Lemma toggle_twice_engine_and_mock_witness :
  exists st1 st2 task1,
    toggle_task_status (PStr "L1") (PStr "t1") (clean_state true)
    = (Ok (RRecord task1), st1) /\
    toggle_task_status (PStr "L1") (PStr "t1") st1
    = (Ok (RRecord (mk_record [("id", PStr "t1"); ("title", PStr "Buy groceries");
                               ("status", PStr "needsAction")])), st2) /\
    data st2 = data (clean_state true).
Proof.
  destruct (proj1 (toggle_twice_engine_and_mock (Srv := Server))
              (PStr "L1") (PStr "t1") (clean_state true) 0
              (mk_record [("id", PStr "t1"); ("title", PStr "Buy groceries");
                          ("status", PStr "needsAction")]))
    as (st1 & st2 & task1 & H1 & _ & _ & H2 & H3).
  - reflexivity.
  - split; [reflexivity|]. split; [reflexivity|]. constructor.
  - reflexivity.
  - exists st1, st2, task1. by repeat split.
Defined.

(** C9, against the mock service: toggling the task "Buy groceries" of
    [MOCK_TASKS] returns it with the title "Buy groceries (Completed)", so
    the toggle does not leave the title alone. *)
Lemma mock_toggle_rewrites_title :
  exists task,
    (Mock.toggle_task_status (PStr "list1") (PStr "u1") MOCK_TASKS).1
    = Ok (RRecord task) /\
    task !! "status" = Some (PStr "completed") /\
    task !! "title" = Some (PStr "Buy groceries (Completed)") /\
    task !! "title" ≠ Some (PStr "Buy groceries").
Proof.
  eexists. split; [vm_compute; reflexivity|].
  split; [vm_compute; reflexivity|]. split; [vm_compute; reflexivity|].
  vm_compute. discriminate.
Qed.

(** ** The passes of [sync_to_google] save nothing *)

Section Quiet.
Context {Srv : Type} `{RemoteService Srv} `{Dateutil}.
Implicit Types (st : State Srv).

Lemma quiet_refl st : quiet st st.
Proof.
  repeat split. exists []. split; [by rewrite app_nil_r|constructor].
Qed.

Lemma quiet_trans st1 st2 st3 : quiet st1 st2 -> quiet st2 st3 -> quiet st1 st3.
Proof.
  intros (Hd1 & Hs1 & Ha1 & evs1 & Ht1 & He1) (Hd2 & Hs2 & Ha2 & evs2 & Ht2 & He2).
  split; [congruence|]. split; [congruence|]. split; [congruence|].
  exists (evs1 ++ evs2). split.
  - by rewrite Ht2, Ht1, app_assoc.
  - by apply Forall_app.
Qed.

Lemma Quiet_ret {A} (a : A) : Quiet (Srv := Srv) (ret a).
Proof. intros st. apply quiet_refl. Qed.

Lemma Quiet_lift {A} (r : result A) : Quiet (Srv := Srv) (lift r).
Proof. intros st. apply quiet_refl. Qed.

Lemma Quiet_gets {A} (f : State Srv -> A) : Quiet (Srv := Srv) (gets f).
Proof. intros st. apply quiet_refl. Qed.

Lemma Quiet_with_data f : Quiet (Srv := Srv) (with_data f).
Proof.
  intros st. repeat split. exists []. split; [by rewrite app_nil_r|constructor].
Qed.

Lemma Quiet_remote {A} req (f : Srv -> result A * Srv) :
  Quiet (Srv := Srv) (remote req f).
Proof.
  intros st. unfold remote. destruct (f (service st)) as [r srv'].
  repeat split. exists [EvRemote req]. split; [done|].
  by repeat constructor.
Qed.

Lemma Quiet_bind {A B} (c : M A) (k : A -> M B) :
  Quiet (Srv := Srv) c -> (forall a, Quiet (Srv := Srv) (k a)) ->
  Quiet (Srv := Srv) (bind c k).
Proof.
  intros Hc Hk st. unfold bind. specialize (Hc st).
  destruct (c st) as [[a|e] st0]; [|done].
  eapply quiet_trans; [exact Hc|apply Hk].
Qed.

Lemma Quiet_try_except {A} (c : M A) (h : exn -> M A) :
  Quiet (Srv := Srv) c -> (forall e, Quiet (Srv := Srv) (h e)) ->
  Quiet (Srv := Srv) (try_except c h).
Proof.
  intros Hc Hh st. unfold try_except. specialize (Hc st).
  destruct (c st) as [[a|e] st0]; [done|].
  eapply quiet_trans; [exact Hc|apply Hh].
Qed.

Lemma Quiet_if {A} (b : bool) (c1 c2 : M A) :
  Quiet (Srv := Srv) c1 -> Quiet (Srv := Srv) c2 ->
  Quiet (Srv := Srv) (if b then c1 else c2).
Proof. by destruct b. Qed.

Create HintDb quiet.
#[local] Hint Resolve Quiet_ret Quiet_lift Quiet_gets Quiet_with_data
  Quiet_remote Quiet_if : quiet.

Ltac quiet :=
  repeat first
    [ apply Quiet_bind; [|intros ?]
    | apply Quiet_try_except; [|intros ?]
    | apply Quiet_if
    | solve [auto with quiet] ].

Lemma Quiet_sync_list i task_list m :
  Quiet (Srv := Srv) (sync_list i task_list m).
Proof. unfold sync_list, try_pass, store_list. quiet. Qed.

Lemma Quiet_sync_lists l : forall i m, Quiet (Srv := Srv) (sync_lists i l m).
Proof.
  induction l as [|r l IH]; intros i m; simpl; [apply Quiet_ret|].
  apply Quiet_bind; [apply Quiet_sync_list|auto].
Qed.

Lemma Quiet_sync_task j list_id i task :
  Quiet (Srv := Srv) (sync_task j list_id i task).
Proof. unfold sync_task, try_pass, store_bucket_item. quiet. Qed.

Lemma Quiet_sync_bucket j list_id ts :
  forall i, Quiet (Srv := Srv) (sync_bucket j list_id i ts).
Proof.
  induction ts as [|r ts IH]; intros i; simpl; [apply Quiet_ret|].
  apply Quiet_bind; [apply Quiet_sync_task|auto].
Qed.

Lemma Quiet_sync_buckets items :
  forall j, Quiet (Srv := Srv) (sync_buckets j items).
Proof.
  induction items as [|[list_id ts] items IH]; intros j; simpl;
    [apply Quiet_ret|].
  apply Quiet_bind; [apply Quiet_lift|]. intros temp.
  apply Quiet_bind; [|auto].
  apply Quiet_if; [apply Quiet_ret|apply Quiet_sync_bucket].
Qed.

Lemma Quiet_sync_passes : Quiet sync_passes.
Proof.
  unfold sync_passes, migrate_buckets.
  apply Quiet_bind; [apply Quiet_gets|]. intros l.
  apply Quiet_bind; [apply Quiet_sync_lists|]. intros m.
  apply Quiet_bind; [apply Quiet_with_data|]. intros _.
  apply Quiet_bind; [apply Quiet_gets|]. intros t.
  apply Quiet_sync_buckets.
Qed.

Lemma sync_to_google_unfold st :
  sync_to_google st =
  if dirty st then
    match sync_passes st with
    | (Ok _, st1) => save_local_data st1
    | (Raise e, st1) => (Raise e, st1)
    end
  else (Ok tt, st).
Proof.
  unfold sync_to_google, sync_passes, migrate_buckets, with_data, bind, gets.
  destruct (dirty st); simpl; [|done].
  destruct (sync_lists 0 _ [] st) as [[m|e] s1]; [|done].
  by destruct (sync_buckets _ _ _) as [[[]|e] s3].
Qed.

(** An exception that leaves [sync_to_google] leaves the snapshot unsaved
    and [dirty] set. *)
Lemma sync_raise_quiet st e st' :
  sync_to_google st = (Raise e, st') -> dirty st = true /\ quiet st st'.
Proof.
  rewrite sync_to_google_unfold. destruct (dirty st) eqn:Hd; [|done].
  pose proof (Quiet_sync_passes st) as Hq.
  destruct (sync_passes st) as [[[]|e'] st1]; simpl in Hq.
  - done.
  - by intros [= <- <-].
Qed.

(** A pass on a dirty snapshot that runs to completion ends by saving the
    snapshot, and clears [dirty]. *)
Lemma sync_ok_persisted st st' :
  dirty st = true -> sync_to_google st = (Ok tt, st') ->
  dirty st' = false /\ persisted_last st st' /\
  storage st' = save_data (data st') (storage st).
Proof.
  intros Hd. rewrite sync_to_google_unfold, Hd.
  pose proof (Quiet_sync_passes st) as Hq.
  destruct (sync_passes st) as [[[]|e'] st1]; simpl in Hq; [|done].
  unfold save_local_data. intros [= <-]. simpl.
  destruct Hq as (_ & Hs & _ & evs & Ht & _).
  split; [done|]. split; [|by rewrite Hs].
  exists evs. simpl. by rewrite Ht, app_assoc.
Qed.
End Quiet.

(** ** What the passes of [sync_to_google] do to the snapshot *)

Section Passes.
Context {Srv : Type} `{RemoteService Srv} `{Dateutil}.
Implicit Types (st : State Srv) (r : record).

Lemma snapshot_eta (d : Snapshot) :
  {| task_lists := task_lists d; tasks := tasks d |} = d.
Proof. by destruct d. Qed.

Lemma set_task_lists_id i r (d : Snapshot) :
  task_lists d !! i = Some r -> set_task_lists (<[i := r]> (task_lists d)) d = d.
Proof.
  intros Hi. unfold set_task_lists. rewrite list_insert_id by done.
  apply snapshot_eta.
Qed.

Lemma pending_false_deleted p r :
  get_truthy "deleted" r = true -> pending p r = false.
Proof. intros Hd. unfold pending. by rewrite Hd. Qed.

Lemma pending_false_prefix p r s :
  r !! "id" = Some (PStr s) -> String.prefix p s = false -> pending p r = false.
Proof.
  intros Hid Hp. unfold pending, provisional. rewrite Hid, Hp.
  apply andb_false_r.
Qed.

Lemma pending_true p r s :
  get_truthy "deleted" r = false -> r !! "id" = Some (PStr s) ->
  String.prefix p s = true -> pending p r = true.
Proof.
  intros Hd Hid Hp. unfold pending, provisional. by rewrite Hd, Hid, Hp.
Qed.

Lemma sync_list_ok i r m st m' st' :
  sync_list i r m st = (Ok m', st') ->
  task_lists (data st) !! i = Some r ->
  exists r',
    list_synced r m r' m' /\
    data st' = set_task_lists (<[i := r']> (task_lists (data st))) (data st).
Proof.
  intros Hrun Hi.
  unfold sync_list, bind, lift, getitem, startswith, try_pass, try_except,
    remote, store_list, with_data, ret in Hrun.
  repeat case_match; simplify_eq/=.
  all: try (exists r; split; [|by rewrite set_task_lists_id]).
  all: try (apply list_untouched;
            first [by apply pending_false_deleted
                  |by eapply pending_false_prefix]).
  eexists. split; [|done].
  eapply list_created; [by eapply pending_true|done| |done].
  match goal with Hc : tasklists_insert _ _ = _ |- _ => by rewrite Hc end.
Qed.

Lemma sync_lists_ok l : forall i m st m' st' pre,
  sync_lists i l m st = (Ok m', st') ->
  task_lists (data st) = pre ++ l -> length pre = i ->
  exists l',
    lists_synced l m l' m' /\
    data st' = set_task_lists (pre ++ l') (data st).
Proof.
  induction l as [|r l IH]; intros i m st m' st' pre Hrun Hl Hlen; simpl in Hrun.
  - injection Hrun as <- <-. exists []. split; [constructor|].
    rewrite <- Hl. unfold set_task_lists. by rewrite snapshot_eta.
  - apply bind_ok in Hrun as (m1 & s1 & Hstep & Hrun).
    apply sync_list_ok in Hstep as (r' & Hr' & Hs1).
    2: { rewrite Hl, <- Hlen. apply list_lookup_middle. done. }
    assert (task_lists (data s1) = (pre ++ [r']) ++ l) as Hl1.
    { rewrite Hs1, Hl. simpl. rewrite <- Hlen.
      rewrite insert_app_r_alt, Nat.sub_diag by done. simpl.
      by rewrite <- app_assoc. }
    eapply IH in Hrun as (l' & Hl' & Hst'); [|exact Hl1|].
    2: { rewrite length_app. simpl. lia. }
    exists (r' :: l'). split; [by econstructor|].
    rewrite Hst', Hs1. unfold set_task_lists. simpl.
    by rewrite <- app_assoc.
Qed.

Lemma list_alter_lookup {A} (f : A -> A) (l : list A) j x :
  l !! j = Some x -> alter f j l = <[j := f x]> l.
Proof.
  revert j. induction l as [|y l IH]; intros [|j] Hj; simplify_eq/=; [done|].
  f_equal. by apply IH.
Qed.

Lemma set_tasks_id j list_id i r b (d : Snapshot) :
  tasks d !! j = Some (list_id, b) -> b !! i = Some r ->
  set_tasks (<[j := (list_id, <[i := r]> b)]> (tasks d)) d = d.
Proof.
  intros Hj Hi. unfold set_tasks.
  rewrite (list_insert_id b) by done. rewrite list_insert_id by done.
  apply snapshot_eta.
Qed.

Lemma sync_task_ok j list_id i r st st' b :
  sync_task j list_id i r st = (Ok tt, st') ->
  tasks (data st) !! j = Some (list_id, b) -> b !! i = Some r ->
  exists r',
    task_synced list_id r r' /\
    data st'
    = set_tasks (<[j := (list_id, <[i := r']> b)]> (tasks (data st))) (data st).
Proof.
  intros Hrun Hj Hi.
  unfold sync_task, bind, lift, getitem, startswith, try_pass, try_except,
    remote, store_bucket_item, with_data, ret in Hrun.
  repeat case_match; simplify_eq/=.
  all: try (exists r; split; [|by erewrite set_tasks_id]).
  all: try (apply task_untouched;
            first [by apply pending_false_deleted
                  |by eapply pending_false_prefix]).
  - match goal with
    | Hc : tasks_insert _ _ _ = (Ok ?x, _) |- _ =>
        exists x; split; [|by rewrite (list_alter_lookup _ _ _ _ Hj)];
        eapply task_created; [by eapply pending_true|by rewrite Hc]
    end.
  - match goal with
    | Hc : tasks_update _ _ _ _ = (Ok ?x, _) |- _ =>
        exists x; split; [|by rewrite (list_alter_lookup _ _ _ _ Hj)];
        eapply task_updated; [by eapply pending_false_prefix|done|by rewrite Hc]
    end.
Qed.

Lemma sync_bucket_ok j list_id ts : forall i st st' pre,
  sync_bucket j list_id i ts st = (Ok tt, st') ->
  tasks (data st) !! j = Some (list_id, pre ++ ts) -> length pre = i ->
  exists ts',
    Forall2 (task_synced list_id) ts ts' /\
    data st'
    = set_tasks (<[j := (list_id, pre ++ ts')]> (tasks (data st))) (data st).
Proof.
  induction ts as [|r ts IH]; intros i st st' pre Hrun Hj Hlen; simpl in Hrun.
  - injection Hrun as <-. exists []. split; [constructor|].
    unfold set_tasks. rewrite list_insert_id by done. by rewrite snapshot_eta.
  - apply bind_ok in Hrun as ([] & s1 & Hstep & Hrun).
    eapply sync_task_ok in Hstep as (r' & Hr' & Hs1); [|exact Hj|].
    2: { rewrite <- Hlen. by apply list_lookup_middle. }
    assert (j < length (tasks (data st))) as Hjlt by (by eapply lookup_lt_Some).
    assert (tasks (data s1) !! j = Some (list_id, (pre ++ [r']) ++ ts)) as Hj1.
    { rewrite Hs1. simpl. rewrite list_lookup_insert_eq by done.
      rewrite <- Hlen, insert_app_r_alt, Nat.sub_diag by done. simpl.
      by rewrite <- app_assoc. }
    eapply IH in Hrun as (ts' & Hts' & Hst'); [|exact Hj1|].
    2: { rewrite length_app. simpl. lia. }
    exists (r' :: ts'). split; [by constructor|].
    rewrite Hst', Hs1. unfold set_tasks. simpl.
    by rewrite list_insert_insert_eq, <- app_assoc.
Qed.

Lemma sync_buckets_ok items : forall j st st' pre,
  sync_buckets j items st = (Ok tt, st') ->
  tasks (data st) = pre ++ items -> length pre = j ->
  exists items',
    Forall2 bucket_synced items items' /\
    data st' = set_tasks (pre ++ items') (data st).
Proof.
  induction items as [|[list_id ts] items IH];
    intros j st st' pre Hrun Ht Hlen; simpl in Hrun.
  - injection Hrun as <-. exists []. split; [constructor|].
    rewrite <- Ht. unfold set_tasks. by rewrite snapshot_eta.
  - apply bind_ok in Hrun as (temp & s0 & Htemp & Hrun).
    unfold lift in Htemp. injection Htemp as Htemp <-.
    apply bind_ok in Hrun as ([] & s1 & Hstep & Hrun).
    assert (exists ts',
      bucket_synced (list_id, ts) (list_id, ts') /\
      data s1 = set_tasks (pre ++ (list_id, ts') :: items) (data st))
      as (ts' & Hsynced & Hs1).
    { destruct temp.
      - injection Hstep as <-. exists ts. split; [split; [done|by left]|].
        rewrite <- Ht. unfold set_tasks. by rewrite snapshot_eta.
      - eapply (sync_bucket_ok _ _ _ 0 _ _ []) in Hstep as (ts' & Hts' & Hs1);
          [| |done].
        2: { rewrite Ht, <- Hlen. by apply list_lookup_middle. }
        exists ts'. split; [split; [done|by right]|].
        rewrite Hs1, Ht, <- Hlen. simpl.
        by rewrite insert_app_r_alt, Nat.sub_diag by done. }
    eapply (IH _ _ _ (pre ++ [(list_id, ts')])) in Hrun as (items' & Hitems' & Hst').
    2: { rewrite Hs1. simpl. by rewrite <- app_assoc. }
    2: { rewrite length_app. simpl. lia. }
    exists ((list_id, ts') :: items'). split; [by constructor|].
    rewrite Hst', Hs1. unfold set_tasks. simpl. by rewrite <- app_assoc.
Qed.

(** A completed pass on a dirty snapshot, as a relation between the
    snapshots before and after. *)
Lemma sync_to_google_ok st st' :
  dirty st = true -> sync_to_google st = (Ok tt, st') ->
  exists l' m t',
    lists_synced (task_lists (data st)) [] l' m /\
    Forall2 bucket_synced (fold_left rekey m (tasks (data st))) t' /\
    data st' = {| task_lists := l'; tasks := t' |}.
Proof.
  intros Hd Hrun. rewrite sync_to_google_unfold, Hd in Hrun.
  destruct (sync_passes st) as [[[]|e] s3] eqn:Hpasses; [|done].
  unfold save_local_data in Hrun. injection Hrun as <-. simpl.
  unfold sync_passes in Hpasses.
  apply bind_ok in Hpasses as (l & s0 & Hl & Hpasses).
  unfold gets in Hl. injection Hl as <- <-.
  apply bind_ok in Hpasses as (m & s1 & Hlists & Hpasses).
  apply (sync_lists_ok _ _ _ _ _ _ []) in Hlists as (l' & Hl' & Hs1); [|done..].
  apply bind_ok in Hpasses as ([] & s2 & Hmig & Hpasses).
  unfold migrate_buckets, with_data in Hmig. injection Hmig as <-.
  apply bind_ok in Hpasses as (t & s2' & Ht & Hpasses).
  unfold gets in Ht. injection Ht as <- <-. simpl in Hpasses.
  apply (sync_buckets_ok _ _ _ _ []) in Hpasses as (t' & Ht' & Hs3); [|done..].
  exists l', m, t'. rewrite Hs3. simpl.
  rewrite Hs1 in Ht'. simpl in Ht'. by rewrite Hs1.
Qed.
End Passes.

(** ** Referential integrity *)

Section Integrity.
Context {Srv : Type} `{RemoteService Srv} `{Dateutil}.
Implicit Types (st : State Srv) (r : record) (k : pyval).

Lemma integrity_alt (d : Snapshot) :
  referential_integrity d <->
  forall k, k ∈ od_keys (tasks d) -> has_list (task_lists d) k.
Proof. unfold referential_integrity. apply Forall_forall. Qed.

Lemma has_list_insert l i r r' k :
  l !! i = Some r -> kept r r' -> has_list l k -> has_list (<[i := r']> l) k.
Proof.
  intros Hi [Hid _]. unfold has_list. rewrite !Exists_exists.
  intros (x & Hx & Hk). apply list_elem_of_lookup in Hx as [j Hj].
  destruct (decide (i = j)) as [<-|Hne].
  - exists r'. split; [|congruence].
    apply list_elem_of_lookup. exists i.
    apply list_lookup_insert_eq. by eapply lookup_lt_Some.
  - exists x. split; [|done].
    apply list_elem_of_lookup. exists j. by rewrite list_lookup_insert_ne.
Qed.

Lemma has_list_app_l l l2 k : has_list l k -> has_list (l ++ l2) k.
Proof. unfold has_list. rewrite Exists_app. tauto. Qed.

Lemma mutation_integrity st st' :
  mutation st st' -> referential_integrity (data st) ->
  referential_integrity (data st').
Proof.
  destruct 1 as [|list_id i task task' Hi Hk|i tl tl' Hi Hk]; [done|..];
    rewrite !integrity_alt; intros Hint k; simpl.
  - rewrite od_keys_set. intros [->|Hin]; [|auto].
    apply Hint. eapply od_get_Some_keys, bucket_lookup_get, Hi.
  - intros Hin. eapply has_list_insert; eauto.
Qed.

Lemma push_task_integrity list_id r st :
  known_list list_id (data st) -> referential_integrity (data st) ->
  referential_integrity (data (push_task list_id r st)).
Proof.
  rewrite !integrity_alt. intros Hknown Hint k. simpl.
  rewrite od_keys_set. intros [->|Hin]; [|auto].
  destruct Hknown as [Hin|Hex]; auto.
Qed.

Lemma push_list_integrity id r st :
  r !! "id" = Some id -> referential_integrity (data st) ->
  referential_integrity (data (push_list id r st)).
Proof.
  rewrite !integrity_alt. intros Hid Hint k. simpl.
  rewrite od_keys_set. intros [->|Hin].
  - unfold has_list. rewrite Exists_app. right. by constructor.
  - by apply has_list_app_l, Hint.
Qed.

Lemma run_op_integrity op st :
  referential_integrity (data st) ->
  (forall list_id title now,
      op = AddTask list_id title now -> known_list list_id (data st)) ->
  referential_integrity (data (run_op op st).2).
Proof.
  intros Hint Hknown. pose proof (run_op_mutation op st) as Hm.
  destruct op; try (by eapply mutation_integrity).
  - destruct Hm as [-> | ->]; [done|].
    apply push_task_integrity; [by eapply Hknown|done].
  - rewrite Hm. apply push_list_integrity; [|done]. apply lookup_insert_eq.
Qed.

(** The identifiers recorded in [new_list_id_map] only grow. *)
Lemma list_synced_keys r m r' m' k :
  list_synced r m r' m' -> k ∈ od_keys m -> k ∈ od_keys m'.
Proof.
  destruct 1; [done|]. intros Hin. apply od_keys_set. by right.
Qed.

Lemma lists_synced_keys l m l' m' k :
  lists_synced l m l' m' -> k ∈ od_keys m -> k ∈ od_keys m'.
Proof. induction 1; eauto using list_synced_keys. Qed.

(** A list identifier either survives the first loop or is a key of
    [new_list_id_map]. *)
Lemma lists_synced_ids l m l' m' k :
  lists_synced l m l' m' -> has_list l k ->
  has_list l' k \/ k ∈ od_keys m'.
Proof.
  unfold has_list. induction 1 as [|r l m r' m1 l' m' Hr Hl IH]; [by left|].
  rewrite !Exists_cons. intros [Hk|Hk].
  - destruct Hr as [|old new r' body srv Hp Hold Hins Hnew]; [by left; left|].
    right. eapply lists_synced_keys; [done|].
    apply od_keys_set. left. congruence.
  - destruct (IH Hk); auto.
Qed.

Lemma od_values_set {V} (k : pyval) (v x : V) (d : odict V) :
  x ∈ (od_set k v d).*2 -> x = v \/ x ∈ d.*2.
Proof.
  induction d as [|[k' v'] d IH]; simpl.
  - rewrite elem_of_cons, elem_of_nil. tauto.
  - destruct (decide (k' = k)); simpl; rewrite !elem_of_cons; [tauto|].
    intros [->|Hin]; [tauto|]. destruct (IH Hin); tauto.
Qed.

(** The values of [new_list_id_map] are identifiers of lists now in the
    snapshot. *)
Lemma lists_synced_values l m l' m' v :
  lists_synced l m l' m' -> v ∈ m'.*2 -> v ∈ m.*2 \/ has_list l' v.
Proof.
  unfold has_list. induction 1 as [|r l m r' m1 l' m' Hr Hl IH]; [by left|].
  intros Hv. rewrite Exists_cons. destruct (IH Hv) as [Hin|Hex]; [|tauto].
  destruct Hr as [|old new r' body srv Hp Hold Hins Hnew]; [by left|].
  apply od_values_set in Hin as [->|Hin]; tauto.
Qed.

Lemma od_get_None_keys {V} k (d : odict V) : od_get k d = None -> k ∉ od_keys d.
Proof.
  intros Hnone Hin. apply od_keys_get in Hin as [v Hv]. congruence.
Qed.

(** After the migration, a key is a value of [new_list_id_map] or an old
    key that [new_list_id_map] does not mention. *)
Lemma migrated_keys (m : odict pyval) : forall (t : odict (list record)) k,
  k ∈ od_keys (fold_left rekey m t) ->
  k ∈ m.*2 \/ (k ∈ od_keys t /\ k ∉ od_keys m).
Proof.
  unfold od_keys at 3.
  induction m as [|[o n] m IH]; intros t k; simpl; [by right; split; [|set_solver]|].
  intros Hk. apply IH in Hk as [Hk|[Hk Hnot]].
  - left. by apply list_elem_of_further.
  - unfold rekey in Hk. simpl in Hk.
    destruct (od_get o t) as [b|] eqn:Ho.
    + apply od_keys_set in Hk as [->|Hk]; [left; apply list_elem_of_here|].
      apply od_keys_pop in Hk as [Hne Hk]. right. split; [done|].
      rewrite elem_of_cons. intros [->|Hin]; [done|]. by apply Hnot.
    + right. split; [done|].
      rewrite elem_of_cons. intros [->|Hin]; [|by apply Hnot].
      by apply od_get_None_keys in Ho.
Qed.

Lemma bucket_synced_keys (t t' : odict (list record)) :
  Forall2 bucket_synced t t' -> od_keys t' = od_keys t.
Proof.
  unfold od_keys. induction 1 as [|kb kb' t t' [Hk _] _ IH]; [done|].
  rewrite !fmap_cons. by rewrite Hk, IH.
Qed.

Lemma sync_to_google_integrity st st' :
  referential_integrity (data st) -> sync_to_google st = (Ok tt, st') ->
  referential_integrity (data st').
Proof.
  intros Hint Hrun. destruct (dirty st) eqn:Hd.
  - destruct (sync_to_google_ok _ _ Hd Hrun) as (l' & m & t' & Hl' & Ht' & ->).
    rewrite integrity_alt in *. simpl. intros k Hk.
    rewrite (bucket_synced_keys _ _ Ht') in Hk.
    apply migrated_keys in Hk as [Hk|[Hk Hnot]].
    + eapply lists_synced_values in Hk as [Hk|Hk]; [|done..].
      by apply elem_of_nil in Hk.
    + apply Hint in Hk. eapply lists_synced_ids in Hk as [Hk|Hk]; done.
  - rewrite sync_to_google_unfold, Hd in Hrun. by injection Hrun as <-.
Qed.

Lemma pull_tasks_ok ls : forall st st',
  pull_tasks ls st = (Ok tt, st') ->
  task_lists (data st') = task_lists (data st) /\
  forall k, k ∈ od_keys (tasks (data st')) ->
            k ∈ od_keys (tasks (data st)) \/ has_list ls k.
Proof.
  unfold has_list.
  induction ls as [|r ls IH]; intros st st' Hrun; simpl in Hrun.
  - injection Hrun as <-. auto.
  - apply bind_ok in Hrun as (list_id & s0 & Hid & Hrun).
    unfold lift, getitem in Hid.
    destruct (r !! "id") as [v|] eqn:Hr; [|done]. injection Hid as <- <-.
    apply bind_ok in Hrun as (ts & s1 & Hcall & Hrun).
    apply bind_ok in Hrun as ([] & s2 & Hset & Hrun).
    unfold with_data in Hset. injection Hset as <-.
    apply IH in Hrun as [Hl Hkeys]. simpl in *.
    unfold remote in Hcall. destruct (tasks_list v (service st)) as [res srv'].
    injection Hcall as -> <-. simpl in *.
    split; [done|]. intros k Hk. apply Hkeys in Hk as [Hk|Hk].
    + apply od_keys_set in Hk as [->|Hk]; [|by left].
      right. by constructor.
    + right. by apply Exists_cons_tl.
Qed.

Lemma sync_from_google_integrity st st' :
  sync_from_google st = (Ok tt, st') -> referential_integrity (data st').
Proof.
  unfold sync_from_google. intros Hrun.
  apply bind_ok in Hrun as (ls & s0 & Hcall & Hrun).
  apply bind_ok in Hrun as ([] & s1 & Hset1 & Hrun).
  apply bind_ok in Hrun as ([] & s2 & Hset2 & Hrun).
  apply bind_ok in Hrun as ([] & s3 & Hpull & Hrun).
  unfold with_data in Hset1, Hset2. injection Hset1 as <-. injection Hset2 as <-.
  unfold save_local_data in Hrun. injection Hrun as <-.
  apply pull_tasks_ok in Hpull as [Hl Hkeys]. simpl in *.
  apply integrity_alt. simpl. intros k Hk. rewrite Hl.
  apply Hkeys in Hk as [Hk|Hk]; [by apply elem_of_nil in Hk|done].
Qed.

(** C7. Referential integrity (every key of the [tasks] mapping is the
    identifier of a list in [task_lists]) is kept by every mutating
    operation, provided [add_task] is given a list identifier that is
    already the key of a bucket or the identifier of a list; it is kept by
    every sync pass that runs to completion (the buckets of the lists
    created remotely are re-keyed before the pass returns); and it holds
    after a completed pull from the server. *)
Theorem referential_integrity_preserved :
  (forall op st,
      referential_integrity (data st) ->
      (forall list_id title now,
          op = AddTask list_id title now -> known_list list_id (data st)) ->
      referential_integrity (data (run_op op st).2)) /\
  (forall st st',
      referential_integrity (data st) -> sync_to_google st = (Ok tt, st') ->
      referential_integrity (data st')) /\
  (forall st st',
      sync_from_google st = (Ok tt, st') -> referential_integrity (data st')).
Proof.
  split; [apply run_op_integrity|].
  split; [apply sync_to_google_integrity|apply sync_from_google_integrity].
Qed.
End Integrity.

Lemma referential_integrity_preserved_witness :
  referential_integrity (data (after sync_to_google (work_ship true))).
Proof.
  apply (proj1 (proj2 (referential_integrity_preserved (Srv := Server)))
           (work_ship true)).
  - apply (proj1 referential_integrity_preserved
             (AddTask (PStr "temp_list_1") (PStr "Ship") 1)
             (after (add_list (PStr "Work") 1) (clean_state true))).
    + apply (proj1 referential_integrity_preserved (AddList (PStr "Work") 1)
               (clean_state true)); [|done].
      apply (bool_decide_unpack _). vm_compute. exact I.
    + intros list_id title now [= <- _ _].
      apply (bool_decide_unpack _). vm_compute. exact I.
  - vm_compute. reflexivity.
Defined.

(** C7, as stated: [add_task] with a list identifier that names no list
    creates a bucket for it, and referential integrity is lost. *)
Lemma add_task_unknown_list_breaks_integrity :
  referential_integrity (data (clean_state true)) /\
  ~ referential_integrity
      (data (after (add_task (PStr "ghost") (PStr "Orphan") 1) (clean_state true))).
Proof.
  split.
  - apply (bool_decide_unpack _). vm_compute. exact I.
  - apply (bool_decide_eq_false_1 _). vm_compute. reflexivity.
Qed.

(** ** Persistence and the dirty flag *)

Section Dirty.
Context {Srv : Type} `{RemoteService Srv} `{Dateutil}.
Implicit Types (st : State Srv).

Lemma mutation_frame st st' :
  mutation st st' ->
  trace st' = trace st /\ storage st' = storage st /\
  service st' = service st /\ active_list_id st' = active_list_id st /\
  (st' = st \/ dirty st' = true).
Proof. destruct 1; repeat split; auto. Qed.

Lemma run_op_frame op st :
  trace (run_op op st).2 = trace st /\
  storage (run_op op st).2 = storage st /\
  service (run_op op st).2 = service st /\
  active_list_id (run_op op st).2 = active_list_id st /\
  ((run_op op st).2 = st \/ dirty (run_op op st).2 = true).
Proof.
  pose proof (run_op_mutation op st) as Hm.
  destruct op; try (by apply mutation_frame).
  - destruct Hm as [-> | ->]; repeat split; auto.
  - rewrite Hm. repeat split; auto.
Qed.

(** C2. A mutating operation of the cache writes nothing to the durable
    store: it leaves the storage file, the server and the trace of
    observable effects as they were, and marks the snapshot dirty whenever
    it changes the state. The snapshot is persisted by the sync pass: a
    pass on a dirty snapshot that runs to completion ends with the save of
    the snapshot it reached (the file then holds it unless the write
    fails), and clears [dirty]. *)
Theorem mutators_mark_dirty_sync_persists :
  (forall op st,
      trace (run_op op st).2 = trace st /\
      storage (run_op op st).2 = storage st /\
      service (run_op op st).2 = service st /\
      ((run_op op st).2 = st \/ dirty (run_op op st).2 = true)) /\
  (forall st st',
      dirty st = true -> sync_to_google st = (Ok tt, st') ->
      persisted_last st st' /\
      storage st' = save_data (data st') (storage st) /\
      dirty st' = false).
Proof.
  split.
  - intros op st. destruct (run_op_frame op st) as (? & ? & ? & _ & ?). auto.
  - intros st st' Hd Hrun.
    destruct (sync_ok_persisted _ _ Hd Hrun) as (? & ? & ?). auto.
Qed.

Lemma init_clean srv sto st : init srv sto = (Ok tt, st) -> dirty st = false.
Proof.
  unfold init. intros Hrun.
  apply bind_ok in Hrun as ([] & s1 & Hload & Hrun).
  apply bind_ok in Hrun as (v & s2 & Hdefault & Hrun).
  unfold set_active in Hrun. injection Hrun as <-. simpl.
  assert (dirty s1 = false) as Hs1.
  { destruct (task_lists (load_data sto)).
    - unfold sync_from_google in Hload.
      repeat (apply bind_ok in Hload as (? & ? & _ & Hload)).
      unfold save_local_data in Hload. by injection Hload as <-.
    - by injection Hload as <-. }
  unfold _get_default_task_list_id in Hdefault.
  apply bind_ok in Hdefault as (l & s3 & Hl & Hdefault).
  unfold gets in Hl. injection Hl as <- <-.
  destruct (task_lists (data s1)); unfold lift, ret in Hdefault;
    by injection Hdefault as _ <-.
Qed.

(** C6. [dirty] is false after construction and after every sync that
    runs to completion; after any of the nine operations that mutate the
    snapshot it is true, unless the operation left the state as it was;
    and [set_active_list], which changes the active list only, does not
    touch it. *)
Theorem dirty_flag_contract :
  (forall srv sto st, init srv sto = (Ok tt, st) -> dirty st = false) /\
  (forall st st', sync_to_google st = (Ok tt, st') -> dirty st' = false) /\
  (forall op st, (run_op op st).2 = st \/ dirty (run_op op st).2 = true) /\
  (forall list_id st,
      exists st',
        set_active_list list_id st = (Ok (RBool true), st') /\
        active_list_id st' = list_id /\
        dirty st' = dirty st /\ data st' = data st).
Proof.
  split; [apply init_clean|]. split; [apply sync_ok_clean|]. split.
  - intros op st. by destruct (run_op_frame op st) as (_ & _ & _ & _ & ?).
  - intros list_id st. by eexists.
Qed.
End Dirty.

Lemma mutators_mark_dirty_sync_persists_witness :
  let st := work_ship true in
  let st' := after sync_to_google st in
  persisted_last st st' /\
  storage st' = save_data (data st') (storage st) /\
  dirty st' = false.
Proof.
  apply (proj2 (mutators_mark_dirty_sync_persists (Srv := Server))
           (work_ship true)); vm_compute; reflexivity.
Defined.

(** C2, as stated: renaming a task changes the snapshot, and no save
    follows: the trace is still empty and the storage file still
    missing. *)
Lemma rename_task_does_not_persist :
  let st := clean_state true in
  let st' := after (rename_task (PStr "L1") (PStr "t1") (PStr "Buy milk")) st in
  data st' ≠ data st /\ dirty st' = true /\
  ~ persisted_last st st' /\ file (storage st') = None.
Proof.
  split; [|split; [|split]].
  - intros Heq.
    apply (f_equal (fun d => (bucket_of (PStr "L1") d !! 0) ≫= (.!! "title")))
      in Heq.
    vm_compute in Heq. discriminate Heq.
  - vm_compute. reflexivity.
  - intros [evs Hevs]. vm_compute in Hevs. by destruct evs.
  - vm_compute. reflexivity.
Qed.

Lemma dirty_flag_contract_witness :
  dirty (after sync_to_google (work_ship true)) = false.
Proof.
  apply (proj1 (proj2 (dirty_flag_contract (Srv := Server))) (work_ship true)).
  vm_compute. reflexivity.
Defined.

(** C6, as stated: [set_active_list] changes the state of the engine (the
    active list) and [dirty] is still false. *)
Lemma set_active_list_leaves_clean :
  let st := clean_state true in
  let st' := after (set_active_list (PStr "L2")) st in
  st' ≠ st /\ active_list_id st' ≠ active_list_id st /\ dirty st' = false.
Proof.
  split; [|split]; [| |vm_compute; reflexivity].
  - intros Heq. apply (f_equal active_list_id) in Heq. vm_compute in Heq.
    discriminate Heq.
  - vm_compute. discriminate.
Qed.

(** ** Remote failures during a sync pass *)

(** C1. The failure of a remote create is fatal to the pass. With the
    server unreachable and the list "Work" waiting to be created,
    [sync_to_google] raises the error of [tasklists().insert]: nothing is
    saved, the snapshot stays dirty and unchanged. With a task waiting to be
    created under a synced list, the failures of [tasks().get] for the two
    tasks before it are swallowed, and the failure of [tasks().insert]
    leaves the method in the same way. *)
Theorem remote_create_failure_aborts_sync :
  (let st := work_ship false in
   let st' := after sync_to_google st in
   (sync_to_google st).1 = Raise HttpError /\
   dirty st' = true /\ storage st' = storage st /\ data st' = data st /\
   trace st' = [EvRemote (TasklistsInsert (mk_record [("title", PStr "Work")]))]) /\
  (let st := after (add_task (PStr "L1") (PStr "Call") 3) (clean_state false) in
   let st' := after sync_to_google st in
   (sync_to_google st).1 = Raise HttpError /\
   dirty st' = true /\ storage st' = storage st /\ data st' = data st /\
   trace st' =
     [EvRemote (TasksGet (PStr "L1") (PStr "t1"));
      EvRemote (TasksGet (PStr "L1") (PStr "t2"));
      EvRemote (TasksInsert (PStr "L1") (mk_record [("title", PStr "Call")]))]).
Proof.
  split; repeat split; vm_compute; reflexivity.
Qed.

(** The failures the pass does swallow: with the server unreachable and
    only a tombstone and an unchanged task to reconcile, the pass runs to
    completion and saves the snapshot. *)
Lemma guarded_failures_are_swallowed :
  let st := after (delete_task (PStr "L1") (PStr "t1")) (clean_state false) in
  let st' := after sync_to_google st in
  (sync_to_google st).1 = Ok tt /\
  dirty st' = false /\ data st' = data st /\
  file (storage st') = Some (data st) /\
  trace st' =
    [EvRemote (TasksDelete (PStr "L1") (PStr "t1"));
     EvRemote (TasksGet (PStr "L1") (PStr "t2"));
     EvSave (data st)].
Proof.
  repeat split; vm_compute; reflexivity.
Qed.

(** ** Migration of the provisional identifiers *)

Section Migration.
Context {Srv : Type} `{RemoteService Srv} `{Dateutil}.
Implicit Types (st : State Srv) (r : record) (k : pyval).

Lemma has_remote_id_str r :
  has_remote_id r = true ->
  exists s, r !! "id" = Some (PStr s) /\ String.prefix "temp_" s = false.
Proof.
  unfold has_remote_id. destruct (r !! "id") as [[| |s]|]; try done.
  intros Hp. exists s. split; [done|]. by apply negb_true_iff.
Qed.

Lemma wf_record_str p r :
  wf_record p r = true ->
  exists s, r !! "id" = Some (PStr s) /\
            (pending p r = true -> is_Some (r !! "title")).
Proof.
  unfold wf_record. destruct (r !! "id") as [[| |s]|]; try done.
  intros Hwf. exists s. split; [done|]. intros Hp. rewrite Hp in Hwf.
  simpl in Hwf. by apply bool_decide_eq_true in Hwf.
Qed.

Lemma sync_list_total i r m st :
  assigns_remote_ids -> wf_record "temp_list_" r = true ->
  exists m' st', sync_list i r m st = (Ok m', st').
Proof.
  intros (Hcreate & _ & _) Hwf.
  apply wf_record_str in Hwf as (s & Hid & Htitle).
  unfold pending, provisional in Htitle. rewrite Hid in Htitle.
  unfold sync_list, bind, lift, getitem, startswith, try_pass, try_except,
    remote, store_list, with_data, ret.
  rewrite Hid. destruct (get_truthy "deleted" r); simpl.
  - destruct (String.prefix "temp_list_" s); simpl; [by eexists _, _|].
    destruct (tasklists_delete _ _) as [[|] ?]; by eexists _, _.
  - destruct (String.prefix "temp_list_" s); simpl; [|by eexists _, _].
    destruct Htitle as [title ->]; [done|].
    destruct (Hcreate (<["title" := title]> ∅) (service st))
      as (new_list & srv' & -> & Hremote).
    apply has_remote_id_str in Hremote as (s' & -> & _). by eexists _, _.
Qed.

Lemma sync_lists_total l : forall i m st,
  assigns_remote_ids -> forallb (wf_record "temp_list_") l = true ->
  exists m' st', sync_lists i l m st = (Ok m', st').
Proof.
  induction l as [|r l IH]; intros i m st Hsrv Hwf; simpl; [by eexists _, _|].
  simpl in Hwf. apply andb_true_iff in Hwf as [Hr Hl].
  destruct (sync_list_total i r m st Hsrv Hr) as (m1 & s1 & Hstep).
  unfold bind. rewrite Hstep. by apply IH.
Qed.

Lemma sync_task_total j list_id i r st :
  assigns_remote_ids -> wf_record "temp_" r = true ->
  exists st', sync_task j list_id i r st = (Ok tt, st').
Proof.
  intros (_ & Hcreate & _) Hwf.
  apply wf_record_str in Hwf as (s & Hid & Htitle).
  unfold pending, provisional in Htitle. rewrite Hid in Htitle.
  unfold sync_task, bind, lift, getitem, startswith, try_pass, try_except,
    remote, store_bucket_item, with_data, ret.
  rewrite Hid. destruct (get_truthy "deleted" r); simpl.
  - destruct (String.prefix "temp_" s); simpl; [by eexists|].
    destruct (tasks_delete _ _ _) as [[[]|] ?]; by eexists.
  - destruct (String.prefix "temp_" s); simpl.
    + destruct Htitle as [title ->]; [done|].
      destruct (Hcreate list_id
                  (copy_field "notes" r
                     (copy_field "due" r (<["title" := title]> ∅)))
                  (service st)) as (new_task & srv' & -> & _).
      by eexists.
    + destruct (tasks_get _ _ _) as [[google_task|] ?]; [|by eexists].
      destruct (differs google_task r); [|by eexists].
      destruct (tasks_update _ _ _ _) as [[updated_task|] ?]; by eexists.
Qed.

Lemma sync_bucket_total j list_id ts : forall i st,
  assigns_remote_ids -> forallb (wf_record "temp_") ts = true ->
  exists st', sync_bucket j list_id i ts st = (Ok tt, st').
Proof.
  induction ts as [|r ts IH]; intros i st Hsrv Hwf; simpl; [by eexists|].
  simpl in Hwf. apply andb_true_iff in Hwf as [Hr Hts].
  destruct (sync_task_total j list_id i r st Hsrv Hr) as (s1 & Hstep).
  unfold bind. rewrite Hstep. by apply IH.
Qed.

Lemma sync_buckets_total items : forall j st,
  assigns_remote_ids -> forallb wf_bucket items = true ->
  exists st', sync_buckets j items st = (Ok tt, st').
Proof.
  induction items as [|[list_id ts] items IH]; intros j st Hsrv Hwf; simpl;
    [by eexists|].
  simpl in Hwf. apply andb_true_iff in Hwf as [Hb Hitems].
  unfold wf_bucket in Hb. simpl in Hb.
  destruct list_id as [| |s]; try done.
  unfold bind, lift. simpl.
  destruct (String.prefix "temp_list_" s); simpl; [by apply IH|].
  destruct (sync_bucket_total j (PStr s) ts 0 st Hsrv Hb) as (s1 & ->).
  by apply IH.
Qed.

(** *** Identifiers *)

Lemma prefix_app_l (a b s : string) :
  String.prefix (a +:+ b) s = true -> String.prefix a s = true.
Proof.
  revert s. induction a as [|c a IH]; intros [|c' s]; simpl; try done.
  destruct (Ascii.ascii_dec c c'); [apply IH|done].
Qed.

Lemma prefix_temp_list s :
  String.prefix "temp_list_" s = true -> String.prefix "temp_" s = true.
Proof. apply (prefix_app_l "temp_" "list_"). Qed.

Lemma remote_id_not_pending r :
  has_remote_id r = true ->
  pending "temp_" r = false /\ pending "temp_list_" r = false.
Proof.
  intros (s & Hid & Hp)%has_remote_id_str.
  split; eapply pending_false_prefix; try done.
  destruct (String.prefix "temp_list_" s) eqn:Hl; [|done].
  apply prefix_temp_list in Hl. congruence.
Qed.

Lemma pending_id p r :
  pending p r = true ->
  get_truthy "deleted" r = false /\
  exists s, r !! "id" = Some (PStr s) /\ String.prefix p s = true.
Proof.
  unfold pending, provisional. intros [Hd Hp]%andb_true_iff.
  split; [by apply negb_true_iff|].
  destruct (r !! "id") as [[| |s]|]; try done. by exists s.
Qed.

(** *** The first loop *)

Lemma list_synced_done r m r' m' :
  assigns_remote_ids -> list_synced r m r' m' ->
  pending "temp_list_" r' = false /\
  (pending "temp_list_" r = true -> has_remote_id r' = true).
Proof.
  intros (Hcreate & _ & _) [Hp|old new new_list body srv Hp Hold Hins Hnew].
  - split; [done|congruence].
  - destruct (Hcreate body srv) as (x & srv' & Hx & Hremote).
    rewrite Hx in Hins. simpl in Hins. injection Hins as <-.
    split; [by apply remote_id_not_pending|done].
Qed.

Lemma lists_synced_lookup l m l' m' i r :
  lists_synced l m l' m' -> l !! i = Some r ->
  exists r' ma mb, l' !! i = Some r' /\ list_synced r ma r' mb.
Proof.
  intros Hl. revert i. induction Hl as [|r0 l m r0' m1 l' m' Hr Hl IH];
    intros i Hi; [done|].
  destruct i as [|i]; simpl in *.
  - injection Hi as ->. by eexists _, _, _.
  - by apply IH.
Qed.

Lemma lists_synced_done l m l' m' :
  assigns_remote_ids -> lists_synced l m l' m' ->
  Forall (fun r => pending "temp_list_" r = false) l'.
Proof.
  intros Hsrv. induction 1 as [|r l m r' m1 l' m' Hr Hl IH]; constructor;
    [|done].
  by eapply list_synced_done.
Qed.

Lemma lists_synced_pending_key l m l' m' r old :
  lists_synced l m l' m' -> r ∈ l -> pending "temp_list_" r = true ->
  r !! "id" = Some old -> old ∈ od_keys m'.
Proof.
  induction 1 as [|r0 l m r0' m1 l' m' Hr Hl IH]; intros Hin Hp Hid.
  - by apply elem_of_nil in Hin.
  - apply elem_of_cons in Hin as [->|Hin]; [|by apply IH].
    eapply lists_synced_keys; [done|].
    destruct Hr as [Hp'|old' new new_list body srv Hp' Hold Hins Hnew];
      [congruence|].
    apply od_keys_set. left. congruence.
Qed.

(** The values of [new_list_id_map] are identifiers of the server, its
    keys provisional identifiers of lists. *)
Lemma lists_synced_values_remote l m l' m' v :
  assigns_remote_ids -> lists_synced l m l' m' -> v ∈ m'.*2 ->
  v ∈ m.*2 \/ exists s, v = PStr s /\ String.prefix "temp_" s = false.
Proof.
  intros Hsrv. induction 1 as [|r l m r' m1 l' m' Hr Hl IH]; [by left|].
  intros Hv. destruct (IH Hv) as [Hin|Hex]; [|by right].
  destruct (list_synced_done _ _ _ _ Hsrv Hr) as [_ Hremote].
  destruct Hr as [|old new new_list body srv Hp Hold Hins Hnew]; [by left|].
  apply od_values_set in Hin as [->|Hin]; [|by left].
  right. apply Hremote, has_remote_id_str in Hp as (s & Hs & Hpre).
  exists s. split; [congruence|done].
Qed.

Lemma lists_synced_keys_provisional l m l' m' k :
  lists_synced l m l' m' -> k ∈ od_keys m' ->
  k ∈ od_keys m \/ exists s, k = PStr s /\ String.prefix "temp_list_" s = true.
Proof.
  induction 1 as [|r l m r' m1 l' m' Hr Hl IH]; [by left|].
  intros Hk. destruct (IH Hk) as [Hin|Hex]; [|by right].
  destruct Hr as [|old new new_list body srv Hp Hold Hins Hnew]; [by left|].
  apply od_keys_set in Hin as [->|Hin]; [|by left].
  right. apply pending_id in Hp as (_ & s & Hs & Hpre).
  exists s. split; [congruence|done].
Qed.

Lemma od_set_NoDup_keys {V} k (v : V) (d : odict V) :
  NoDup (od_keys d) -> NoDup (od_keys (od_set k v d)).
Proof.
  unfold od_keys. induction d as [|[k' v'] d IH]; simpl.
  - intros _. apply NoDup_singleton.
  - rewrite !NoDup_cons. intros [Hnot Hnd].
    destruct (decide (k' = k)) as [->|Hne]; simpl.
    + by rewrite NoDup_cons.
    + rewrite NoDup_cons. split; [|auto].
      intros Hin. apply (od_keys_set k' k v d) in Hin as [?|?]; done.
Qed.

Lemma lists_synced_NoDup l m l' m' :
  lists_synced l m l' m' -> NoDup (od_keys m) -> NoDup (od_keys m').
Proof.
  induction 1 as [|r l m r' m1 l' m' Hr Hl IH]; [done|].
  intros Hnd. apply IH. destruct Hr; [done|]. by apply od_set_NoDup_keys.
Qed.

(** Where an entry of [new_list_id_map] comes from. *)
Lemma lists_synced_entries l m l' m' o n :
  lists_synced l m l' m' -> od_get o m' = Some n ->
  od_get o m = Some n \/
  exists j r r',
    l !! j = Some r /\ pending "temp_list_" r = true /\ r !! "id" = Some o /\
    l' !! j = Some r' /\ r' !! "id" = Some n.
Proof.
  induction 1 as [|r l m r' m1 l' m' Hr Hl IH]; [by left|].
  intros Hget. destruct (IH Hget) as [Hm1|(j & x & x' & ?)].
  - destruct Hr as [|old new new_list body srv Hp Hold Hins Hnew]; [by left|].
    destruct (decide (old = o)) as [->|Hne].
    + rewrite od_get_set_eq in Hm1. injection Hm1 as ->.
      right. by exists 0, r, new_list.
    + rewrite od_get_set_ne in Hm1 by done. by left.
  - right. by exists (S j), x, x'.
Qed.

Lemma lists_synced_get_stable l m l' m' old :
  lists_synced l m l' m' ->
  (forall j r, l !! j = Some r -> pending "temp_list_" r = true ->
               r !! "id" ≠ Some old) ->
  od_get old m' = od_get old m.
Proof.
  induction 1 as [|r l m r' m1 l' m' Hr Hl IH]; [done|].
  intros Hothers. rewrite IH; [|intros j; apply (Hothers (S j))].
  destruct Hr as [|old' new new_list body srv Hp Hold Hins Hnew]; [done|].
  apply od_get_set_ne. intros ->. by apply (Hothers 0 r).
Qed.

(** The entry of a list that is alone in waiting under its identifier. *)
Lemma lists_synced_get l m l' m' : lists_synced l m l' m' ->
  forall i r old,
    l !! i = Some r -> pending "temp_list_" r = true -> r !! "id" = Some old ->
    (forall j r2, l !! j = Some r2 -> pending "temp_list_" r2 = true ->
                  r2 !! "id" = Some old -> j = i) ->
    exists r' new,
      l' !! i = Some r' /\ r' !! "id" = Some new /\ od_get old m' = Some new.
Proof.
  induction 1 as [|r0 l m r0' m1 l' m' Hr Hl IH]; intros i r old Hi Hp Hid Huniq;
    [done|].
  destruct i as [|i]; simpl in *.
  - injection Hi as ->.
    destruct Hr as [Hp'|old' new new_list body srv Hp' Hold Hins Hnew];
      [congruence|].
    assert (old' = old) as -> by congruence.
    exists new_list, new. split; [done|]. split; [done|].
    rewrite (lists_synced_get_stable _ _ _ _ old Hl).
    + apply od_get_set_eq.
    + intros j r2 Hj Hp2 Hid2. by specialize (Huniq (S j) r2 Hj Hp2 Hid2).
  - apply (IH i r old Hi Hp Hid).
    intros j r2 Hj Hp2 Hid2.
    specialize (Huniq (S j) r2 Hj Hp2 Hid2). lia.
Qed.

(** *** The migration of the buckets *)

Lemma migrated_absent (m : odict pyval) (t : odict (list record)) k :
  k ∉ od_keys t -> k ∉ m.*2 -> k ∉ od_keys (fold_left rekey m t).
Proof.
  intros Ht Hm Hk. apply migrated_keys in Hk as [Hk|[Hk _]]; done.
Qed.

Lemma rekey_pops (t : odict (list record)) o n : o ≠ n -> o ∉ od_keys (rekey t (o, n)).
Proof.
  intros Hne. unfold rekey. simpl.
  destruct (od_get o t) as [b|] eqn:Ho; [|by apply od_get_None_keys].
  rewrite od_keys_set, od_keys_pop. tauto.
Qed.

(** A key of [new_list_id_map] that is not one of its values is no longer
    a key of the mapping after the migration. *)
Lemma migrated_gone (m : odict pyval) : forall (t : odict (list record)) k,
  k ∈ od_keys m -> k ∉ m.*2 -> k ∉ od_keys (fold_left rekey m t).
Proof.
  induction m as [|[o n] m IH]; intros t k Hk Hv.
  - by apply elem_of_nil in Hk.
  - simpl. unfold od_keys in Hk. rewrite fmap_cons, elem_of_cons in Hk.
    rewrite fmap_cons, not_elem_of_cons in Hv. destruct Hv as [Hn Hv].
    destruct (decide (k ∈ od_keys m)) as [Hin|Hnotin]; [by apply IH|].
    destruct Hk as [Hk|Hk]; [|done]. simpl in Hk. subst o.
    apply migrated_absent; [|done]. by apply rekey_pops.
Qed.

Lemma migrated_get_stable (m : odict pyval) : forall (t : odict (list record)) k,
  k ∉ od_keys m -> k ∉ m.*2 -> od_get k (fold_left rekey m t) = od_get k t.
Proof.
  induction m as [|[o n] m IH]; intros t k Hk Hv; [done|].
  unfold od_keys in Hk. rewrite fmap_cons, not_elem_of_cons in Hk.
  rewrite fmap_cons, not_elem_of_cons in Hv.
  destruct Hk as [Ho Hk], Hv as [Hn Hv]. simpl in *.
  rewrite IH by done. unfold rekey. simpl.
  destruct (od_get o t) as [b|]; [|done].
  rewrite od_get_set_ne by done. by rewrite od_get_pop_ne.
Qed.

Lemma od_get_elem {V} k (v : V) (d : odict V) : od_get k d = Some v -> (k, v) ∈ d.
Proof.
  induction d as [|[k' v'] d IH]; simpl; [done|].
  destruct (decide (k' = k)) as [->|].
  - intros [= ->]. apply list_elem_of_here.
  - intros Hg. apply list_elem_of_further. auto.
Qed.

Lemma elem_od_get {V} k (v : V) (d : odict V) :
  NoDup (od_keys d) -> (k, v) ∈ d -> od_get k d = Some v.
Proof.
  unfold od_keys. induction d as [|[k' v'] d IH]; simpl.
  - intros _ Hin. by apply elem_of_nil in Hin.
  - rewrite NoDup_cons, elem_of_cons. intros [Hnot Hnd] [Heq|Hin].
    + injection Heq as -> ->. by rewrite decide_True.
    + rewrite decide_False; [auto|]. intros ->. apply Hnot.
      apply list_elem_of_fmap. by exists (k, v).
Qed.

(** The bucket of [old] is found under [new] after the migration, if
    [new_list_id_map] sends [old] to [new] and nothing else to [new]. *)
Lemma migrated_get (m : odict pyval) : forall (t : odict (list record)) old new b,
  NoDup (od_keys m) -> (old, new) ∈ m -> od_get old t = Some b ->
  (forall v, v ∈ m.*2 -> v ∉ od_keys m) ->
  (forall o, (o, new) ∈ m -> o = old) ->
  od_get new (fold_left rekey m t) = Some b.
Proof.
  induction m as [|[o n] m IH]; intros t old new b Hnd Hin Hb Hdisj Honly.
  - by apply elem_of_nil in Hin.
  - unfold od_keys in Hnd. rewrite fmap_cons, NoDup_cons in Hnd.
    destruct Hnd as [Hnot Hnd]. simpl in Hnot.
    assert (forall v, v ∈ m.*2 -> v ∉ od_keys m) as Hdisj'.
    { intros v Hv Hk. apply (Hdisj v).
      - rewrite fmap_cons. by apply list_elem_of_further.
      - unfold od_keys. rewrite fmap_cons. by apply list_elem_of_further. }
    apply elem_of_cons in Hin as [Heq|Hin]; simpl.
    + injection Heq as <- <-.
      rewrite migrated_get_stable.
      * unfold rekey. simpl. rewrite Hb. apply od_get_set_eq.
      * intros Hk. apply (Hdisj new).
        -- rewrite fmap_cons. apply list_elem_of_here.
        -- unfold od_keys. rewrite fmap_cons. by apply list_elem_of_further.
      * intros Hv. apply list_elem_of_fmap in Hv as ([o2 n2] & Hn2 & Hin2).
        simpl in Hn2. subst n2.
        assert (o2 = old) as -> by (apply Honly; by apply list_elem_of_further).
        apply Hnot. apply list_elem_of_fmap. by exists (old, new).
    + assert (o ≠ old) as Hne.
      { intros ->. apply Hnot. apply list_elem_of_fmap. by exists (old, new). }
      assert (n ≠ old) as Hne'.
      { intros ->. apply (Hdisj old).
        - rewrite fmap_cons. apply list_elem_of_here.
        - unfold od_keys. rewrite fmap_cons. apply list_elem_of_further.
          apply list_elem_of_fmap. by exists (old, new). }
      apply (IH _ old new b); try done.
      * unfold rekey. simpl. destruct (od_get o t) as [b0|]; [|done].
        rewrite od_get_set_ne by done. by rewrite od_get_pop_ne.
      * intros o2 Ho2. apply Honly. by apply list_elem_of_further.
Qed.

Lemma od_pop_forallb {V} (P : pyval * V -> bool) k (d : odict V) :
  forallb P d = true -> forallb P (od_pop k d) = true.
Proof.
  induction d as [|[k' v'] d IH]; simpl; [done|].
  intros [Hkv Hd]%andb_true_iff.
  destruct (decide (k' = k)); simpl; [auto|]. rewrite Hkv. auto.
Qed.

Lemma od_set_forallb {V} (P : pyval * V -> bool) k v (d : odict V) :
  forallb P d = true -> P (k, v) = true -> forallb P (od_set k v d) = true.
Proof.
  intros Hd Hkv. induction d as [|[k' v'] d IH]; simpl; [by rewrite Hkv|].
  simpl in Hd. apply andb_true_iff in Hd as [Hkv' Hd].
  destruct (decide (k' = k)); simpl; [by rewrite Hkv|].
  rewrite Hkv'. auto.
Qed.

Lemma od_get_forallb {V} (P : pyval * V -> bool) k v (d : odict V) :
  forallb P d = true -> od_get k d = Some v -> P (k, v) = true.
Proof.
  induction d as [|[k' v'] d IH]; simpl; [done|].
  intros [Hkv Hd]%andb_true_iff.
  destruct (decide (k' = k)) as [->|]; [by intros [= <-]|auto].
Qed.

Lemma migrated_wf (m : odict pyval) : forall (t : odict (list record)),
  forallb wf_bucket t = true ->
  (forall v, v ∈ m.*2 -> exists s, v = PStr s) ->
  forallb wf_bucket (fold_left rekey m t) = true.
Proof.
  induction m as [|[o n] m IH]; intros t Hwf Hstr; [done|]. simpl.
  apply IH.
  - unfold rekey. simpl. destruct (od_get o t) as [b|] eqn:Ho; [|done].
    apply od_set_forallb; [by apply od_pop_forallb|].
    destruct (Hstr n) as [s ->]; [rewrite fmap_cons; apply list_elem_of_here|].
    apply (od_get_forallb wf_bucket _ _ _ Hwf) in Ho.
    unfold wf_bucket in *. simpl in *. by destruct o.
  - intros v Hv. apply Hstr. rewrite fmap_cons. by apply list_elem_of_further.
Qed.

(** A sync pass on a dirty, well-formed snapshot runs to completion when
    the server creates what it is asked to create, whatever becomes of the
    other calls. *)
Lemma sync_to_google_total st :
  assigns_remote_ids -> dirty st = true -> wf_snapshot (data st) = true ->
  exists st', sync_to_google st = (Ok tt, st').
Proof.
  intros Hsrv Hd [Hlists Hbuckets]%andb_true_iff.
  rewrite sync_to_google_unfold, Hd. unfold sync_passes, bind, gets.
  destruct (sync_lists_total (task_lists (data st)) 0 [] st Hsrv Hlists)
    as (m & s1 & Hrun).
  rewrite Hrun.
  apply (sync_lists_ok _ _ _ _ _ _ []) in Hrun as (l' & Hl' & Hs1); [|done..].
  unfold migrate_buckets, with_data. simpl.
  match goal with
  | |- context [sync_buckets 0 ?t ?s] =>
      destruct (sync_buckets_total t 0 s Hsrv) as (s3 & ->); [|by eexists]
  end.
  rewrite Hs1. simpl. apply migrated_wf; [done|].
  intros v Hv.
  eapply lists_synced_values_remote in Hv as [Hv|(s & -> & _)]; [| |done..].
  - by apply elem_of_nil in Hv.
  - by exists s.
Qed.

(** *** The last loop *)

Lemma task_synced_migrated list_id r r' :
  assigns_remote_ids -> task_synced list_id r r' -> task_migrated r r'.
Proof.
  intros (_ & Hcreate & Hupdate)
    [Hp|new_task body srv Hp Hins|updated_task id srv Hp Hd Hupd].
  - split; [congruence|]. by split.
  - destruct (Hcreate list_id body srv) as (x & srv' & Hx & Hremote).
    rewrite Hx in Hins. simpl in Hins. injection Hins as <-.
    split; [done|]. split; [|by apply remote_id_not_pending].
    apply pending_id in Hp as [Hd _]. congruence.
  - apply Hupdate in Hupd. split; [done|].
    split; [congruence|by apply remote_id_not_pending].
Qed.

Lemma bucket_synced_get (t t' : odict (list record)) k b :
  Forall2 bucket_synced t t' -> od_get k t = Some b ->
  exists b', od_get k t' = Some b' /\ bucket_synced (k, b) (k, b').
Proof.
  induction 1 as [|[k1 b1] [k2 b2] t t' Hkb _ IH]; simpl; [done|].
  destruct Hkb as [Hk Hb]. simpl in Hk. subst k2.
  destruct (decide (k1 = k)) as [->|]; [|done].
  intros [= ->]. exists b2. by split.
Qed.

Lemma bucket_synced_elem (t t' : odict (list record)) k b' :
  Forall2 bucket_synced t t' -> (k, b') ∈ t' ->
  exists b, (k, b) ∈ t /\ bucket_synced (k, b) (k, b').
Proof.
  induction 1 as [|[k1 b1] [k2 b2] t t' Hkb _ IH].
  - intros Hin. by apply elem_of_nil in Hin.
  - rewrite elem_of_cons. intros [Heq|Hin].
    + injection Heq as <- <-. destruct Hkb as [Hk Hb]. simpl in Hk. subst k1.
      exists b1. split; [apply list_elem_of_here|by split].
    + destruct (IH Hin) as (b & Hb & Hsync).
      exists b. split; [by apply list_elem_of_further|done].
Qed.

Lemma bucket_synced_migrated k b b' :
  assigns_remote_ids -> bucket_synced (k, b) (k, b') ->
  startswith k "temp_list_" = Ok false ->
  Forall2 task_migrated b b'.
Proof.
  intros Hsrv [_ [[Htemp _]|[_ Hts]]] Hk; simpl in *; [congruence|].
  eapply Forall2_impl; [exact Hts|].
  intros r r'. by apply task_synced_migrated.
Qed.

Lemma task_migrated_done (b b' : list record) :
  Forall2 task_migrated b b' -> Forall (fun r => pending "temp_" r = false) b'.
Proof. induction 1 as [|r r' b b' (_ & _ & Hr)]; by constructor. Qed.

(** C3. After a sync pass on a dirty snapshot with a server that creates
    what it is asked to create and hands out identifiers of its own: the
    pass runs to completion and clears [dirty]; no list that is not
    tombstoned has a provisional identifier; in every bucket that is not
    keyed by a provisional list identifier, no task that is not tombstoned
    has a provisional identifier; and for every list that was waiting to be
    created, the record at its position is the server's, with a remote
    identifier, its provisional identifier no longer keys a bucket, and
    (when no other waiting list shared its provisional identifier and the
    server gave its new identifier to no other list of this pass) its
    bucket is found under the new identifier, task for task: a task that
    was waiting to be created is now a server record with a remote
    identifier, and a tombstoned task is left as it was, provisional
    identifier included. *)
Theorem provisional_ids_migrate st :
  assigns_remote_ids -> dirty st = true -> wf_snapshot (data st) = true ->
  exists st',
    sync_to_google st = (Ok tt, st') /\ dirty st' = false /\
    Forall (fun r => pending "temp_list_" r = false) (task_lists (data st')) /\
    (forall k b,
        (k, b) ∈ tasks (data st') -> startswith k "temp_list_" = Ok false ->
        Forall (fun r => pending "temp_" r = false) b) /\
    (forall i r old,
        task_lists (data st) !! i = Some r ->
        pending "temp_list_" r = true -> r !! "id" = Some old ->
        (old ∉ od_keys (tasks (data st'))) /\
        exists r',
          task_lists (data st') !! i = Some r' /\ has_remote_id r' = true /\
          forall b new,
            od_get old (tasks (data st)) = Some b -> r' !! "id" = Some new ->
            (forall j r2,
                task_lists (data st) !! j = Some r2 ->
                pending "temp_list_" r2 = true -> r2 !! "id" = Some old ->
                j = i) ->
            (forall j r2 r2',
                j ≠ i -> task_lists (data st) !! j = Some r2 ->
                pending "temp_list_" r2 = true ->
                task_lists (data st') !! j = Some r2' ->
                r2' !! "id" ≠ Some new) ->
            exists b',
              od_get new (tasks (data st')) = Some b' /\
              Forall2 task_migrated b b').
Proof.
  intros Hsrv Hd Hwf.
  destruct (sync_to_google_total st Hsrv Hd Hwf) as (st' & Hrun).
  exists st'. split; [done|]. split; [by eapply sync_ok_clean|].
  destruct (sync_to_google_ok _ _ Hd Hrun) as (l' & m & t' & Hl' & Ht' & ->).
  simpl. clear Hrun.
  assert (forall v, v ∈ m.*2 ->
            exists s, v = PStr s /\ String.prefix "temp_" s = false) as Hvalues.
  { intros v Hv.
    eapply lists_synced_values_remote in Hv as [Hv|?]; [|done..].
    by apply elem_of_nil in Hv. }
  assert (forall k, k ∈ od_keys m ->
            exists s, k = PStr s /\ String.prefix "temp_list_" s = true) as Hkeys.
  { intros k Hk.
    eapply lists_synced_keys_provisional in Hk as [Hk|?]; [|done..].
    by apply elem_of_nil in Hk. }
  assert (forall v, v ∈ m.*2 -> v ∉ od_keys m) as Hdisj.
  { intros v (s & -> & Hs)%Hvalues (s' & [= <-] & Hs'%prefix_temp_list)%Hkeys.
    congruence. }
  split; [by eapply lists_synced_done|]. split.
  - intros k b Hin Hk.
    destruct (bucket_synced_elem _ _ _ _ Ht' Hin) as (b0 & _ & Hsync).
    eapply task_migrated_done, bucket_synced_migrated; done.
  - intros i r old Hi Hp Hid.
    assert (old ∈ od_keys m) as Hold.
    { eapply lists_synced_pending_key; [done| |done..].
      by eapply list_elem_of_lookup_2. }
    split.
    { rewrite (bucket_synced_keys _ _ Ht').
      apply migrated_gone; [done|]. intros Hv. by apply (Hdisj old). }
    destruct (lists_synced_lookup _ _ _ _ _ _ Hl' Hi)
      as (r' & ma & mb & Hi' & Hsync).
    destruct (list_synced_done _ _ _ _ Hsrv Hsync) as [_ Hremote].
    exists r'. split; [done|]. split; [by apply Hremote|].
    intros b new Hb Hnew Huniq Hfresh.
    destruct (lists_synced_get _ _ _ _ Hl' i r old Hi Hp Hid Huniq)
      as (r'' & new' & Hi'' & Hnew' & Hget).
    assert (r'' = r') as -> by congruence.
    assert (new' = new) as -> by congruence.
    assert (NoDup (od_keys m)) as Hnd.
    { eapply lists_synced_NoDup; [done|]. apply NoDup_nil_2. }
    assert (od_get new (fold_left rekey m (tasks (data st))) = Some b) as Hmoved.
    { apply (migrated_get m _ old new b); try done.
      - by apply od_get_elem.
      - intros o Ho. apply (elem_od_get _ _ _ Hnd) in Ho.
        destruct (lists_synced_entries _ _ _ _ _ _ Hl' Ho)
          as [Ho'|(j & x & x' & Hj & Hpj & Hidj & Hj' & Hidj')]; [done|].
        destruct (decide (j = i)) as [->|Hne]; [congruence|].
        by destruct (Hfresh j x x' Hne Hj Hpj Hj'). }
    destruct (bucket_synced_get _ _ _ _ Ht' Hmoved) as (b' & Hb' & Hsync').
    exists b'. split; [done|].
    apply (bucket_synced_migrated new); [done..|].
    apply Hremote, has_remote_id_str in Hp as (s & Hs & Hpre).
    assert (new = PStr s) as -> by congruence. simpl.
    destruct (String.prefix "temp_list_" s) eqn:Hl; [|done].
    apply prefix_temp_list in Hl. congruence.
Qed.
End Migration.

Lemma cloud_assigns_remote_ids : assigns_remote_ids (Srv := Cloud).
Proof.
  split; [|split].
  - intros body srv. eexists _, _. split; [reflexivity|].
    unfold has_remote_id. by rewrite lookup_insert_eq.
  - intros list_id body srv. eexists _, _. split; [reflexivity|].
    unfold has_remote_id. by rewrite lookup_insert_eq.
  - intros list_id id body srv updated_task. simpl.
    destruct (has_remote_id body) eqn:Hbody; simpl; [|done]. by intros [= <-].
Qed.

Lemma provisional_ids_migrate_witness :
  exists st',
    sync_to_google cloud_work_ship_drop = (Ok tt, st') /\ dirty st' = false /\
    Forall (fun r => pending "temp_list_" r = false) (task_lists (data st')).
Proof.
  destruct (provisional_ids_migrate cloud_work_ship_drop)
    as (st' & Hrun & Hclean & Hlists & _).
  - exact cloud_assigns_remote_ids.
  - vm_compute. reflexivity.
  - vm_compute. reflexivity.
  - exists st'. split; [exact Hrun|]. split; [exact Hclean|exact Hlists].
Defined.

(** The scenario of the specification: add the list "Work", add the task
    "Ship" to it, sync. The list and the task carry remote identifiers, the
    bucket is keyed by the list's, and [dirty] is false. *)
Example work_ship_synced :
  let st' := after sync_to_google (work_ship true) in
  dirty st' = false /\
  task_lists (data st') !! 1
  = Some (mk_record [("id", PStr "srv_7"); ("title", PStr "Work")]) /\
  od_get (PStr "temp_list_1") (tasks (data st')) = None /\
  od_get (PStr "srv_7") (tasks (data st'))
  = Some [mk_record [("id", PStr "srv_8"); ("title", PStr "Ship");
                     ("status", PStr "needsAction")]].
Proof. repeat split; vm_compute; reflexivity. Qed.

(** C3, as stated: the list "Work" is created locally with the tasks
    "Ship" and "Drop", "Drop" is deleted again, and the sync runs against
    a reachable server, where no call fails. The bucket is re-keyed to the
    list's remote identifier ["srv_7"] and "Ship" gets the remote identifier
    ["srv_8"], but the tombstone of "Drop" is still there under its
    provisional identifier ["temp_2"]. *)
Lemma provisional_tombstone_survives_sync :
  let st' := after sync_to_google (work_ship_drop true) in
  let ship := mk_record [("id", PStr "srv_8"); ("title", PStr "Ship");
                         ("status", PStr "needsAction")] in
  let drop := mk_record [("id", PStr "temp_2"); ("title", PStr "Drop");
                         ("status", PStr "needsAction"); ("deleted", PBool true)] in
  (sync_to_google (work_ship_drop true)).1 = Ok tt /\
  dirty st' = false /\
  bucket (PStr "srv_7") st' = [ship; drop] /\
  provisional "temp_" drop = true.
Proof.
  split; [vm_compute; reflexivity|]. split; [vm_compute; reflexivity|].
  split; vm_compute; reflexivity.
Qed.

(* ===================================================================== *)
(** * Further properties of the code *)
(* ===================================================================== *)

(** ** Lookups that find nothing, or meet a malformed record *)

Section Lookups.
Context {Srv : Type} `{RemoteService Srv} `{Dateutil}.
Implicit Types (st : State Srv) (list_id task_id : pyval) (l : list record).

Lemma find_by_id_blocked id l n : blocked id l -> find_by_id id l n = Raise KeyError.
Proof.
  intros (pre & bad & rest & -> & Habs & Hbad). revert n.
  induction pre as [|y pre IH]; intros n; simpl.
  - by rewrite Hbad.
  - apply Forall_cons in Habs as [[[v Hv] Hne] Habs].
    rewrite Hv, decide_False by congruence. by apply IH.
Qed.

Lemma absent_nil id : absent id [].
Proof. constructor. Qed.

Lemma get_task_spec list_id task_id st :
  truthy list_id = true ->
  get_task list_id task_id st =
  match find_by_id task_id (bucket list_id st) 0 with
  | Ok (Some (_, task)) => (Ok (RRecord task), st)
  | Ok None => (Ok RNone, st)
  | Raise e => (Raise e, st)
  end.
Proof.
  intros Hl. unfold get_task. rewrite Hl. simpl. unfold bind, gets, lift.
  by destruct (find_by_id _ _ _) as [[[i task]|]|e].
Qed.

Lemma find_list_spec list_id st (k : option (nat * record) -> M retval) :
  bind (gets (fun st => task_lists (data st)))
    (fun l => bind (lift (find_by_id list_id l 0)) k) st =
  match find_by_id list_id (task_lists (data st)) 0 with
  | Ok found => k found st
  | Raise e => (Raise e, st)
  end.
Proof. unfold bind, gets, lift. by destruct (find_by_id _ _ _). Qed.

(** The handler of [change_date_task] is not reached when the date parses
    and the scan ends normally. *)
Lemma change_date_task_parsed list_id task_id date_str date_obj st :
  truthy list_id = true ->
  isoparse date_str = Ok date_obj ->
  change_date_task list_id task_id date_str st =
  match find_by_id task_id (bucket list_id st) 0 with
  | Ok (Some (i, task)) =>
      let task' := <["due" := PStr (isoformat date_obj +:+ "Z")]> task in
      (Ok (RRecord task'), put_task list_id i task' st)
  | Ok None => (Ok RNone, st)
  | Raise e => date_handler e st
  end.
Proof.
  intros Hl Hparse. unfold change_date_task, try_except, bind, lift.
  rewrite Hl, Hparse. simpl. rewrite update_task_spec.
  by destruct (find_by_id _ _ _) as [[[i task]|]|e].
Qed.

(** X1. A task identifier that no record of the bucket carries (the
    bucket may be missing altogether) makes the single-task operations
    return their "not found" value, [None], or [False] for [delete_task],
    and leaves the whole state as it is: nothing is marked dirty. *)
Theorem unknown_task_changes_nothing list_id task_id st :
  truthy list_id = true ->
  absent task_id (bucket list_id st) ->
  get_task list_id task_id st = (Ok RNone, st) /\
  toggle_task_status list_id task_id st = (Ok RNone, st) /\
  delete_task list_id task_id st = (Ok (RBool false), st) /\
  (forall new_name, rename_task list_id task_id new_name st = (Ok RNone, st)) /\
  (forall detail, change_detail_task list_id task_id detail st = (Ok RNone, st)) /\
  (forall date_str date_obj,
      isoparse date_str = Ok date_obj ->
      change_date_task list_id task_id date_str st = (Ok RNone, st)).
Proof.
  intros Hl Habs. pose proof (find_by_id_absent _ _ 0 Habs) as Hfind.
  split; [|split; [|split; [|split; [|split]]]].
  - by rewrite get_task_spec, Hfind.
  - unfold toggle_task_status. rewrite Hl. simpl.
    by rewrite update_task_spec, Hfind.
  - unfold delete_task. rewrite Hl. simpl. by rewrite update_task_spec, Hfind.
  - intros new_name. unfold rename_task. rewrite Hl. simpl.
    by rewrite update_task_spec, Hfind.
  - intros detail. unfold change_detail_task. rewrite Hl. simpl.
    by rewrite update_task_spec, Hfind.
  - intros date_str date_obj Hparse.
    by rewrite (change_date_task_parsed _ _ _ date_obj), Hfind.
Qed.

(** X2. An empty list identifier ([None], the empty string, [False]) makes
    the operations on a task, and [rename_list], return [None] at once:
    nothing is scanned, the date is not parsed, the state is as before.
    [get_tasks_for_list] falls back to the active list instead. *)
Theorem falsy_list_id_short_circuits list_id st :
  truthy list_id = false ->
  (forall title now, add_task list_id title now st = (Ok RNone, st)) /\
  (forall task_id,
      get_task list_id task_id st = (Ok RNone, st) /\
      toggle_task_status list_id task_id st = (Ok RNone, st) /\
      delete_task list_id task_id st = (Ok RNone, st)) /\
  (forall task_id v,
      rename_task list_id task_id v st = (Ok RNone, st) /\
      change_detail_task list_id task_id v st = (Ok RNone, st)) /\
  (forall task_id date_str,
      change_date_task list_id task_id date_str st = (Ok RNone, st)) /\
  (forall new_title, rename_list list_id new_title st = (Ok RNone, st)) /\
  get_tasks_for_list list_id st = get_tasks_for_list (active_list_id st) st.
Proof.
  intros Hl. split; [|split; [|split; [|split; [|split]]]].
  - intros title now. unfold add_task. by rewrite Hl.
  - intros task_id.
    unfold get_task, toggle_task_status, delete_task. by rewrite Hl.
  - intros task_id v. unfold rename_task, change_detail_task. by rewrite Hl.
  - intros task_id date_str. unfold change_date_task. by rewrite Hl.
  - intros new_title. unfold rename_list. by rewrite Hl.
  - unfold get_tasks_for_list, bind, gets. rewrite Hl. simpl.
    by replace (if truthy (active_list_id st) then active_list_id st
                else active_list_id st) with (active_list_id st)
      by (by destruct (truthy (active_list_id st))).
Qed.

(** X3. When the scan meets a record without ['id'] before it finds the
    identifier, the operation raises [KeyError] and has changed nothing.
    In [change_date_task] the scan runs inside the [try], so the exception
    goes through the handler of the parse errors first. *)
Theorem malformed_record_raises_key_error list_id task_id st :
  truthy list_id = true ->
  blocked task_id (bucket list_id st) ->
  get_task list_id task_id st = (Raise KeyError, st) /\
  toggle_task_status list_id task_id st = (Raise KeyError, st) /\
  delete_task list_id task_id st = (Raise KeyError, st) /\
  (forall new_name,
      rename_task list_id task_id new_name st = (Raise KeyError, st)) /\
  (forall detail,
      change_detail_task list_id task_id detail st = (Raise KeyError, st)) /\
  (forall date_str date_obj,
      isoparse date_str = Ok date_obj ->
      change_date_task list_id task_id date_str st = date_handler KeyError st).
Proof.
  intros Hl Hblocked. pose proof (find_by_id_blocked _ _ 0 Hblocked) as Hfind.
  split; [|split; [|split; [|split; [|split]]]].
  - by rewrite get_task_spec, Hfind.
  - unfold toggle_task_status. rewrite Hl. simpl.
    by rewrite update_task_spec, Hfind.
  - unfold delete_task. rewrite Hl. simpl. by rewrite update_task_spec, Hfind.
  - intros new_name. unfold rename_task. rewrite Hl. simpl.
    by rewrite update_task_spec, Hfind.
  - intros detail. unfold change_detail_task. rewrite Hl. simpl.
    by rewrite update_task_spec, Hfind.
  - intros date_str date_obj Hparse.
    by rewrite (change_date_task_parsed _ _ _ date_obj), Hfind.
Qed.

(** X4. The same two cases for the operations on a list: an identifier no
    list record carries gives [False] from [delete_list] and [None] from
    [rename_list], a list record without ['id'] met first gives
    [KeyError]; the state is unchanged in all four. *)
Theorem unknown_or_malformed_list list_id st :
  (absent list_id (task_lists (data st)) ->
   delete_list list_id st = (Ok (RBool false), st) /\
   forall new_title, rename_list list_id new_title st = (Ok RNone, st)) /\
  (blocked list_id (task_lists (data st)) ->
   delete_list list_id st = (Raise KeyError, st) /\
   forall new_title,
     truthy list_id = true ->
     rename_list list_id new_title st = (Raise KeyError, st)).
Proof.
  split.
  - intros Habs. pose proof (find_by_id_absent _ _ 0 Habs) as Hfind.
    split; [unfold delete_list; by rewrite find_list_spec, Hfind|].
    intros new_title. unfold rename_list.
    destruct (truthy list_id); simpl; [|done].
    by rewrite find_list_spec, Hfind.
  - intros Hblocked. pose proof (find_by_id_blocked _ _ 0 Hblocked) as Hfind.
    split; [unfold delete_list; by rewrite find_list_spec, Hfind|].
    intros new_title Hl. unfold rename_list. rewrite Hl. simpl.
    by rewrite find_list_spec, Hfind.
Qed.
End Lookups.

Lemma unknown_task_changes_nothing_witness :
  delete_task (PStr "L1") (PStr "t9") (clean_state true)
  = (Ok (RBool false), clean_state true) /\
  get_task (PStr "L9") (PStr "t1") (clean_state true)
  = (Ok RNone, clean_state true).
Proof.
  assert (absent (PStr "t9") (bucket (PStr "L1") (clean_state true))) as Habs
    by (apply (bool_decide_unpack _); vm_compute; exact I).
  destruct (unknown_task_changes_nothing (PStr "L1") (PStr "t9")
              (clean_state true) eq_refl Habs) as (_ & _ & Hdelete & _).
  destruct (unknown_task_changes_nothing (PStr "L9") (PStr "t1")
              (clean_state true) eq_refl (absent_nil _)) as (Hget & _).
  split; [exact Hdelete|exact Hget].
Defined.

Lemma falsy_list_id_short_circuits_witness :
  delete_task (PStr "") (PStr "t1") (clean_state true)
  = (Ok RNone, clean_state true).
Proof.
  destruct (falsy_list_id_short_circuits (PStr "") (clean_state true) eq_refl)
    as (_ & Htask & _).
  exact (proj2 (proj2 (Htask (PStr "t1")))).
Defined.

Lemma stray_blocks_t2 :
  blocked (PStr "t2") (bucket (PStr "L1") (with_stray (clean_state true))).
Proof.
  exists [mk_record [("id", PStr "t1"); ("title", PStr "Buy groceries");
                     ("status", PStr "needsAction")]], stray,
         [mk_record [("id", PStr "t2"); ("title", PStr "Pay bills");
                     ("status", PStr "completed")]].
  split; [reflexivity|]. split; [|reflexivity].
  apply (bool_decide_unpack _). vm_compute. exact I.
Qed.

Lemma malformed_record_raises_key_error_witness :
  rename_task (PStr "L1") (PStr "t2") (PStr "Pay the bills")
    (with_stray (clean_state true))
  = (Raise KeyError, with_stray (clean_state true)) /\
  change_date_task (PStr "L1") (PStr "t2") "2026-01-31"
    (with_stray (clean_state true))
  = (Raise AttributeError, with_stray (clean_state true)).
Proof.
  destruct (malformed_record_raises_key_error (PStr "L1") (PStr "t2")
              (with_stray (clean_state true)) eq_refl stray_blocks_t2)
    as (_ & _ & _ & Hrename & _ & Hdate).
  split; [exact (Hrename _)|].
  exact (Hdate "2026-01-31" "2026-01-31T00:00:00" eq_refl).
Defined.

Lemma unknown_or_malformed_list_witness :
  delete_list (PStr "L9") (clean_state true)
  = (Ok (RBool false), clean_state true).
Proof.
  assert (absent (PStr "L9") (task_lists (data (clean_state true)))) as Habs
    by (apply (bool_decide_unpack _); vm_compute; exact I).
  exact (proj1 (proj1 (unknown_or_malformed_list (PStr "L9") (clean_state true))
                  Habs)).
Defined.

(** ** What the reads return after a write *)

Section Reads.
Context {Srv : Type} `{RemoteService Srv} `{Dateutil}.
Implicit Types (st : State Srv) (list_id task_id : pyval).
Implicit Types (l : list record) (r : record).

Lemma get_tasks_for_list_spec list_id st :
  truthy list_id = true ->
  get_tasks_for_list list_id st
  = (Ok (RRecords (visible (bucket list_id st))), st).
Proof.
  intros Hl. unfold get_tasks_for_list, bind, gets. rewrite Hl. simpl.
  by rewrite Hl.
Qed.

Lemma visible_app l1 l2 : visible (l1 ++ l2) = visible l1 ++ visible l2.
Proof. apply filter_app. Qed.

Lemma visible_tombstone l i r :
  l !! i = Some r ->
  visible (<[i := <["deleted" := PBool true]> r]> l)
  = visible (take i l) ++ visible (drop (S i) l).
Proof.
  intros Hi. rewrite insert_take_drop by (by eapply lookup_lt_Some).
  rewrite visible_app. f_equal. unfold visible.
  apply filter_cons_False. unfold get_truthy, pyget.
  by rewrite lookup_insert_eq.
Qed.

Lemma new_task_visible title now : visible [new_task title now] = [new_task title now].
Proof.
  unfold visible. rewrite filter_cons_True; [done|].
  unfold get_truthy, pyget, new_task.
  by rewrite !lookup_insert_ne, lookup_empty.
Qed.

Lemma new_task_id title now :
  new_task title now !! "id" = Some (PStr ("temp_" +:+ pretty now)).
Proof.
  unfold new_task. by rewrite lookup_insert_ne, lookup_insert_eq.
Qed.

Lemma bucket_push_task list_id r st :
  bucket list_id (push_task list_id r st) = bucket list_id st ++ [r].
Proof. unfold bucket at 1, bucket_of. simpl. by rewrite od_get_set_eq. Qed.

Lemma tasks_push_task_ne list_id k r st :
  k ≠ list_id ->
  od_get k (tasks (data (push_task list_id r st))) = od_get k (tasks (data st)).
Proof. intros Hne. simpl. by rewrite od_get_set_ne. Qed.

Lemma put_task_get list_id task_id st i task task' :
  truthy list_id = true ->
  first_with_id task_id (bucket list_id st) i task ->
  task' !! "id" = Some task_id ->
  get_task list_id task_id (put_task list_id i task' st)
  = (Ok (RRecord task'), put_task list_id i task' st).
Proof.
  intros Hl Hfirst Hid. rewrite get_task_spec, bucket_put_task by done.
  by rewrite (find_by_id_insert _ _ _ task _ 0).
Qed.

Lemma first_with_id_app id l r tail :
  absent id l -> r !! "id" = Some id ->
  first_with_id id (l ++ r :: tail) (length l) r.
Proof.
  intros Habs Hid. split; [|split; [done|]].
  - by rewrite list_lookup_middle.
  - by rewrite take_app_length.
Qed.

(** X5. [add_task] with a non-empty list identifier appends the new task
    to the bucket of that list, leaves every other bucket and the lists as
    they are, and marks the snapshot dirty; the task is at the end of what
    [get_tasks_for_list] then returns. *)
Theorem add_task_appends list_id title now st :
  truthy list_id = true ->
  exists st',
    add_task list_id title now st = (Ok (RRecord (new_task title now)), st') /\
    bucket list_id st' = bucket list_id st ++ [new_task title now] /\
    (forall k, k ≠ list_id ->
               od_get k (tasks (data st')) = od_get k (tasks (data st))) /\
    task_lists (data st') = task_lists (data st) /\
    dirty st' = true /\
    get_tasks_for_list list_id st'
    = (Ok (RRecords (visible (bucket list_id st) ++ [new_task title now])), st').
Proof.
  intros Hl. rewrite add_task_spec by done. eexists. split; [done|].
  split; [apply bucket_push_task|].
  split; [intros k Hk; by apply tasks_push_task_ne|].
  split; [done|]. split; [done|].
  rewrite get_tasks_for_list_spec, bucket_push_task by done.
  by rewrite visible_app, new_task_visible.
Qed.

(** X6. Two tasks added to a list within the same second get the same
    provisional identifier, and the operations that look a task up by its
    identifier then reach the first of them only: [get_task] returns it,
    and [delete_task] puts the tombstone on it, the second task staying
    as it is. *)
Theorem same_second_tasks_share_id list_id title1 title2 now st :
  truthy list_id = true ->
  absent (PStr ("temp_" +:+ pretty now)) (bucket list_id st) ->
  let id := PStr ("temp_" +:+ pretty now) in
  let first := new_task title1 now in
  let second := new_task title2 now in
  let st2 := (add_task list_id title2 now (add_task list_id title1 now st).2).2 in
  first !! "id" = Some id /\ second !! "id" = Some id /\
  bucket list_id st2 = bucket list_id st ++ [first; second] /\
  get_task list_id id st2 = (Ok (RRecord first), st2) /\
  (delete_task list_id id st2).1 = Ok (RBool true) /\
  bucket list_id (delete_task list_id id st2).2
  = bucket list_id st ++ [<["deleted" := PBool true]> first; second].
Proof.
  intros Hl Habs id first second st2.
  assert (bucket list_id st2 = bucket list_id st ++ [first; second]) as Hb.
  { unfold st2. rewrite !add_task_spec by done. simpl.
    rewrite !bucket_push_task. by rewrite <- app_assoc. }
  assert (first_with_id id (bucket list_id st2) (length (bucket list_id st)) first)
    as Hfirst.
  { rewrite Hb. apply first_with_id_app; [done|apply new_task_id]. }
  split; [apply new_task_id|]. split; [apply new_task_id|]. split; [done|].
  split.
  { rewrite get_task_spec by done.
    by rewrite (find_by_id_first _ _ _ _ 0 Hfirst). }
  unfold delete_task. rewrite Hl. simpl. rewrite update_task_spec.
  rewrite (find_by_id_first _ _ _ _ 0 Hfirst). simpl. split; [done|].
  rewrite bucket_put_task, Hb.
  rewrite insert_app_r_alt by done. by rewrite Nat.sub_diag.
Qed.

(** X7. A field written by [rename_task], [change_detail_task] or
    [change_date_task] (with a date that parses) is what [get_task] reads
    back: the task found is returned with the new title, notes or due
    date (the parsed date in ISO format followed by "Z"), every other
    field and every other task of the bucket being as before. *)
Theorem written_field_is_read_back list_id task_id st i task :
  truthy list_id = true ->
  first_with_id task_id (bucket list_id st) i task ->
  (forall new_name,
      let st' := (rename_task list_id task_id new_name st).2 in
      let task' := <["title" := new_name]> task in
      get_task list_id task_id st' = (Ok (RRecord task'), st') /\
      bucket list_id st' = <[i := task']> (bucket list_id st)) /\
  (forall detail,
      let st' := (change_detail_task list_id task_id detail st).2 in
      let task' := <["notes" := detail]> task in
      get_task list_id task_id st' = (Ok (RRecord task'), st') /\
      bucket list_id st' = <[i := task']> (bucket list_id st)) /\
  (forall date_str date_obj,
      isoparse date_str = Ok date_obj ->
      let st' := (change_date_task list_id task_id date_str st).2 in
      let task' := <["due" := PStr (isoformat date_obj +:+ "Z")]> task in
      get_task list_id task_id st' = (Ok (RRecord task'), st') /\
      bucket list_id st' = <[i := task']> (bucket list_id st)).
Proof.
  intros Hl Hfirst. pose proof (find_by_id_first _ _ _ _ 0 Hfirst) as Hfind.
  assert (task !! "id" = Some task_id) as Hid by apply Hfirst.
  split; [|split].
  - intros new_name. unfold rename_task. rewrite Hl. simpl.
    rewrite update_task_spec, Hfind. simpl.
    split; [|apply bucket_put_task].
    apply (put_task_get _ _ _ _ task); [done..|]. by rewrite lookup_insert_ne.
  - intros detail. unfold change_detail_task. rewrite Hl. simpl.
    rewrite update_task_spec, Hfind. simpl.
    split; [|apply bucket_put_task].
    apply (put_task_get _ _ _ _ task); [done..|]. by rewrite lookup_insert_ne.
  - intros date_str date_obj Hparse.
    rewrite (change_date_task_parsed _ _ _ date_obj), Hfind by done. simpl.
    split; [|apply bucket_put_task].
    apply (put_task_get _ _ _ _ task); [done..|]. by rewrite lookup_insert_ne.
Qed.

Lemma temp_list_id_truthy now : truthy (temp_list_id now) = true.
Proof. done. Qed.

Lemma prefix_app_refl (a b : string) : String.prefix a (a +:+ b) = true.
Proof.
  induction a as [|c a IH]; simpl; [by destruct b|].
  by destruct (Ascii.ascii_dec c c).
Qed.

Lemma new_list_pending list_name now :
  pending "temp_list_" (new_list list_name now) = true.
Proof.
  unfold pending, get_truthy, pyget, provisional, new_list, temp_list_id.
  rewrite lookup_insert_ne, lookup_insert_ne, lookup_empty by done.
  rewrite lookup_insert_eq. simpl. apply (prefix_app_refl "temp_list_").
Qed.

Lemma new_list_visible list_name now :
  visible [new_list list_name now] = [new_list list_name now].
Proof.
  unfold visible. rewrite filter_cons_True; [done|].
  pose proof (new_list_pending list_name now) as Hp.
  unfold pending in Hp. apply andb_true_iff in Hp as [Hp _].
  by apply negb_true_iff in Hp.
Qed.

Lemma get_task_lists_spec st :
  get_task_lists st = (Ok (RRecords (visible (task_lists (data st)))), st).
Proof. done. Qed.

(** X8. [add_list] appends the new list, under a provisional identifier
    that is waiting to be created remotely, and gives it an empty bucket,
    replacing whatever bucket that identifier keyed; the other buckets
    are as before. The list is the last one [get_task_lists] returns, and
    its tasks read as empty. *)
Theorem add_list_appends list_name now st :
  exists st',
    add_list list_name now st = (Ok (RRecord (new_list list_name now)), st') /\
    task_lists (data st') = task_lists (data st) ++ [new_list list_name now] /\
    pending "temp_list_" (new_list list_name now) = true /\
    od_get (temp_list_id now) (tasks (data st')) = Some [] /\
    (forall k, k ≠ temp_list_id now ->
               od_get k (tasks (data st')) = od_get k (tasks (data st))) /\
    dirty st' = true /\
    get_task_lists st'
    = (Ok (RRecords (visible (task_lists (data st)) ++ [new_list list_name now])),
       st') /\
    get_tasks_for_list (temp_list_id now) st' = (Ok (RRecords []), st').
Proof.
  eexists. split; [reflexivity|]. split; [done|].
  split; [apply new_list_pending|].
  split; [simpl; apply od_get_set_eq|].
  split; [intros k Hk; simpl; by apply od_get_set_ne|].
  split; [done|]. split.
  - rewrite get_task_lists_spec. simpl.
    by rewrite visible_app, new_list_visible.
  - rewrite get_tasks_for_list_spec by apply temp_list_id_truthy.
    unfold bucket, bucket_of. simpl. by rewrite od_get_set_eq.
Qed.

(** X9. A list deleted locally disappears from [get_task_lists] and from
    nowhere else: its tasks are still returned by [get_tasks_for_list],
    and [add_task] still appends to its bucket. *)
Theorem deleted_list_keeps_its_tasks list_id st i task_list :
  first_with_id list_id (task_lists (data st)) i task_list ->
  let st' := (delete_list list_id st).2 in
  get_task_lists st'
  = (Ok (RRecords (visible (take i (task_lists (data st))) ++
                   visible (drop (S i) (task_lists (data st))))), st') /\
  (forall k, (get_tasks_for_list k st').1 = (get_tasks_for_list k st).1) /\
  (forall title now,
      truthy list_id = true ->
      bucket list_id (add_task list_id title now st').2
      = bucket list_id st ++ [new_task title now]).
Proof.
  intros Hfirst st'.
  assert (st' = put_list i (<["deleted" := PBool true]> task_list) st) as ->.
  { unfold st', delete_list. rewrite find_list_spec.
    by rewrite (find_by_id_first _ _ _ _ 0 Hfirst). }
  split; [|split].
  - rewrite get_task_lists_spec. simpl.
    rewrite visible_tombstone; [done|apply Hfirst].
  - intros k. unfold get_tasks_for_list, bind, gets. simpl.
    by destruct (negb (truthy (if truthy k then k else active_list_id st))).
  - intros title now Hl. rewrite add_task_spec by done.
    etrans; [apply bucket_push_task|done].
Qed.

(** X10. After [delete_task] has put its tombstone on a task,
    [get_tasks_for_list] returns the visible tasks before it followed by
    the visible tasks after it; deleting the same task again finds the
    tombstone, answers [True] once more and leaves the snapshot as it
    is. *)
Theorem deleted_task_is_hidden list_id task_id st i task :
  truthy list_id = true ->
  first_with_id task_id (bucket list_id st) i task ->
  let st' := (delete_task list_id task_id st).2 in
  get_tasks_for_list list_id st'
  = (Ok (RRecords (visible (take i (bucket list_id st)) ++
                   visible (drop (S i) (bucket list_id st)))), st') /\
  (delete_task list_id task_id st').1 = Ok (RBool true) /\
  data (delete_task list_id task_id st').2 = data st'.
Proof.
  intros Hl Hfirst st'. destruct (Hfirst) as (Hi & Hid & _).
  assert (st' = put_task list_id i (<["deleted" := PBool true]> task) st) as ->.
  { unfold st', delete_task. rewrite Hl. simpl. rewrite update_task_spec.
    by rewrite (find_by_id_first _ _ _ _ 0 Hfirst). }
  split.
  { rewrite get_tasks_for_list_spec, bucket_put_task by done.
    by rewrite visible_tombstone. }
  unfold delete_task. rewrite Hl. simpl.
  rewrite update_task_spec, bucket_put_task.
  rewrite (find_by_id_insert _ _ _ task _ 0 Hfirst)
    by (by rewrite lookup_insert_ne).
  simpl. split; [done|].
  rewrite bucket_put_task, insert_insert_eq, list_insert_insert_eq.
  unfold set_tasks. simpl. by rewrite od_set_set.
Qed.

(** X11. [set_active_list] accepts any identifier, known or not, and
    answers [True]; the identifier then is the default of
    [get_tasks_for_list], which returns the visible tasks of its bucket,
    or nothing when the identifier is empty or keys no bucket. *)
Theorem active_list_is_the_default list_id st :
  let st' := (set_active_list list_id st).2 in
  (set_active_list list_id st).1 = Ok (RBool true) /\
  data st' = data st /\
  get_tasks_for_list PNone st'
  = (Ok (RRecords (if truthy list_id then visible (bucket list_id st) else [])),
     st') /\
  (od_get list_id (tasks (data st)) = None ->
   get_tasks_for_list PNone st' = (Ok (RRecords []), st')).
Proof.
  intros st'. split; [done|]. split; [done|].
  assert (get_tasks_for_list PNone st'
          = (Ok (RRecords (if truthy list_id
                           then visible (bucket list_id st) else [])), st'))
    as Hread.
  { unfold get_tasks_for_list, bind, gets. simpl.
    by destruct (truthy list_id). }
  split; [done|]. intros Hnone. rewrite Hread.
  unfold bucket, bucket_of. rewrite Hnone. by destruct (truthy list_id).
Qed.
End Reads.

Lemma add_task_appends_witness :
  (add_task (PStr "L1") (PStr "Call home") 5 (clean_state true)).1
  = Ok (RRecord (new_task (PStr "Call home") 5)) /\
  dirty (after (add_task (PStr "L1") (PStr "Call home") 5) (clean_state true))
  = true.
Proof.
  destruct (add_task_appends (PStr "L1") (PStr "Call home") 5
              (clean_state true) eq_refl)
    as (st' & Hrun & _ & _ & _ & Hdirty & _).
  unfold after. rewrite Hrun. split; [reflexivity|exact Hdirty].
Defined.

Lemma same_second_tasks_share_id_witness :
  let st2 := after (add_task (PStr "L1") (PStr "Second") 5)
               (after (add_task (PStr "L1") (PStr "First") 5)
                  (clean_state true)) in
  get_task (PStr "L1") (PStr "temp_5") st2
  = (Ok (RRecord (new_task (PStr "First") 5)), st2).
Proof.
  assert (absent (PStr ("temp_" +:+ pretty 5%Z))
            (bucket (PStr "L1") (clean_state true))) as Habs
    by (apply (bool_decide_unpack _); vm_compute; exact I).
  destruct (same_second_tasks_share_id (PStr "L1") (PStr "First")
              (PStr "Second") 5 (clean_state true) eq_refl Habs)
    as (_ & _ & _ & Hget & _).
  exact Hget.
Defined.

Lemma written_field_is_read_back_witness :
  let st' := after (rename_task (PStr "L1") (PStr "t2") (PStr "Pay the bills"))
               (clean_state true) in
  get_task (PStr "L1") (PStr "t2") st'
  = (Ok (RRecord (mk_record [("id", PStr "t2"); ("title", PStr "Pay the bills");
                             ("status", PStr "completed")])), st').
Proof.
  assert (first_with_id (PStr "t2") (bucket (PStr "L1") (clean_state true)) 1
            (mk_record [("id", PStr "t2"); ("title", PStr "Pay bills");
                        ("status", PStr "completed")])) as Hfirst.
  { split; [reflexivity|]. split; [reflexivity|].
    apply (bool_decide_unpack _). vm_compute. exact I. }
  destruct (written_field_is_read_back (PStr "L1") (PStr "t2")
              (clean_state true) 1 _ eq_refl Hfirst) as (Hrename & _).
  exact (proj1 (Hrename (PStr "Pay the bills"))).
Defined.

Lemma deleted_list_keeps_its_tasks_witness :
  (get_tasks_for_list (PStr "L1")
     (after (delete_list (PStr "L1")) (clean_state true))).1
  = (get_tasks_for_list (PStr "L1") (clean_state true)).1.
Proof.
  assert (first_with_id (PStr "L1") (task_lists (data (clean_state true))) 0
            (mk_record [("id", PStr "L1"); ("title", PStr "My Tasks")]))
    as Hfirst.
  { split; [reflexivity|]. split; [reflexivity|]. constructor. }
  destruct (deleted_list_keeps_its_tasks (PStr "L1") (clean_state true) 0 _
              Hfirst) as (_ & Hread & _).
  exact (Hread (PStr "L1")).
Defined.

Lemma deleted_task_is_hidden_witness :
  let st' := after (delete_task (PStr "L1") (PStr "t1")) (clean_state true) in
  get_tasks_for_list (PStr "L1") st'
  = (Ok (RRecords [mk_record [("id", PStr "t2"); ("title", PStr "Pay bills");
                              ("status", PStr "completed")]]), st').
Proof.
  assert (first_with_id (PStr "t1") (bucket (PStr "L1") (clean_state true)) 0
            (mk_record [("id", PStr "t1"); ("title", PStr "Buy groceries");
                        ("status", PStr "needsAction")])) as Hfirst.
  { split; [reflexivity|]. split; [reflexivity|]. constructor. }
  destruct (deleted_task_is_hidden (PStr "L1") (PStr "t1") (clean_state true)
              0 _ eq_refl Hfirst) as (Hread & _).
  exact Hread.
Defined.

(** ** Construction, and the full download *)

Section Startup.
Context {Srv : Type} `{RemoteService Srv} `{Dateutil}.
Implicit Types (st : State Srv) (srv : Srv) (sto : Store) (ls : list record).

Lemma sync_from_google_unfold st :
  sync_from_google st =
  match tasklists_list (service st) with
  | (Ok ls, srv') =>
      match pull_tasks ls (fetched ls srv' st) with
      | (Ok _, st1) => save_local_data st1
      | (Raise e, st1) => (Raise e, st1)
      end
  | (Raise e, srv') => (Raise e, (remote TasklistsList tasklists_list st).2)
  end.
Proof.
  unfold sync_from_google, bind at 1, remote.
  destruct (tasklists_list (service st)) as [[ls|e] srv']; [|done].
  unfold bind, with_data. simpl. by destruct (pull_tasks ls _) as [[[]|e] st1].
Qed.

Lemma pull_tasks_spec ls : forall st st',
  pull_tasks ls st = (Ok tt, st') ->
  exists ids,
    Forall2 (fun (r : record) id => r !! "id" = Some id) ls ids /\
    (forall k, k ∈ od_keys (tasks (data st')) <->
               k ∈ od_keys (tasks (data st)) \/ k ∈ ids) /\
    (forall k ts, od_get k (tasks (data st')) = Some ts ->
                  od_get k (tasks (data st)) = Some ts \/
                  exists srv, (tasks_list k srv).1 = Ok ts) /\
    trace st' = trace st ++ map (fun id => EvRemote (TasksList id)) ids /\
    task_lists (data st') = task_lists (data st) /\
    dirty st' = dirty st /\ storage st' = storage st /\
    active_list_id st' = active_list_id st.
Proof.
  induction ls as [|r ls IH]; intros st st' Hrun; simpl in Hrun.
  - injection Hrun as <-. exists []. split; [constructor|].
    split; [intros k; rewrite elem_of_nil; tauto|].
    split; [auto|]. split; [by rewrite app_nil_r|done].
  - apply bind_ok in Hrun as (list_id & s0 & Hid & Hrun).
    unfold lift, getitem in Hid.
    destruct (r !! "id") as [v|] eqn:Hr; [|done]. injection Hid as <- <-.
    apply bind_ok in Hrun as (ts & s1 & Hcall & Hrun).
    apply bind_ok in Hrun as ([] & s2 & Hset & Hrun).
    unfold with_data in Hset. injection Hset as <-.
    apply IH in Hrun as (ids & Hids & Hkeys & Hgot & Htrace & Hl & Hd & Hsto & Ha).
    simpl in *.
    unfold remote in Hcall.
    destruct (tasks_list v (service st)) as [res srv'] eqn:Hanswer.
    injection Hcall as -> <-. simpl in *.
    exists (v :: ids). split; [by constructor|].
    split. { intros k. rewrite Hkeys, od_keys_set, elem_of_cons. tauto. }
    split.
    { intros k ts' Hk. apply Hgot in Hk as [Hk|Hk]; [|by right].
      destruct (decide (v = k)) as [->|Hne].
      - rewrite od_get_set_eq in Hk. assert (ts' = ts) as -> by congruence.
        right. exists (service st). by rewrite Hanswer.
      - rewrite od_get_set_ne in Hk by done. by left. }
    split; [by rewrite Htrace, <- app_assoc|done].
Qed.

(** X12. A [sync_from_google] that runs to completion replaces the
    snapshot by what the server holds: the lists are the answer to
    [tasklists.list], the buckets are keyed by the identifiers of these
    lists and hold answers to [tasks.list], one call being made per list,
    in order; the snapshot reached is saved last, and [dirty] is
    cleared. *)
Theorem sync_from_google_replaces_cache st st' :
  sync_from_google st = (Ok tt, st') ->
  exists ids,
    (tasklists_list (service st)).1 = Ok (task_lists (data st')) /\
    Forall2 (fun (r : record) id => r !! "id" = Some id)
      (task_lists (data st')) ids /\
    (forall k, k ∈ od_keys (tasks (data st')) <-> k ∈ ids) /\
    (forall k ts, od_get k (tasks (data st')) = Some ts ->
                  exists srv, (tasks_list k srv).1 = Ok ts) /\
    trace st'
    = trace st ++ EvRemote TasklistsList ::
        map (fun id => EvRemote (TasksList id)) ids ++ [EvSave (data st')] /\
    dirty st' = false /\
    storage st' = save_data (data st') (storage st).
Proof.
  rewrite sync_from_google_unfold.
  destruct (tasklists_list (service st)) as [[ls|e] srv']; [|done].
  destruct (pull_tasks ls _) as [[[]|e] st1] eqn:Hpull; [|done].
  apply pull_tasks_spec in Hpull
    as (ids & Hids & Hkeys & Hgot & Htrace & Hl & Hd & Hsto & Ha).
  simpl in *. unfold save_local_data. intros [= <-]. simpl.
  exists ids. rewrite Hl. split; [done|]. split; [done|].
  split. { intros k. rewrite Hkeys, elem_of_nil. tauto. }
  split. { intros k ts Hk. by apply Hgot in Hk as [Hk|Hk]. }
  split; [by rewrite Htrace, <- !app_assoc|]. by rewrite Hsto.
Qed.

Lemma pull_tasks_same ls : forall st1 st2,
  service st1 = service st2 -> data st1 = data st2 ->
  (pull_tasks ls st1).1 = (pull_tasks ls st2).1 /\
  service (pull_tasks ls st1).2 = service (pull_tasks ls st2).2 /\
  data (pull_tasks ls st1).2 = data (pull_tasks ls st2).2.
Proof.
  induction ls as [|r ls IH]; intros st1 st2 Hs Ht; simpl; [done|].
  unfold bind, lift, getitem, remote, with_data.
  destruct (r !! "id") as [v|]; simpl; [|done]. rewrite Hs.
  destruct (tasks_list v (service st2)) as [[ts|e] srv']; simpl; [|done].
  apply IH; simpl; [done|by rewrite Ht].
Qed.

(** X13. What [sync_from_google] returns and leaves in the snapshot once
    the lists are fetched depends on the server only: whatever the cache
    held, changes not yet sent included, is gone. *)
Theorem sync_from_google_discards_local st1 st2 :
  service st1 = service st2 ->
  (sync_from_google st1).1 = (sync_from_google st2).1 /\
  service (sync_from_google st1).2 = service (sync_from_google st2).2 /\
  (forall ls, (tasklists_list (service st1)).1 = Ok ls ->
              data (sync_from_google st1).2 = data (sync_from_google st2).2).
Proof.
  intros Hs. rewrite !sync_from_google_unfold. unfold remote. rewrite Hs.
  destruct (tasklists_list (service st2)) as [[ls|e] srv']; simpl;
    [|split; [done|split; [done|by intros ?]]].
  destruct (pull_tasks_same ls (fetched ls srv' st1) (fetched ls srv' st2))
    as (Hr & Hsrv & Ht); [done..|].
  destruct (pull_tasks ls (fetched ls srv' st1)) as [[[]|e1] s1];
    destruct (pull_tasks ls (fetched ls srv' st2)) as [[[]|e2] s2];
    simpl in *; done.
Qed.

Lemma init_unfold srv sto :
  init srv sto =
  bind (match task_lists (load_data sto) with
        | [] => sync_from_google
        | _ :: _ => ret tt
        end)
    (fun _ => bind _get_default_task_list_id set_active) (fresh srv sto).
Proof. done. Qed.

Lemma default_then_activate st :
  bind _get_default_task_list_id set_active st =
  match task_lists (data st) with
  | [] => (Ok tt, activated PNone st)
  | first :: _ =>
      match first !! "id" with
      | Some v => (Ok tt, activated v st)
      | None => (Raise KeyError, st)
      end
  end.
Proof.
  unfold _get_default_task_list_id, bind, gets, lift, getitem, ret, set_active.
  destruct (task_lists (data st)) as [|first rest]; [done|].
  by destruct (first !! "id").
Qed.

Lemma od_set_fresh {V} (k : pyval) (v : V) (d : odict V) :
  k ∉ od_keys d -> od_set k v d = d ++ [(k, v)].
Proof.
  unfold od_keys. induction d as [|[k' v'] d IH]; simpl; [done|].
  intros Hnot. apply not_elem_of_cons in Hnot as [Hne Hnot].
  rewrite decide_False by done. by rewrite IH.
Qed.

Lemma json_keys_kept (d : odict (list record)) : forall acc,
  forallb (fun kb : pyval * list record =>
             match kb.1 with PStr _ => true | _ => false end) d = true ->
  NoDup (od_keys acc ++ od_keys d) ->
  fold_left (fun t kb => od_set (json_key kb.1) kb.2 t) d acc = acc ++ d.
Proof.
  induction d as [|[k b] d IH]; intros acc Hstr Hnd; simpl;
    [by rewrite app_nil_r|].
  simpl in Hstr. apply andb_true_iff in Hstr as [Hk Hstr].
  destruct k as [| |s]; try done. simpl.
  unfold od_keys in *. rewrite fmap_cons in Hnd. simpl in Hnd.
  rewrite od_set_fresh; last first.
  { unfold od_keys. intros Hin. apply NoDup_app in Hnd as (_ & Hdisj & _).
    apply (Hdisj _ Hin). apply list_elem_of_here. }
  rewrite IH; [by rewrite <- app_assoc|done|].
  rewrite fmap_app, <- app_assoc. exact Hnd.
Qed.

(** The JSON file gives back a snapshot keyed by strings as it was. *)
Lemma json_reload_string_keys (d : Snapshot) :
  string_keys d = true -> json_reload d = d.
Proof.
  intros [Hstr Hnd%bool_decide_eq_true]%andb_true_iff.
  unfold json_reload. rewrite json_keys_kept; [by destruct d|done|done].
Qed.

(** A bucket under a key that is not a string is not reloaded under that
    key. *)
Example json_reload_bool_key :
  let d := {| task_lists := []; tasks := [(PBool true, [])] |} in
  od_get (PBool true) (tasks (json_reload d)) = None /\
  od_get (PStr "true") (tasks (json_reload d)) = Some [].
Proof. by split. Qed.

(** X14. A snapshot with at least one list, whose buckets are keyed by
    strings (the keys that the JSON file gives back as they were), and
    that has been saved to a writable file, is what the next construction
    starts from: nothing is asked of the server, [dirty] is false, and
    the active list is the first list of the file, tombstoned or not. A
    first record without ['id'] makes the construction raise
    [KeyError]. *)
Theorem restart_restores_snapshot st srv first rest :
  task_lists (data st) = first :: rest ->
  writable (storage st) = true ->
  string_keys (data st) = true ->
  let sto := storage (save_local_data st).2 in
  json_reload (data st) = data st /\
  load_data sto = data st /\
  (forall v, first !! "id" = Some v ->
             init srv sto = (Ok tt, activated v (fresh srv sto))) /\
  (first !! "id" = None -> (init srv sto).1 = Raise KeyError).
Proof.
  intros Hl Hw Hkeys sto.
  split; [by apply json_reload_string_keys|].
  assert (load_data sto = data st) as Hload.
  { unfold sto, save_local_data, save_data. simpl. by rewrite Hw. }
  split; [done|].
  assert (task_lists (data (fresh srv sto)) = first :: rest) as Hfresh
    by (simpl; by rewrite Hload).
  split.
  - intros v Hv. rewrite init_unfold, Hload, Hl. unfold bind at 1, ret.
    by rewrite default_then_activate, Hfresh, Hv.
  - intros Hnone. rewrite init_unfold, Hload, Hl. unfold bind at 1, ret.
    by rewrite default_then_activate, Hfresh, Hnone.
Qed.

(** X15. When the storage file cannot be written, a sync pass that runs
    to completion still clears [dirty], although the file is as it was:
    a second sync does nothing, and the next construction starts from
    what the file held before. *)
Theorem failed_save_is_silent st st' :
  dirty st = true -> writable (storage st) = false ->
  sync_to_google st = (Ok tt, st') ->
  dirty st' = false /\
  storage st' = storage st /\
  sync_to_google st' = (Ok tt, st') /\
  (forall srv, init srv (storage st') = init srv (storage st)).
Proof.
  intros Hd Hw Hrun.
  destruct (sync_ok_persisted _ _ Hd Hrun) as (Hclean & _ & Hsto).
  unfold save_data in Hsto. rewrite Hw in Hsto.
  split; [done|]. split; [done|]. split.
  - unfold sync_to_google, bind, gets. by rewrite Hclean.
  - intros srv. by rewrite Hsto.
Qed.

(** X16. With no list in the storage file the construction downloads
    everything. If the server cannot be reached it raises, having written
    nothing. If the account has no list, an empty snapshot is saved and
    no list is active (so that the next construction downloads again).
    Otherwise the active list is the first list fetched. *)
Theorem init_with_empty_cache srv sto :
  task_lists (load_data sto) = [] ->
  (forall e srv',
      tasklists_list srv = (Raise e, srv') ->
      exists st',
        init srv sto = (Raise e, st') /\ storage st' = sto /\
        data st' = load_data sto /\ trace st' = [EvRemote TasklistsList]) /\
  (forall srv',
      tasklists_list srv = (Ok [], srv') ->
      init srv sto
      = (Ok tt, {| data := empty_snapshot; dirty := false;
                   active_list_id := PNone; service := srv';
                   storage := save_data empty_snapshot sto;
                   trace := [EvRemote TasklistsList; EvSave empty_snapshot] |})) /\
  (forall st1 first rest v,
      sync_from_google (fresh srv sto) = (Ok tt, st1) ->
      task_lists (data st1) = first :: rest -> first !! "id" = Some v ->
      init srv sto = (Ok tt, activated v st1)).
Proof.
  intros Hempty. rewrite init_unfold, Hempty. split; [|split].
  - intros e srv' Hcall. unfold bind at 1.
    rewrite sync_from_google_unfold. simpl. rewrite Hcall.
    eexists. split; [done|]. unfold remote. simpl. by rewrite Hcall.
  - intros srv' Hcall. unfold bind at 1.
    rewrite sync_from_google_unfold. simpl. rewrite Hcall. simpl.
    by rewrite default_then_activate.
  - intros st1 first rest v Hsync Hl Hv. unfold bind at 1. rewrite Hsync.
    by rewrite default_then_activate, Hl, Hv.
Qed.
End Startup.

Lemma sync_from_google_replaces_cache_witness :
  let st' := after sync_from_google (with_work_ship (clean_on account)) in
  data st' = held account /\ dirty st' = false.
Proof.
  destruct (sync_from_google_replaces_cache (with_work_ship (clean_on account))
              (after sync_from_google (with_work_ship (clean_on account))))
    as (ids & _ & _ & _ & _ & _ & Hdirty & _).
  - vm_compute. reflexivity.
  - split; [vm_compute; reflexivity|exact Hdirty].
Defined.

Lemma sync_from_google_discards_local_witness :
  data (after sync_from_google (with_work_ship (clean_on account)))
  = data (after sync_from_google (clean_on account)).
Proof.
  destruct (sync_from_google_discards_local (with_work_ship (clean_on account))
              (clean_on account) eq_refl) as (_ & _ & Hdata).
  exact (Hdata _ eq_refl).
Defined.

Lemma restart_restores_snapshot_witness :
  let sto := storage (after save_local_data (work_ship true)) in
  init {| next_id := 7; online := false |} sto
  = (Ok tt, activated (PStr "L1") (fresh {| next_id := 7; online := false |} sto)).
Proof.
  destruct (restart_restores_snapshot (work_ship true)
              {| next_id := 7; online := false |}
              (mk_record [("id", PStr "L1"); ("title", PStr "My Tasks")])
              [new_list (PStr "Work") 1]) as (_ & _ & Hinit & _).
  - vm_compute. reflexivity.
  - reflexivity.
  - vm_compute. reflexivity.
  - exact (Hinit (PStr "L1") eq_refl).
Defined.

Lemma failed_save_is_silent_witness :
  let st' := after sync_to_google (read_only (work_ship true)) in
  dirty st' = false /\ file (storage st') = None.
Proof.
  destruct (failed_save_is_silent (read_only (work_ship true))
              (after sync_to_google (read_only (work_ship true))))
    as (Hdirty & Hsto & _).
  - reflexivity.
  - reflexivity.
  - vm_compute. reflexivity.
  - split; [exact Hdirty|]. simpl. rewrite Hsto. reflexivity.
Defined.

Lemma init_with_empty_cache_witness :
  (init {| next_id := 7; online := false |} no_file).1 = Raise HttpError /\
  (init {| next_id := 7; online := true |} no_file).1 = Ok tt /\
  active_list_id (init account no_file).2 = PStr "L1".
Proof.
  destruct (init_with_empty_cache {| next_id := 7; online := false |} no_file
              eq_refl) as (Hfail & _ & _).
  destruct (init_with_empty_cache {| next_id := 7; online := true |} no_file
              eq_refl) as (_ & Hnone & _).
  destruct (init_with_empty_cache account no_file eq_refl) as (_ & _ & Hsome).
  destruct (Hfail HttpError _ eq_refl) as (st' & -> & _).
  rewrite (Hnone _ eq_refl).
  rewrite (Hsome (after sync_from_google (fresh account no_file))
             (mk_record [("id", PStr "L1"); ("title", PStr "My Tasks")]) []
             (PStr "L1")); [done|vm_compute; reflexivity|reflexivity..].
Defined.

(** ** The rounds of [sync_to_google], case by case *)

Section Rounds.
Context {Srv : Type} `{RemoteService Srv} `{Dateutil}.
Implicit Types (st : State Srv) (list_id : pyval) (task task_list : record).

(** X17. A round of the loop over the lists. A tombstone with a remote
    identifier costs one [tasklists.delete], whose failure is swallowed;
    a tombstone with a provisional identifier costs nothing; neither is
    removed from the snapshot. A list that is neither deleted nor
    provisional, renamed or not, is not sent at all. A list waiting to be
    created is sent as its title alone, and a list without a title raises
    [KeyError] before any call. *)
Theorem list_round_by_case i task_list s m st :
  task_list !! "id" = Some (PStr s) ->
  let st' := (sync_list i task_list m st).2 in
  (get_truthy "deleted" task_list = true ->
   (sync_list i task_list m st).1 = Ok m /\ data st' = data st /\
   (String.prefix "temp_list_" s = true -> st' = st) /\
   (String.prefix "temp_list_" s = false ->
    trace st' = trace st ++ [EvRemote (TasklistsDelete (PStr s))])) /\
  (get_truthy "deleted" task_list = false ->
   String.prefix "temp_list_" s = false ->
   sync_list i task_list m st = (Ok m, st)) /\
  (get_truthy "deleted" task_list = false ->
   String.prefix "temp_list_" s = true ->
   (task_list !! "title" = None ->
    sync_list i task_list m st = (Raise KeyError, st)) /\
   (forall title,
       task_list !! "title" = Some title ->
       trace st' = trace st ++ [EvRemote (TasklistsInsert {["title" := title]})] /\
       forall new_list srv',
         tasklists_insert {["title" := title]} (service st) = (Ok new_list, srv') ->
         task_lists (data st') = <[i := new_list]> (task_lists (data st)) /\
         tasks (data st') = tasks (data st))).
Proof.
  intros Hid st'. unfold st', sync_list. split; [|split].
  - intros Hdel. rewrite Hdel.
    unfold bind, lift, getitem, startswith, try_pass, try_except, remote, ret.
    rewrite Hid. simpl.
    destruct (String.prefix "temp_list_" s); simpl.
    + repeat split; auto. by intros.
    + destruct (tasklists_delete (PStr s) (service st)) as [[[]|e] srv'];
        simpl; repeat split; auto; by intros.
  - intros Hdel Hpre. rewrite Hdel.
    unfold bind, lift, getitem, startswith, ret. rewrite Hid. simpl.
    by rewrite Hpre.
  - intros Hdel Hpre. rewrite Hdel.
    unfold bind, lift, getitem, startswith, remote, store_list, with_data, ret.
    rewrite Hid. simpl. rewrite Hpre. split.
    + intros Htitle. by rewrite Htitle.
    + intros title Htitle. rewrite Htitle.
      replace (<["title" := title]> (∅ : record)) with ({["title" := title]} : record)
        by done.
      destruct (tasklists_insert {["title" := title]} (service st))
        as [[new_list|e] srv'] eqn:Hcall; simpl.
      * destruct (new_list !! "id"); simpl; split; try done;
          by intros ? ? [= <- <-].
      * split; [done|]. by intros ? ? ?.
Qed.

Lemma new_task_body_fields title task key :
  is_Some (new_task_body title task !! key) ->
  key = "title" \/ key = "due" \/ key = "notes".
Proof.
  unfold new_task_body, copy_field. intros Hsome.
  destruct (decide (key = "title")) as [|Ht]; [auto|].
  destruct (decide (key = "due")) as [|Hd]; [auto|].
  destruct (decide (key = "notes")) as [|Hn]; [auto|].
  exfalso. destruct (task !! "notes"), (task !! "due");
    rewrite ?lookup_insert_ne, lookup_empty in Hsome by done;
    by destruct Hsome.
Qed.

(** X18. A task waiting to be created is sent as its title, its due date
    and its notes, where it has them, and nothing else: in particular the
    status is not sent, so that a task completed before its first sync is
    created without it. The answer of the server replaces the task in its
    bucket; a task without a title raises [KeyError] before any call. *)
Theorem task_create_sends_three_fields j list_id i task s st :
  get_truthy "deleted" task = false ->
  task !! "id" = Some (PStr s) -> String.prefix "temp_" s = true ->
  (task !! "title" = None ->
   sync_task j list_id i task st = (Raise KeyError, st)) /\
  (forall title,
      task !! "title" = Some title ->
      let body := new_task_body title task in
      let st' := (sync_task j list_id i task st).2 in
      body !! "title" = Some title /\
      body !! "due" = task !! "due" /\ body !! "notes" = task !! "notes" /\
      body !! "status" = None /\
      (forall key, is_Some (body !! key) ->
                   key = "title" \/ key = "due" \/ key = "notes") /\
      trace st' = trace st ++ [EvRemote (TasksInsert list_id body)] /\
      forall new_task srv',
        tasks_insert list_id body (service st) = (Ok new_task, srv') ->
        (sync_task j list_id i task st).1 = Ok tt /\
        data st' = data (store_bucket_item j i new_task st).2).
Proof.
  intros Hdel Hid Hpre. unfold sync_task. rewrite Hdel.
  unfold bind, lift, getitem, startswith, remote. rewrite Hid. simpl.
  rewrite Hpre. split.
  - intros Htitle. by rewrite Htitle.
  - intros title Htitle. rewrite Htitle. simpl.
    fold (new_task_body title task).
    split.
    { unfold new_task_body, copy_field.
      destruct (task !! "notes"), (task !! "due");
        by rewrite ?lookup_insert_ne, lookup_insert_eq by done. }
    split.
    { unfold new_task_body, copy_field.
      destruct (task !! "notes"), (task !! "due");
        by rewrite ?lookup_insert_ne, ?lookup_insert_eq, ?lookup_insert_ne,
             ?lookup_empty by done. }
    split.
    { unfold new_task_body, copy_field.
      destruct (task !! "notes"), (task !! "due");
        by rewrite ?lookup_insert_eq, ?lookup_insert_ne, ?lookup_empty by done. }
    split.
    { apply eq_None_not_Some. intros Hsome.
      by apply new_task_body_fields in Hsome as [|[|]]. }
    split; [apply new_task_body_fields|].
    destruct (tasks_insert list_id (new_task_body title task) (service st))
      as [[new_task|e] srv'] eqn:Hcall; simpl.
    + split; [done|]. by intros ? ? [= <- <-].
    + split; [done|]. by intros ? ? ?.
Qed.

(** X19. A round of the loop over a bucket, on a tombstone: with a remote
    identifier one [tasks.delete] is issued and its failure swallowed,
    with a provisional identifier nothing is done; the round always
    completes and the tombstone stays in the bucket. *)
Theorem task_tombstone_round j list_id i task s st :
  get_truthy "deleted" task = true ->
  task !! "id" = Some (PStr s) ->
  let st' := (sync_task j list_id i task st).2 in
  (sync_task j list_id i task st).1 = Ok tt /\
  data st' = data st /\
  (String.prefix "temp_" s = true -> st' = st) /\
  (String.prefix "temp_" s = false ->
   trace st' = trace st ++ [EvRemote (TasksDelete list_id (PStr s))] /\
   service st' = (tasks_delete list_id (PStr s) (service st)).2).
Proof.
  intros Hdel Hid st'. unfold st', sync_task. rewrite Hdel.
  unfold bind, lift, getitem, startswith, try_pass, try_except, remote, ret.
  rewrite Hid. simpl.
  destruct (String.prefix "temp_" s); simpl.
  - repeat split; done.
  - destruct (tasks_delete list_id (PStr s) (service st)) as [[[]|e] srv'];
      simpl; repeat split; done.
Qed.

Lemma differs_false google_task task :
  differs google_task task = false <->
  pyget "title" google_task = pyget "title" task /\
  pyget "status" google_task = pyget "status" task /\
  pyget "due" google_task = pyget "due" task /\
  pyget "notes" google_task = pyget "notes" task.
Proof.
  unfold differs. rewrite !orb_false_iff, !bool_decide_eq_false.
  split.
  - intros [[[Ht Hs] Hd] Hn].
    repeat split; by apply dec_stable.
  - intros (Ht & Hs & Hd & Hn). repeat split; auto.
Qed.

(** X20. A round on a task that has a remote identifier and is not
    deleted: the task is fetched first, and [tasks.update] is called,
    with the whole local record as its body, exactly when the title, the
    status, the due date or the notes of the fetched task differ from the
    local ones. The round always completes: a failure of either call is
    swallowed and leaves the snapshot as it was, and only the answer to a
    successful update is stored. *)
Theorem task_update_only_on_difference j list_id i task s st :
  get_truthy "deleted" task = false ->
  task !! "id" = Some (PStr s) -> String.prefix "temp_" s = false ->
  let id := PStr s in
  let st' := (sync_task j list_id i task st).2 in
  (sync_task j list_id i task st).1 = Ok tt /\
  (forall e srv',
      tasks_get list_id id (service st) = (Raise e, srv') ->
      data st' = data st /\
      trace st' = trace st ++ [EvRemote (TasksGet list_id id)]) /\
  (forall google_task srv',
      tasks_get list_id id (service st) = (Ok google_task, srv') ->
      (pyget "title" google_task = pyget "title" task /\
       pyget "status" google_task = pyget "status" task /\
       pyget "due" google_task = pyget "due" task /\
       pyget "notes" google_task = pyget "notes" task ->
       data st' = data st /\
       trace st' = trace st ++ [EvRemote (TasksGet list_id id)]) /\
      (differs google_task task = true ->
       trace st' = trace st ++ [EvRemote (TasksGet list_id id);
                                EvRemote (TasksUpdate list_id id task)] /\
       (forall e srv2,
           tasks_update list_id id task srv' = (Raise e, srv2) ->
           data st' = data st) /\
       (forall updated_task srv2,
           tasks_update list_id id task srv' = (Ok updated_task, srv2) ->
           data st' = data (store_bucket_item j i updated_task st).2))).
Proof.
  intros Hdel Hid Hpre id st'. unfold st', sync_task. rewrite Hdel.
  unfold bind, lift, getitem, startswith, try_pass, try_except, remote, ret,
    store_bucket_item, with_data.
  rewrite Hid. simpl. rewrite Hpre. simpl. fold id.
  destruct (tasks_get list_id id (service st)) as [[google_task|e] srv1];
    simpl.
  - destruct (differs google_task task) eqn:Hdiff; simpl.
    + destruct (tasks_update list_id id task srv1) as [[updated_task|e] srv2]
        eqn:Hup; simpl.
      * split; [done|]. split; [by intros ? ? ?|].
        intros g srv' [= <- <-]. split.
        { intros Heq. apply differs_false in Heq. congruence. }
        intros _. split; [by rewrite <- app_assoc|].
        split; intros ? ? Hup'; rewrite Hup in Hup'; by simplify_eq.
      * split; [done|]. split; [by intros ? ? ?|].
        intros g srv' [= <- <-]. split.
        { intros Heq. apply differs_false in Heq. congruence. }
        intros _. split; [by rewrite <- app_assoc|].
        split; intros ? ? Hup'; rewrite Hup in Hup'; by simplify_eq.
    + split; [done|]. split; [by intros ? ? ?|].
      intros g srv' [= <- <-]. split; [done|]. by rewrite Hdiff.
  - split; [done|]. split; [by intros ? ? [= <- <-]|]. by intros ? ? ?.
Qed.
End Rounds.

Lemma list_round_by_case_witness :
  sync_list 0 (mk_record [("id", PStr "L1"); ("title", PStr "Renamed")]) []
    (clean_state true)
  = (Ok [], clean_state true).
Proof.
  destruct (list_round_by_case 0
              (mk_record [("id", PStr "L1"); ("title", PStr "Renamed")])
              "L1" [] (clean_state true) eq_refl) as (_ & Hsynced & _).
  exact (Hsynced eq_refl eq_refl).
Defined.

Lemma task_create_sends_three_fields_witness :
  let task := mk_record [("id", PStr "temp_1"); ("title", PStr "Ship");
                         ("status", PStr "completed")] in
  new_task_body (PStr "Ship") task !! "status" = None /\
  trace (after (sync_task 0 (PStr "L1") 0 task) (clean_state true))
  = [EvRemote (TasksInsert (PStr "L1") (mk_record [("title", PStr "Ship")]))].
Proof.
  intros task.
  destruct (task_create_sends_three_fields 0 (PStr "L1") 0 task "temp_1"
              (clean_state true) eq_refl eq_refl eq_refl) as (_ & Hsome).
  destruct (Hsome (PStr "Ship") eq_refl) as (_ & _ & _ & Hstatus & _ & Htrace & _).
  split; [exact Hstatus|]. unfold after. rewrite Htrace. reflexivity.
Defined.

Lemma task_tombstone_round_witness :
  let task := mk_record [("id", PStr "t1"); ("title", PStr "Buy groceries");
                         ("deleted", PBool true)] in
  (sync_task 0 (PStr "L1") 0 task (clean_state false)).1 = Ok tt /\
  data (after (sync_task 0 (PStr "L1") 0 task) (clean_state false))
  = data (clean_state false).
Proof.
  intros task.
  destruct (task_tombstone_round 0 (PStr "L1") 0 task "t1" (clean_state false)
              eq_refl eq_refl) as (Hok & Hdata & _).
  split; [exact Hok|exact Hdata].
Defined.

Lemma task_update_only_on_difference_witness :
  let task := mk_record [("id", PStr "t1"); ("title", PStr "Buy groceries");
                         ("status", PStr "needsAction")] in
  (sync_task 0 (PStr "L1") 0 task (clean_state true)).1 = Ok tt /\
  trace (after (sync_task 0 (PStr "L1") 0 task) (clean_state true))
  = [EvRemote (TasksGet (PStr "L1") (PStr "t1"));
     EvRemote (TasksUpdate (PStr "L1") (PStr "t1") task)].
Proof.
  intros task.
  destruct (task_update_only_on_difference 0 (PStr "L1") 0 task "t1"
              (clean_state true) eq_refl eq_refl eq_refl) as (Hok & _ & Hget).
  split; [exact Hok|].
  destruct (Hget (<["id" := PStr "t1"]> ∅) _ eq_refl) as (_ & Hdiff).
  destruct (Hdiff eq_refl) as (Htrace & _).
  unfold after. rewrite Htrace. reflexivity.
Defined.

(** ** A sync pass removes no record *)

Section Purge.
Context {Srv : Type} `{RemoteService Srv} `{Dateutil}.
Implicit Types (st : State Srv) (l : list record) (m : odict pyval).

Lemma lists_synced_length l m l' m' :
  lists_synced l m l' m' -> length l' = length l.
Proof. induction 1; simpl; congruence. Qed.

Lemma lists_synced_untouched l m l' m' i r :
  lists_synced l m l' m' -> l !! i = Some r ->
  pending "temp_list_" r = false -> l' !! i = Some r.
Proof.
  intros Hs Hi Hp.
  destruct (lists_synced_lookup _ _ _ _ _ _ Hs Hi) as (r' & ma & mb & Hi' & Hr).
  inversion Hr; subst; [done|congruence].
Qed.

Lemma lists_synced_nothing_pending l m l' m' :
  lists_synced l m l' m' ->
  Forall (fun r => pending "temp_list_" r = false) l -> m' = m.
Proof.
  induction 1 as [|r l m r' m1 l' m' Hr Hl IH]; intros Hall; [done|].
  apply Forall_cons in Hall as [Hp Hall].
  inversion Hr; subst; [by apply IH|congruence].
Qed.

Lemma task_synced_tombstone list_id (r r' : record) :
  task_synced list_id r r' -> get_truthy "deleted" r = true -> r' = r.
Proof.
  intros Hr Hdel. pose proof (pending_false_deleted "temp_" r Hdel).
  inversion Hr; subst; congruence.
Qed.

(** X21. A sync pass that runs to completion removes nothing from the
    snapshot, tombstones included: [task_lists] keeps its length, and a
    list that was not waiting to be created is the same record at the
    same position afterwards. When no list was waiting to be created,
    the buckets keep their keys, their order and their lengths, and every
    task tombstone is where it was. *)
Theorem sync_never_purges st st' :
  sync_to_google st = (Ok tt, st') ->
  length (task_lists (data st')) = length (task_lists (data st)) /\
  (forall i r,
      task_lists (data st) !! i = Some r -> pending "temp_list_" r = false ->
      task_lists (data st') !! i = Some r) /\
  (Forall (fun r => pending "temp_list_" r = false) (task_lists (data st)) ->
   length (tasks (data st')) = length (tasks (data st)) /\
   forall j k b,
     tasks (data st) !! j = Some (k, b) ->
     exists b',
       tasks (data st') !! j = Some (k, b') /\ length b' = length b /\
       forall i r, b !! i = Some r -> get_truthy "deleted" r = true ->
                   b' !! i = Some r).
Proof.
  intros Hrun. destruct (dirty st) eqn:Hd; last first.
  { rewrite sync_to_google_unfold, Hd in Hrun. injection Hrun as <-.
    split; [done|]. split; [done|]. intros _. split; [done|].
    intros j k b Hj. exists b. by repeat split. }
  destruct (sync_to_google_ok _ _ Hd Hrun) as (l' & m & t' & Hl & Ht & ->).
  simpl. split; [by eapply lists_synced_length|].
  split; [intros i r; by eapply lists_synced_untouched|].
  intros Hall.
  rewrite (lists_synced_nothing_pending _ _ _ _ Hl Hall) in Ht. simpl in Ht.
  split; [symmetry; by eapply Forall2_length|].
  intros j k b Hj.
  destruct (Forall2_lookup_l _ _ _ _ _ Ht Hj) as ([k' b'] & Hj' & Hk & Hb).
  simpl in *. subst k'. exists b'. split; [done|].
  destruct Hb as [[_ ->]|[_ Hb]]; [by split|].
  split; [symmetry; by eapply Forall2_length|].
  intros i r Hi Hdel.
  destruct (Forall2_lookup_l _ _ _ _ _ Hb Hi) as (r' & Hi' & Hr).
  by rewrite (task_synced_tombstone _ _ _ Hr Hdel) in Hi'.
Qed.
End Purge.

Lemma sync_never_purges_witness :
  let st := after (delete_list (PStr "L1")) (work_ship_drop true) in
  length (task_lists (data (after sync_to_google st))) = 2 /\
  task_lists (data (after sync_to_google st)) !! 0
  = Some (mk_record [("id", PStr "L1"); ("title", PStr "My Tasks");
                     ("deleted", PBool true)]).
Proof.
  intros st.
  destruct (sync_never_purges st (after sync_to_google st)) as (Hlen & Hkeep & _).
  - vm_compute. reflexivity.
  - split; [rewrite Hlen; reflexivity|].
    apply Hkeep; vm_compute; reflexivity.
Defined.

(** ** The mock service *)

Section MockService.
Implicit Types (store : odict (list record)) (list_id task_id : pyval).
Implicit Types (ts : list record) (task : record).

Lemma od_keys_set_present {V} (k : pyval) (v : V) (d : odict V) :
  k ∈ od_keys d -> od_keys (od_set k v d) = od_keys d.
Proof.
  unfold od_keys. induction d as [|[k' v'] d IH]; simpl.
  - intros Hin. by apply elem_of_nil in Hin.
  - intros Hin. destruct (decide (k' = k)) as [->|Hne]; [done|].
    simpl. f_equal. apply IH.
    apply elem_of_cons in Hin as [?|?]; [congruence|done].
Qed.

(** X22. The mock [set_active_list] accepts the keys of [MOCK_TASKS] and
    nothing else: for a key it answers [True] and the list becomes the
    default of [get_tasks_for_list]; for any other value it answers
    [False] and the active list stays. *)
Theorem mock_set_active_list_validates list_id active store :
  (forall ts,
      od_get list_id store = Some ts ->
      Mock.set_active_list list_id active store = (true, list_id) /\
      Mock.get_tasks_for_list PNone
        (Mock.set_active_list list_id active store).2 store = ts) /\
  (list_id ∉ od_keys store ->
   Mock.set_active_list list_id active store = (false, active)) /\
  ((Mock.set_active_list list_id active store).1 = true <->
   list_id ∈ od_keys store).
Proof.
  unfold Mock.set_active_list, Mock.get_tasks_for_list.
  split; [|split].
  - intros ts Hget. rewrite Hget. split; [done|]. simpl. by rewrite Hget.
  - intros Hnot. destruct (od_get list_id store) as [ts|] eqn:Hget; [|done].
    by apply od_get_Some_keys in Hget.
  - destruct (od_get list_id store) as [ts|] eqn:Hget; simpl.
    + split; [intros _; by eapply od_get_Some_keys|done].
    + split; [done|]. intros Hin. apply od_keys_get in Hin as [ts Hts].
      congruence.
Qed.

(** X23. The mock [add_task] appends to the bucket of a known list, the
    set of lists and the other buckets being unchanged, and the task is
    the last one [get_tasks_for_list] then returns; for a list that is
    not a key of [MOCK_TASKS] it raises [KeyError] and changes nothing
    (the cache engine creates the bucket instead). *)
Theorem mock_add_task_needs_known_list list_id title uuid active store :
  (od_get list_id store = None ->
   Mock.add_task list_id title uuid store = (Raise KeyError, store)) /\
  (forall ts,
      od_get list_id store = Some ts ->
      let store' := (Mock.add_task list_id title uuid store).2 in
      (Mock.add_task list_id title uuid store).1
      = Ok (RRecord (Mock.new_task uuid title)) /\
      od_get list_id store' = Some (ts ++ [Mock.new_task uuid title]) /\
      od_keys store' = od_keys store /\
      (forall k, k ≠ list_id -> od_get k store' = od_get k store) /\
      (truthy list_id = true ->
       Mock.get_tasks_for_list list_id active store'
       = ts ++ [Mock.new_task uuid title])).
Proof.
  unfold Mock.add_task. split.
  - intros Hget. by rewrite Hget.
  - intros ts Hget. rewrite Hget. simpl. split; [done|].
    split; [apply od_get_set_eq|].
    split; [apply od_keys_set_present; by eapply od_get_Some_keys|].
    split; [intros k Hk; by apply od_get_set_ne|].
    intros Hl. unfold Mock.get_tasks_for_list. by rewrite Hl, od_get_set_eq.
Qed.

Lemma mock_toggle_in_absent task_id ts :
  absent task_id ts -> Mock.toggle_in task_id ts = (Ok RNone, ts).
Proof.
  induction ts as [|y ts IH]; intros Habs; simpl; [done|].
  apply Forall_cons in Habs as [[[v Hv] Hne] Habs].
  rewrite Hv, decide_False by congruence. by rewrite IH.
Qed.

Lemma mock_toggle_in_blocked task_id ts :
  blocked task_id ts -> Mock.toggle_in task_id ts = (Raise KeyError, ts).
Proof.
  intros (pre & bad & rest & -> & Habs & Hbad).
  induction pre as [|y pre IH]; simpl.
  - by rewrite Hbad.
  - apply Forall_cons in Habs as [[[v Hv] Hne] Habs].
    rewrite Hv, decide_False by congruence. by rewrite IH.
Qed.

Lemma mock_toggle_in_first task_id ts : forall i task,
  first_with_id task_id ts i task ->
  Mock.toggle_in task_id ts
  = (match (Mock.toggle task).1 with
     | Ok _ => Ok (RRecord (Mock.toggle task).2)
     | Raise e => Raise e
     end, <[i := (Mock.toggle task).2]> ts).
Proof.
  induction ts as [|y ts IH]; intros i task (Hi & Hid & Hbefore); [done|].
  destruct i as [|i]; simpl in *.
  - injection Hi as ->. rewrite Hid, decide_True by done.
    by destruct (Mock.toggle task) as [[[]|e] task'].
  - apply Forall_cons in Hbefore as [[[v Hv] Hne] Hbefore].
    rewrite Hv, decide_False by congruence.
    by rewrite (IH i task).
Qed.

(** X24. In the mock, toggling a task of a list that is not a key of
    [MOCK_TASKS] raises [KeyError] (the cache engine returns [None]); an
    identifier that no task of the list carries gives [None]; a task
    without ["id"] met first raises [KeyError]. [MOCK_TASKS] is unchanged
    in the three cases. *)
Theorem mock_toggle_not_found list_id task_id store :
  (od_get list_id store = None ->
   Mock.toggle_task_status list_id task_id store = (Raise KeyError, store)) /\
  (forall ts,
      od_get list_id store = Some ts ->
      (absent task_id ts ->
       Mock.toggle_task_status list_id task_id store = (Ok RNone, store)) /\
      (blocked task_id ts ->
       Mock.toggle_task_status list_id task_id store = (Raise KeyError, store))).
Proof.
  unfold Mock.toggle_task_status. split.
  - intros Hget. by rewrite Hget.
  - intros ts Hget. rewrite Hget. split.
    + intros Habs. rewrite mock_toggle_in_absent by done.
      by rewrite od_set_id.
    + intros Hblocked. rewrite mock_toggle_in_blocked by done.
      by rewrite od_set_id.
Qed.

Lemma replace_from_skipped old new (s : string) : forall n,
  String.length s <= n -> Mock.replace_from old new n s = "".
Proof.
  induction s as [|c s IH]; intros n Hn; simpl; [done|].
  destruct n as [|n]; simpl in Hn; [lia|]. apply IH. lia.
Qed.

Lemma prefix_refl (a : string) : String.prefix a a = true.
Proof.
  induction a as [|c a IH]; simpl; [done|].
  by destruct (Ascii.ascii_dec c c).
Qed.

(** [replace] deletes the marker appended to a string that has no other
    occurrence of it. *)
Lemma replace_appended old s :
  old ≠ "" -> free_of old s = true -> Mock.replace old "" (s +:+ old) = s.
Proof.
  intros Hold. unfold Mock.replace.
  induction s as [|c s IH]; intros Hfree.
  - destruct old as [|c0 old']; [done|].
    change ("" +:+ String c0 old') with (String c0 old').
    unfold Mock.replace_from; fold Mock.replace_from.
    rewrite prefix_refl.
    rewrite replace_from_skipped; [done|]. simpl. lia.
  - change (free_of old (String c s))
      with (negb (String.prefix old (String c s +:+ old)) && free_of old s)
      in Hfree.
    apply andb_true_iff in Hfree as [Hno Hfree].
    apply negb_true_iff in Hno.
    change (String c s +:+ old) with (String c (s +:+ old)) in *.
    unfold Mock.replace_from; fold Mock.replace_from.
    rewrite Hno. f_equal. by apply IH.
Qed.

(** X25. In the mock, toggling twice a [needsAction] task whose title
    does not contain the marker " (Completed)" gives back the task and
    [MOCK_TASKS] as they were: the first toggle returns the task
    completed, with the marker appended to its title, and the second one
    deletes that marker again. *)
Theorem mock_toggle_twice_restores list_id task_id store ts i task title :
  od_get list_id store = Some ts ->
  first_with_id task_id ts i task ->
  task !! "status" = Some (PStr "needsAction") ->
  task !! "title" = Some (PStr title) ->
  free_of " (Completed)" title = true ->
  let task1 := <["title" := PStr (title +:+ " (Completed)")]>
                 (<["status" := PStr "completed"]> task) in
  let store1 := (Mock.toggle_task_status list_id task_id store).2 in
  (Mock.toggle_task_status list_id task_id store).1 = Ok (RRecord task1) /\
  Mock.toggle_task_status list_id task_id store1 = (Ok (RRecord task), store).
Proof.
  intros Hget Hfirst Hstatus Htitle Hfree task1 store1.
  assert (Mock.toggle task = (Ok tt, task1)) as Ht1.
  { unfold Mock.toggle. rewrite Hstatus, decide_True by done.
    by rewrite lookup_insert_ne, Htitle. }
  assert (Mock.toggle task1 = (Ok tt, task)) as Ht2.
  { unfold Mock.toggle, task1.
    rewrite lookup_insert_ne, lookup_insert_eq by done.
    rewrite decide_False by done.
    rewrite lookup_insert_ne, lookup_insert_eq by done.
    rewrite replace_appended by done. f_equal.
    apply map_eq. intros key.
    destruct (decide (key = "title")) as [->|Ht];
      [by rewrite lookup_insert_eq|].
    rewrite lookup_insert_ne by done.
    destruct (decide (key = "status")) as [->|Hs];
      [by rewrite lookup_insert_eq|].
    by rewrite !lookup_insert_ne. }
  assert (store1 = od_set list_id (<[i := task1]> ts) store) as ->.
  { unfold store1, Mock.toggle_task_status. rewrite Hget.
    by rewrite (mock_toggle_in_first _ _ _ _ Hfirst), Ht1. }
  split.
  { unfold Mock.toggle_task_status. rewrite Hget.
    by rewrite (mock_toggle_in_first _ _ _ _ Hfirst), Ht1. }
  unfold Mock.toggle_task_status. rewrite od_get_set_eq.
  assert (first_with_id task_id (<[i := task1]> ts) i task1) as Hfirst1.
  { destruct Hfirst as (Hi & Hid & Hbefore). split; [|split].
    - apply list_lookup_insert_eq. by eapply lookup_lt_Some.
    - unfold task1. by rewrite !lookup_insert_ne.
    - by rewrite take_insert_ge. }
  rewrite (mock_toggle_in_first _ _ _ _ Hfirst1), Ht2. simpl.
  rewrite list_insert_insert_eq, od_set_set.
  destruct Hfirst as (Hi & _). rewrite list_insert_id by done.
  by rewrite od_set_id.
Qed.
End MockService.

Lemma mock_toggle_twice_restores_witness :
  let store1 :=
    (Mock.toggle_task_status (PStr "list1") (PStr "u1") MOCK_TASKS).2 in
  Mock.toggle_task_status (PStr "list1") (PStr "u1") store1
  = (Ok (RRecord (mk_record [("id", PStr "u1"); ("title", PStr "Buy groceries");
                             ("status", PStr "needsAction")])), MOCK_TASKS).
Proof.
  assert (first_with_id (PStr "u1")
            [mk_record [("id", PStr "u1"); ("title", PStr "Buy groceries");
                        ("status", PStr "needsAction")];
             mk_record [("id", PStr "u2"); ("title", PStr "Pay bills (Completed)");
                        ("status", PStr "completed")]] 0
            (mk_record [("id", PStr "u1"); ("title", PStr "Buy groceries");
                        ("status", PStr "needsAction")])) as Hfirst.
  { split; [reflexivity|]. split; [reflexivity|]. constructor. }
  destruct (mock_toggle_twice_restores (PStr "list1") (PStr "u1") MOCK_TASKS
              _ 0 _ "Buy groceries" eq_refl Hfirst eq_refl eq_refl eq_refl)
    as (_ & Hback).
  exact Hback.
Defined.

(** ** A sync pass with nothing to create *)

Section Settled.
Context {Srv : Type} `{RemoteService Srv} `{Dateutil}.
Implicit Types (st : State Srv) (r : record).

Lemma settled_record_spec p r :
  settled_record p r = true ->
  exists s, r !! "id" = Some (PStr s) /\ pending p r = false.
Proof.
  unfold settled_record. destruct (r !! "id") as [[| |s]|]; try done.
  intros Hp. exists s. split; [done|]. by apply negb_true_iff.
Qed.

Lemma settled_prefix p r s :
  r !! "id" = Some (PStr s) -> pending p r = false ->
  get_truthy "deleted" r = false -> String.prefix p s = false.
Proof.
  intros Hid Hp Hdel. unfold pending, provisional in Hp.
  by rewrite Hid, Hdel in Hp.
Qed.

Lemma sync_list_settled i r m st :
  settled_record "temp_list_" r = true ->
  exists st', sync_list i r m st = (Ok m, st') /\ data st' = data st.
Proof.
  intros (s & Hid & Hp)%settled_record_spec.
  pose proof (settled_prefix _ _ _ Hid Hp) as Hpre.
  unfold sync_list, bind, lift, getitem, startswith, try_pass, try_except,
    remote, ret.
  rewrite Hid. destruct (get_truthy "deleted" r); simpl.
  - destruct (String.prefix "temp_list_" s); simpl; [by eexists|].
    destruct (tasklists_delete (PStr s) (service st)) as [[[]|e] srv'];
      by eexists.
  - rewrite Hpre by done. by eexists.
Qed.

Lemma sync_lists_settled l : forall i m st,
  forallb (settled_record "temp_list_") l = true ->
  exists st', sync_lists i l m st = (Ok m, st') /\ data st' = data st.
Proof.
  induction l as [|r l IH]; intros i m st Hall; simpl; [by eexists|].
  simpl in Hall. apply andb_true_iff in Hall as [Hr Hall].
  destruct (sync_list_settled i r m st Hr) as (s1 & Hrun & Hdata).
  unfold bind. rewrite Hrun.
  destruct (IH (S i) m s1 Hall) as (s2 & Hrest & Hdata2).
  exists s2. split; [done|congruence].
Qed.

Lemma sync_task_settled j list_id i r st :
  settled_record "temp_" r = true ->
  exists st', sync_task j list_id i r st = (Ok tt, st').
Proof.
  intros (s & Hid & Hp)%settled_record_spec.
  pose proof (settled_prefix _ _ _ Hid Hp) as Hpre.
  unfold sync_task, bind, lift, getitem, startswith, try_pass, try_except,
    remote, ret, store_bucket_item, with_data.
  rewrite Hid. destruct (get_truthy "deleted" r); simpl.
  - destruct (String.prefix "temp_" s); simpl; [by eexists|].
    destruct (tasks_delete list_id (PStr s) (service st)) as [[[]|e] srv'];
      by eexists.
  - rewrite Hpre by done. simpl.
    destruct (tasks_get list_id (PStr s) (service st)) as [[g|e] srv'];
      simpl; [|by eexists].
    destruct (differs g r); simpl; [|by eexists].
    destruct (tasks_update list_id (PStr s) r srv') as [[u|e] srv2];
      by eexists.
Qed.

Lemma sync_bucket_settled j list_id ts : forall i st,
  forallb (settled_record "temp_") ts = true ->
  exists st', sync_bucket j list_id i ts st = (Ok tt, st').
Proof.
  induction ts as [|r ts IH]; intros i st Hall; simpl; [by eexists|].
  simpl in Hall. apply andb_true_iff in Hall as [Hr Hall].
  destruct (sync_task_settled j list_id i r st Hr) as (s1 & Hrun).
  unfold bind. rewrite Hrun. by apply IH.
Qed.

Lemma sync_buckets_settled items : forall j st,
  forallb settled_bucket items = true ->
  exists st', sync_buckets j items st = (Ok tt, st').
Proof.
  induction items as [|[k ts] items IH]; intros j st Hall; simpl;
    [by eexists|].
  simpl in Hall. apply andb_true_iff in Hall as [Hb Hall].
  unfold settled_bucket in Hb. simpl in Hb.
  destruct k as [| |s]; try done.
  unfold bind at 1, lift, startswith.
  destruct (String.prefix "temp_list_" s).
  - unfold bind, ret. by apply IH.
  - unfold bind at 1.
    destruct (sync_bucket_settled j (PStr s) ts 0 st Hb) as (s1 & ->).
    by apply IH.
Qed.

Lemma sync_settled_runs st :
  dirty st = true -> settled (data st) = true ->
  exists st',
    sync_to_google st = (Ok tt, st') /\
    task_lists (data st') = task_lists (data st).
Proof.
  intros Hd Hsettled. apply andb_true_iff in Hsettled as [Hlists Hbuckets].
  rewrite sync_to_google_unfold, Hd.
  unfold sync_passes, bind at 1, gets. unfold bind at 1.
  destruct (sync_lists_settled _ 0 [] st Hlists) as (s1 & -> & Hdata1).
  unfold bind at 1, migrate_buckets, with_data. unfold bind at 1, gets.
  simpl. rewrite Hdata1.
  match goal with
  | |- context [sync_buckets 0 _ ?s] =>
      destruct (sync_buckets_settled (tasks (data st)) 0 s Hbuckets)
        as (s2 & Hrun)
  end.
  rewrite Hrun.
  apply (sync_buckets_ok _ _ _ _ []) in Hrun as (items' & _ & Hdata2);
    [|done..].
  eexists. split; [done|]. simpl. by rewrite Hdata2.
Qed.

(** X26. When no list and no task is waiting to be created (and the
    identifiers are strings), a sync pass on a dirty snapshot runs to
    completion whatever the server answers: the calls left, deletions,
    fetches and updates, are all guarded. The snapshot reached is then
    saved, as the last thing done (the file holds it if it can be
    written), and marked clean, also when every call failed; the lists
    are those of before, and a further sync does nothing. *)
Theorem sync_without_creates_completes st :
  dirty st = true -> settled (data st) = true ->
  exists st',
    sync_to_google st = (Ok tt, st') /\
    dirty st' = false /\
    persisted_last st st' /\
    storage st' = save_data (data st') (storage st) /\
    (writable (storage st) = true -> file (storage st') = Some (data st')) /\
    task_lists (data st') = task_lists (data st) /\
    sync_to_google st' = (Ok tt, st').
Proof.
  intros Hd Hsettled.
  destruct (sync_settled_runs st Hd Hsettled) as (st' & Hrun & Hlists).
  destruct (sync_ok_persisted _ _ Hd Hrun) as (Hclean & Hlast & Hsto).
  exists st'. split; [done|]. split; [done|]. split; [done|].
  split; [done|]. split.
  { intros Hw. rewrite Hsto. unfold save_data. by rewrite Hw. }
  split; [done|]. by rewrite sync_to_google_unfold, Hclean.
Qed.
End Settled.

Lemma sync_without_creates_completes_witness :
  let st := after (rename_task (PStr "L1") (PStr "t2") (PStr "Pay the bills"))
              (after (delete_task (PStr "L1") (PStr "t1")) (clean_state false)) in
  (sync_to_google st).1 = Ok tt /\
  dirty (after sync_to_google st) = false /\
  file (storage (after sync_to_google st))
  = Some (data (after sync_to_google st)).
Proof.
  intros st.
  destruct (sync_without_creates_completes st eq_refl)
    as (st' & Hrun & Hd & _ & _ & Hfile & _).
  - vm_compute. reflexivity.
  - unfold after. rewrite Hrun. split; [reflexivity|].
    split; [exact Hd|exact (Hfile eq_refl)].
Defined.

(** ** The order of the remote calls of a sync pass *)

Section Order.
Context {Srv : Type} `{RemoteService Srv} `{Dateutil}.
Implicit Types (st : State Srv) (P : event -> Prop).

Lemma Emits_ret {A} P (a : A) : Emits (Srv := Srv) P (ret a).
Proof. intros st. exists []. split; [by rewrite app_nil_r|constructor]. Qed.

Lemma Emits_lift {A} P (r : result A) : Emits (Srv := Srv) P (lift r).
Proof. intros st. exists []. split; [by rewrite app_nil_r|constructor]. Qed.

Lemma Emits_with_data P f : Emits (Srv := Srv) P (with_data f).
Proof. intros st. exists []. split; [by rewrite app_nil_r|constructor]. Qed.

Lemma Emits_remote {A} P req (f : Srv -> result A * Srv) :
  P (EvRemote req) -> Emits (Srv := Srv) P (remote req f).
Proof.
  intros HP st. unfold remote. destruct (f (service st)) as [r srv'].
  exists [EvRemote req]. split; [done|]. by repeat constructor.
Qed.

Lemma Emits_bind {A B} P (c : M A) (k : A -> M B) :
  Emits (Srv := Srv) P c -> (forall a, Emits (Srv := Srv) P (k a)) ->
  Emits (Srv := Srv) P (bind c k).
Proof.
  intros Hc Hk st. unfold bind. destruct (Hc st) as (evs1 & Ht1 & HP1).
  destruct (c st) as [[a|e] st0]; [|by exists evs1].
  destruct (Hk a st0) as (evs2 & Ht2 & HP2). exists (evs1 ++ evs2).
  split; [|by apply Forall_app].
  simpl in Ht1. by rewrite Ht2, Ht1, app_assoc.
Qed.

Lemma Emits_try_except {A} P (c : M A) (h : exn -> M A) :
  Emits (Srv := Srv) P c -> (forall e, Emits (Srv := Srv) P (h e)) ->
  Emits (Srv := Srv) P (try_except c h).
Proof.
  intros Hc Hh st. unfold try_except. destruct (Hc st) as (evs1 & Ht1 & HP1).
  destruct (c st) as [[a|e] st0]; [by exists evs1|].
  destruct (Hh e st0) as (evs2 & Ht2 & HP2). exists (evs1 ++ evs2).
  split; [|by apply Forall_app].
  simpl in Ht1. by rewrite Ht2, Ht1, app_assoc.
Qed.

Lemma Emits_if {A} P (b : bool) (c1 c2 : M A) :
  Emits (Srv := Srv) P c1 -> Emits (Srv := Srv) P c2 ->
  Emits (Srv := Srv) P (if b then c1 else c2).
Proof. by destruct b. Qed.

Ltac emits :=
  repeat first
    [ apply Emits_bind; [|intros ?]
    | apply Emits_try_except; [|intros ?]
    | apply Emits_if
    | apply Emits_ret
    | apply Emits_lift
    | apply Emits_with_data
    | apply Emits_remote; exact I ].

Lemma Emits_sync_list i task_list m :
  Emits (Srv := Srv) list_call (sync_list i task_list m).
Proof. unfold sync_list, try_pass, store_list. emits. Qed.

Lemma Emits_sync_lists l :
  forall i m, Emits (Srv := Srv) list_call (sync_lists i l m).
Proof.
  induction l as [|r l IH]; intros i m; simpl; [apply Emits_ret|].
  apply Emits_bind; [apply Emits_sync_list|auto].
Qed.

Lemma Emits_sync_task j list_id i task :
  Emits (Srv := Srv) task_call (sync_task j list_id i task).
Proof. unfold sync_task, try_pass, store_bucket_item. emits. Qed.

Lemma Emits_sync_bucket j list_id ts :
  forall i, Emits (Srv := Srv) task_call (sync_bucket j list_id i ts).
Proof.
  induction ts as [|r ts IH]; intros i; simpl; [apply Emits_ret|].
  apply Emits_bind; [apply Emits_sync_task|auto].
Qed.

Lemma Emits_sync_buckets items :
  forall j, Emits (Srv := Srv) task_call (sync_buckets j items).
Proof.
  induction items as [|[list_id ts] items IH]; intros j; simpl;
    [apply Emits_ret|].
  apply Emits_bind; [apply Emits_lift|]. intros temp.
  apply Emits_bind; [|auto].
  apply Emits_if; [apply Emits_ret|apply Emits_sync_bucket].
Qed.

Lemma sync_passes_emits st :
  exists on_lists on_tasks,
    Forall list_call on_lists /\ Forall task_call on_tasks /\
    trace (sync_passes st).2 = trace st ++ on_lists ++ on_tasks.
Proof.
  unfold sync_passes, bind at 1, gets. unfold bind at 1.
  destruct (Emits_sync_lists (task_lists (data st)) 0 [] st)
    as (on_lists & Ht1 & HP1).
  destruct (sync_lists 0 (task_lists (data st)) [] st) as [[m|e] s1];
    simpl in Ht1; last first.
  { exists on_lists, []. split; [done|]. split; [constructor|].
    simpl. by rewrite Ht1, app_nil_r. }
  unfold bind at 1, migrate_buckets, with_data. unfold bind at 1, gets.
  match goal with
  | |- context [sync_buckets 0 ?t ?s] =>
      destruct (Emits_sync_buckets t 0 s) as (on_tasks & Ht2 & HP2)
  end.
  exists on_lists, on_tasks. split; [done|]. split; [done|].
  simpl in Ht2. etrans; [exact Ht2|]. by rewrite Ht1, <- app_assoc.
Qed.

(** X27. The remote calls of a sync pass on a dirty snapshot come in two
    runs: first the deletions and creations of lists, then the calls on
    tasks (deletions, creations, fetches, updates); nothing is downloaded
    ([tasklists.list] and [tasks.list] are not called). The snapshot is
    saved once, after all of them, if the pass completes, and not at all
    if it raises. *)
Theorem sync_calls_lists_first st :
  dirty st = true ->
  exists on_lists on_tasks,
    Forall list_call on_lists /\ Forall task_call on_tasks /\
    trace (sync_to_google st).2
    = trace st ++ on_lists ++ on_tasks ++
        match (sync_to_google st).1 with
        | Ok _ => [EvSave (data (sync_to_google st).2)]
        | Raise _ => []
        end.
Proof.
  intros Hd. rewrite sync_to_google_unfold, Hd.
  destruct (sync_passes_emits st) as (on_lists & on_tasks & HP1 & HP2 & Ht).
  exists on_lists, on_tasks. split; [done|]. split; [done|].
  destruct (sync_passes st) as [[[]|e] s1]; simpl in *.
  - by rewrite Ht, <- !app_assoc.
  - by rewrite Ht, app_nil_r.
Qed.
End Order.

Lemma sync_calls_lists_first_witness :
  exists on_lists on_tasks,
    Forall list_call on_lists /\ Forall task_call on_tasks /\
    trace (after sync_to_google (work_ship_drop true))
    = on_lists ++ on_tasks ++
        [EvSave (data (after sync_to_google (work_ship_drop true)))].
Proof.
  destruct (sync_calls_lists_first (work_ship_drop true) eq_refl)
    as (on_lists & on_tasks & Hlists & Htasks & Htrace).
  exists on_lists, on_tasks. split; [exact Hlists|]. split; [exact Htasks|].
  vm_compute in Htrace. vm_compute. exact Htrace.
Defined.

(** ** Renaming a list that the server knows *)

Section RenameList.
Context {Srv : Type} `{RemoteService Srv} `{Dateutil}.
Implicit Types (st : State Srv) (r : record) (l : list record).

(** A list record the server knows and that is not deleted. *)
Lemma sync_list_known i r m st :
  has_remote_id r = true -> get_truthy "deleted" r = false ->
  sync_list i r m st = (Ok m, st).
Proof.
  intros (s & Hid & Hpre)%has_remote_id_str Hdel.
  unfold sync_list, bind, lift, getitem, startswith, ret.
  rewrite Hdel, Hid. simpl.
  destruct (String.prefix "temp_list_" s) eqn:Hl; [|done].
  apply prefix_temp_list in Hl. congruence.
Qed.

Lemma sync_lists_known l : forall i m st,
  Forall (fun r => has_remote_id r = true /\ get_truthy "deleted" r = false) l ->
  sync_lists i l m st = (Ok m, st).
Proof.
  induction l as [|r l IH]; intros i m st Hall; simpl; [done|].
  apply Forall_cons in Hall as [[Hid Hdel] Hall].
  unfold bind. rewrite sync_list_known by done. by apply IH.
Qed.

(** X28. [rename_list] assigns the new title to the list found, in the
    snapshot, and answers [True]; but when every list is known to the
    server and none is deleted, the sync pass that follows issues no call
    on the lists at all: its first loop leaves the state as it is, and
    the calls of the whole pass are calls on tasks only. The new title
    stays local. *)
Theorem renamed_list_is_never_sent list_id new_title st i task_list :
  truthy list_id = true ->
  first_with_id list_id (task_lists (data st)) i task_list ->
  Forall (fun r => has_remote_id r = true /\ get_truthy "deleted" r = false)
    (task_lists (data st)) ->
  let st1 := (rename_list list_id new_title st).2 in
  (rename_list list_id new_title st).1 = Ok (RBool true) /\
  task_lists (data st1)
  = <[i := <["title" := new_title]> task_list]> (task_lists (data st)) /\
  dirty st1 = true /\
  sync_lists 0 (task_lists (data st1)) [] st1 = (Ok [], st1) /\
  exists on_tasks,
    Forall task_call on_tasks /\
    trace (sync_to_google st1).2
    = trace st ++ on_tasks ++
        match (sync_to_google st1).1 with
        | Ok _ => [EvSave (data (sync_to_google st1).2)]
        | Raise _ => []
        end.
Proof.
  intros Hl Hfirst Hall st1.
  assert (rename_list list_id new_title st
          = (Ok (RBool true),
             put_list i (<["title" := new_title]> task_list) st)) as Hrun.
  { unfold rename_list. rewrite Hl. simpl. rewrite find_list_spec.
    by rewrite (find_by_id_first _ _ _ _ 0 Hfirst). }
  unfold st1. rewrite Hrun. simpl.
  split; [done|]. split; [done|]. split; [done|].
  set (l1 := <[i := <["title" := new_title]> task_list]> (task_lists (data st))).
  set (s1 := put_list i (<["title" := new_title]> task_list) st).
  assert (Forall (fun r => has_remote_id r = true /\
                           get_truthy "deleted" r = false) l1) as Hall1.
  { apply Forall_insert; [done|].
    destruct Hfirst as (Hi & _).
    destruct (Forall_lookup_1 _ _ _ _ Hall Hi) as [Hid Hdel]. split.
    - unfold has_remote_id in *. by rewrite lookup_insert_ne.
    - unfold get_truthy, pyget in *. by rewrite lookup_insert_ne. }
  assert (sync_lists 0 l1 [] s1 = (Ok [], s1)) as Hlists
    by (by apply sync_lists_known).
  split; [done|].
  assert (sync_passes s1 = sync_buckets 0 (tasks (data s1)) s1) as Hpasses.
  { unfold sync_passes, bind at 1, gets. unfold bind at 1.
    change (task_lists (data s1)) with l1. rewrite Hlists.
    unfold bind at 1, migrate_buckets, with_data. unfold bind at 1, gets.
    simpl. by destruct st as [[??] ?????]. }
  destruct (Emits_sync_buckets (tasks (data s1)) 0 s1) as (on_tasks & Ht & HP).
  exists on_tasks. split; [done|].
  rewrite sync_to_google_unfold. change (dirty s1) with true. cbv iota.
  rewrite Hpasses.
  destruct (sync_buckets 0 (tasks (data s1)) s1) as [[[]|e] s2]; simpl in *.
  - by rewrite Ht, <- app_assoc.
  - by rewrite Ht, app_nil_r.
Qed.
End RenameList.

Lemma renamed_list_is_never_sent_witness :
  let st1 := after (rename_list (PStr "L1") (PStr "Home")) (clean_state true) in
  sync_lists 0 (task_lists (data st1)) [] st1 = (Ok [], st1).
Proof.
  assert (first_with_id (PStr "L1") (task_lists (data (clean_state true))) 0
            (mk_record [("id", PStr "L1"); ("title", PStr "My Tasks")]))
    as Hfirst.
  { split; [reflexivity|]. split; [reflexivity|]. constructor. }
  destruct (renamed_list_is_never_sent (PStr "L1") (PStr "Home")
              (clean_state true) 0 _ eq_refl Hfirst)
    as (_ & _ & _ & Hlists & _).
  - repeat constructor.
  - exact Hlists.
Defined.
